(** * CocktailCalculator: the recipe model and the cost engine

    A shallow embedding of [model.py], [calc.py] and of the calculation
    paths and the table operations of [cost_dialog.py], over a model of Python's [decimal] module
    (the General Decimal Arithmetic the module implements, in the context
    [calc.py] installs: 28 significant digits, ROUND_HALF_EVEN, exponents
    between -999999 and 999999, traps on InvalidOperation, DivisionByZero
    and Overflow). *)

From Stdlib Require Import ZArith QArith Qround Qabs Qpower Lia Bool Ascii String.
From stdpp Require Import base option list strings gmap sorting.

Local Open Scope Z_scope.

(** ** Exceptions and results *)

(** The exceptions the modelled code can raise.  [ValueError] carries the
    message the source passes to it. *)
Inductive exn : Type :=
| ValueError (msg : string)
| KeyError (key : string)
| InvalidOperation
| DivisionByZero
| Overflow.

(** A call either returns a value or raises. *)
Inductive result (A : Type) : Type :=
| Ok (a : A)
| Raise (e : exn).

Arguments Ok {A} a.
Arguments Raise {A} e.

#[global] Instance result_ret : MRet result := fun A a => Ok a.

#[global] Instance result_bind : MBind result := fun A B f m =>
  match m with
  | Ok a => f a
  | Raise e => Raise e
  end.

(** [try: m except: h] is [try: m except Exception: h]. *)
Definition try_except {A} (m : result A) (h : A) : A :=
  match m with
  | Ok a => a
  | Raise _ => h
  end.

Definition is_ok {A} (m : result A) : bool :=
  match m with
  | Ok _ => true
  | Raise _ => false
  end.

(** ** Decimal digits of a natural number *)

Module Digits.

Definition digit_char (d : Z) : ascii :=
  ascii_of_N (48 + Z.to_N d).

(** [str(c)] for [0 <= c], most significant digit first. *)
Fixpoint to_string_aux (fuel : nat) (c : Z) (acc : string) : string :=
  match fuel with
  | O => acc
  | S f =>
      let acc' := String (digit_char (c mod 10)) acc in
      if c <? 10 then acc' else to_string_aux f (c / 10) acc'
  end.

Definition to_string (c : N) : string :=
  to_string_aux (S (N.size_nat c)) (Z.of_N c) "".

(** [len(str(c))]: the number of digits of the coefficient. *)
Definition ndigits (c : N) : Z :=
  Z.of_nat (String.length (to_string c)).

Definition is_digit (a : ascii) : bool :=
  let n := N_of_ascii a in ((48 <=? n) && (n <=? 57))%N.

Definition digit_val (a : ascii) : N :=
  (N_of_ascii a - 48)%N.

(** [int(s)] for a string of digits, accumulating from the left. *)
Fixpoint of_string_acc (acc : N) (s : string) : N :=
  match s with
  | EmptyString => acc
  | String a s' => of_string_acc (acc * 10 + digit_val a)%N s'
  end.

Definition of_string (s : string) : N := of_string_acc 0%N s.

Fixpoint all_digits (s : string) : bool :=
  match s with
  | EmptyString => true
  | String a s' => is_digit a && all_digits s'
  end.

(** [str(z)] for an integer, and ["%+d" % z]. *)
Definition Z_to_string (z : Z) : string :=
  if z <? 0 then "-" +:+ to_string (Z.abs_N z) else to_string (Z.abs_N z).

Definition Z_to_string_signed (z : Z) : string :=
  if z <? 0 then "-" +:+ to_string (Z.abs_N z) else "+" +:+ to_string (Z.abs_N z).

End Digits.

(** ** The decimal module *)

(** A [Decimal] is a finite number [(-1)^sign * coef * 10^exp], an
    infinity, or a NaN (quiet or signaling) with its diagnostic payload
    (payload [0] stands for the empty payload). *)
Inductive Decimal : Type :=
| Fin (sign : bool) (coef : N) (exp : Z)
| Inf (sign : bool)
| NaN (sign : bool) (signaling : bool) (payload : N).

#[global] Instance Decimal_eq_dec : EqDecision Decimal.
Proof. solve_decision. Defined.

Inductive rounding : Type :=
| ROUND_HALF_EVEN
| ROUND_HALF_UP.

Module Dec.

(** The context: [getcontext().prec = 28], the other fields at their
    defaults. *)
Definition prec : Z := 28.
Definition Emax : Z := 999999.
Definition Emin : Z := -999999.
Definition Etiny : Z := Emin - prec + 1.
Definition Etop : Z := Emax - prec + 1.
Definition ctx_rounding : rounding := ROUND_HALF_EVEN.

Definition pow10 (k : Z) : Z := 10 ^ k.

Definition ndigits := Digits.ndigits.

(** [adjusted()]: the exponent of the most significant digit. *)
Definition adjusted (c : N) (e : Z) : Z := e + ndigits c - 1.

(** Dropping the [k] low digits of the coefficient [c] ([0 < k]) under a
    rounding mode: the kept digits, plus one when the dropped part is
    more than half a unit, or exactly half and the mode says so. *)
Definition round_coef (rnd : rounding) (c : N) (k : Z) : N :=
  let q := Z.of_N c / pow10 k in
  let r := Z.of_N c mod pow10 k in
  let up :=
    match rnd with
    | ROUND_HALF_UP => pow10 k <=? 2 * r
    | ROUND_HALF_EVEN => (pow10 k <? 2 * r) || ((pow10 k =? 2 * r) && Z.odd q)
    end in
  Z.to_N (if up then q + 1 else q).

(** [_fix]: round a finite result to the context. *)
Definition fix_ (s : bool) (c : N) (e : Z) : result Decimal :=
  if (c =? 0)%N then Ok (Fin s 0 (Z.min (Z.max e Etiny) Emax))
  else
    let exp_min := ndigits c + e - prec in
    if Etop <? exp_min then Raise Overflow
    else
      let exp_min := Z.max exp_min Etiny in
      if e <? exp_min then
        let coeff := round_coef ctx_rounding c (exp_min - e) in
        if prec <? ndigits coeff then
          if Etop <? exp_min + 1 then Raise Overflow
          else Ok (Fin s (coeff / 10) (exp_min + 1))
        else Ok (Fin s coeff exp_min)
      else Ok (Fin s c e).

(** [_fix_nan]: a NaN keeps the low [prec] digits of its payload. *)
Definition fix_nan (s : bool) (p : N) : Decimal :=
  NaN s false (Z.to_N (Z.of_N p mod pow10 prec)).

(** [_check_nans]: a signaling NaN operand raises, a quiet one is the
    result; [None] when neither operand is a NaN. *)
Definition check_nans (a b : Decimal) : option (result Decimal) :=
  match a, b with
  | NaN _ true _, _ => Some (Raise InvalidOperation)
  | _, NaN _ true _ => Some (Raise InvalidOperation)
  | NaN s false p, _ => Some (Ok (fix_nan s p))
  | _, NaN s false p => Some (Ok (fix_nan s p))
  | _, _ => None
  end.

Definition is_zero (d : Decimal) : bool :=
  match d with
  | Fin _ c _ => (c =? 0)%N
  | _ => false
  end.

Definition sign_of (d : Decimal) : bool :=
  match d with
  | Fin s _ _ | Inf s | NaN s _ _ => s
  end.

(** [Decimal(n)] for an int. *)
Definition of_int (n : Z) : Decimal := Fin (n <? 0) (Z.abs_N n) 0.

(** [__mul__] *)
Definition mul (a b : Decimal) : result Decimal :=
  match check_nans a b with
  | Some r => r
  | None =>
      let s := xorb (sign_of a) (sign_of b) in
      match a, b with
      | Fin _ c1 e1, Fin _ c2 e2 => fix_ s (c1 * c2) (e1 + e2)
      | Inf _, other | other, Inf _ =>
          if is_zero other then Raise InvalidOperation else Ok (Inf s)
      | _, _ => Raise InvalidOperation
      end
  end.

(** The signed coefficient, and the coefficient once the exponent is
    lowered to [e] ([e <= exp]). *)
Definition signed (s : bool) (c : N) : Z :=
  if s then - Z.of_N c else Z.of_N c.

Definition align (s : bool) (c : N) (exp e : Z) : Z :=
  signed s c * pow10 (exp - e).

(** [__add__]: the exact sum at the smaller exponent, then [_fix].  A sum
    that is zero is negative only when both operands are negative zeros. *)
Definition add (a b : Decimal) : result Decimal :=
  match check_nans a b with
  | Some r => r
  | None =>
      match a, b with
      | Fin s1 c1 e1, Fin s2 c2 e2 =>
          let e := Z.min e1 e2 in
          let z := align s1 c1 e1 e + align s2 c2 e2 e in
          if z =? 0 then fix_ (s1 && s2) 0 e
          else fix_ (z <? 0) (Z.abs_N z) e
      | Inf s1, Inf s2 =>
          if eqb s1 s2 then Ok (Inf s1) else Raise InvalidOperation
      | Inf s1, _ => Ok (Inf s1)
      | _, Inf s2 => Ok (Inf s2)
      | _, _ => Raise InvalidOperation
      end
  end.

(** The loop of [__truediv__] for an exact quotient: drop trailing zeros
    of the coefficient while the exponent is below the ideal one. *)
Fixpoint strip_to_ideal (n : nat) (coeff : Z) (exp : Z) : Z * Z :=
  match n with
  | O => (coeff, exp)
  | S n' =>
      if coeff mod 10 =? 0 then strip_to_ideal n' (coeff / 10) (exp + 1)
      else (coeff, exp)
  end.

(** [__truediv__] *)
Definition div (a b : Decimal) : result Decimal :=
  match check_nans a b with
  | Some r => r
  | None =>
      let s := xorb (sign_of a) (sign_of b) in
      match a, b with
      | Fin _ c1 e1, Fin _ c2 e2 =>
          if (c2 =? 0)%N then
            if (c1 =? 0)%N then Raise InvalidOperation else Raise DivisionByZero
          else if (c1 =? 0)%N then fix_ s 0 (e1 - e2)
          else
            let shift := ndigits c2 - ndigits c1 + prec + 1 in
            let exp := e1 - e2 - shift in
            let num := if 0 <=? shift then Z.of_N c1 * pow10 shift else Z.of_N c1 in
            let den := if 0 <=? shift then Z.of_N c2 else Z.of_N c2 * pow10 (- shift) in
            let coeff := num / den in
            let remainder := num mod den in
            if remainder =? 0 then
              let '(coeff, exp) := strip_to_ideal (Z.to_nat (e1 - e2 - exp)) coeff exp in
              fix_ s (Z.to_N coeff) exp
            else
              fix_ s (Z.to_N (if coeff mod 5 =? 0 then coeff + 1 else coeff)) exp
      | Inf _, Inf _ => Raise InvalidOperation
      | Inf _, _ => Ok (Inf s)
      | _, Inf _ => Ok (Fin s 0 Etiny)
      | _, _ => Raise InvalidOperation
      end
  end.

(** [_cmp] on numbers (no NaN): the order of the values. *)
Definition cmp (a b : Decimal) : comparison :=
  match a, b with
  | Fin s1 c1 e1, Fin s2 c2 e2 =>
      let e := Z.min e1 e2 in
      align s1 c1 e1 e ?= align s2 c2 e2 e
  | Inf s1, Inf s2 =>
      if eqb s1 s2 then Eq else if s1 then Lt else Gt
  | Inf s1, _ => if s1 then Lt else Gt
  | _, Inf s2 => if s2 then Gt else Lt
  | _, _ => Eq
  end.

Definition is_nan (d : Decimal) : bool :=
  match d with
  | NaN _ _ _ => true
  | _ => false
  end.

(** The ordering operators: a NaN operand raises ([_compare_check_nans]
    under the InvalidOperation trap). *)
Definition ordered (test : comparison -> bool) (a b : Decimal) : result bool :=
  if is_nan a || is_nan b then Raise InvalidOperation
  else Ok (test (cmp a b)).

Definition le : Decimal -> Decimal -> result bool :=
  ordered (fun c => match c with Gt => false | _ => true end).

Definition lt : Decimal -> Decimal -> result bool :=
  ordered (fun c => match c with Lt => true | _ => false end).

Definition gt : Decimal -> Decimal -> result bool :=
  ordered (fun c => match c with Gt => true | _ => false end).

(** [_rescale] of a finite number to the exponent [exp]: the coefficient
    is padded with zeros, or its low digits are rounded away. *)
Definition rescale_coef (rnd : rounding) (c : N) (e : Z) (exp : Z) : N :=
  if (c =? 0)%N then 0%N
  else if exp <=? e then Z.to_N (Z.of_N c * pow10 (e - exp))
  else round_coef rnd c (exp - e).

(** [quantize(exp, rounding)] *)
Definition quantize (rnd : rounding) (a q : Decimal) : result Decimal :=
  match check_nans a q with
  | Some r => r
  | None =>
      match a, q with
      | Fin s c e, Fin _ _ qe =>
          if negb ((Etiny <=? qe) && (qe <=? Emax)) then Raise InvalidOperation
          else if (c =? 0)%N then fix_ s 0 qe
          else if Emax <? adjusted c e then Raise InvalidOperation
          else if prec <? adjusted c e - qe + 1 then Raise InvalidOperation
          else
            let c' := rescale_coef rnd c e qe in
            if Emax <? adjusted c' qe then Raise InvalidOperation
            else if prec <? ndigits c' then Raise InvalidOperation
            else fix_ s c' qe
      | Inf _, Inf _ => Ok a
      | _, _ => Raise InvalidOperation
      end
  end.

(** [__eq__]: numeric equality; a quiet NaN equals nothing, a signaling
    one raises. *)
Definition eq (a b : Decimal) : result bool :=
  match a, b with
  | NaN _ true _, _ | _, NaN _ true _ => Raise InvalidOperation
  | NaN _ false _, _ | _, NaN _ false _ => Ok false
  | _, _ => Ok (match cmp a b with Eq => true | _ => false end)
  end.

(** The loop of [normalize()]: trailing zeros of the coefficient are
    dropped while the exponent is below [Emax]; [n] bounds the number of
    digits to look at. *)
Fixpoint strip_zeros (n : nat) (c : N) (e : Z) : N * Z :=
  match n with
  | O => (c, e)
  | S n' =>
      if (c mod 10 =? 0)%N && (e <? Emax) then strip_zeros n' (c / 10)%N (e + 1)
      else (c, e)
  end.

(** [normalize()]: the number is rounded to the context, a zero becomes
    [0E0], and trailing zeros of the coefficient are dropped. *)
Definition normalize (d : Decimal) : result Decimal :=
  match d with
  | NaN _ true _ => Raise InvalidOperation
  | NaN s false p => Ok (fix_nan s p)
  | Inf s => Ok (Inf s)
  | Fin s c e =>
      dup ← fix_ s c e;
      match dup with
      | Fin s' c' e' =>
          if (c' =? 0)%N then Ok (Fin s' 0 0)
          else
            let '(c'', e'') := strip_zeros (Z.to_nat (ndigits c')) c' e' in
            Ok (Fin s' c'' e'')
      | _ => Ok dup
      end
  end.

End Dec.

(** ** Strings

    A Python [str] is modelled as a [string] of code points below 256. *)

Module Str.

(** [str.isspace] on the code points below 256. *)
Definition is_space (a : ascii) : bool :=
  let n := N_of_ascii a in
  (((9 <=? n) && (n <=? 13)) || ((28 <=? n) && (n <=? 32))
   || (n =? 133) || (n =? 160))%N.

Fixpoint lstrip (s : string) : string :=
  match s with
  | EmptyString => EmptyString
  | String a s' => if is_space a then lstrip s' else s
  end.

Fixpoint rstrip (s : string) : string :=
  match s with
  | EmptyString => EmptyString
  | String a s' =>
      match rstrip s' with
      | EmptyString => if is_space a then EmptyString else String a EmptyString
      | r => String a r
      end
  end.

(** [s.strip()] *)
Definition strip (s : string) : string := rstrip (lstrip s).

(** [s.replace("_", "")] *)
Fixpoint remove_underscores (s : string) : string :=
  match s with
  | EmptyString => EmptyString
  | String a s' =>
      if Ascii.eqb a "_" then remove_underscores s'
      else String a (remove_underscores s')
  end.

(** ['0' * n] *)
Fixpoint zeros (n : nat) : string :=
  match n with
  | O => EmptyString
  | S n' => String "0" (zeros n')
  end.

(** [s[:n]] and [s[n:]] for [0 <= n]. *)
Fixpoint take (n : nat) (s : string) : string :=
  match n, s with
  | S n', String a s' => String a (take n' s')
  | _, _ => EmptyString
  end.

Fixpoint drop (n : nat) (s : string) : string :=
  match n, s with
  | S n', String _ s' => drop n' s'
  | _, _ => s
  end.

(** The longest prefix of digits, and what follows it. *)
Fixpoint span_digits (s : string) : string * string :=
  match s with
  | EmptyString => (EmptyString, EmptyString)
  | String a s' =>
      if Digits.is_digit a then
        let '(ds, rest) := span_digits s' in (String a ds, rest)
      else (EmptyString, s)
  end.

(** ASCII lower case, for the case-insensitive match. *)
Definition lower (a : ascii) : ascii :=
  let n := N_of_ascii a in
  if ((65 <=? n) && (n <=? 90))%N then ascii_of_N (n + 32) else a.

Fixpoint lower_string (s : string) : string :=
  match s with
  | EmptyString => EmptyString
  | String a s' => String (lower a) (lower_string s')
  end.

Definition is_empty (s : string) : bool :=
  match s with
  | EmptyString => true
  | _ => false
  end.

End Str.

(** ** Decimals from and to strings *)

Module DecStr.

Import Dec.

Definition sign_str (s : bool) : string := if s then "-" else "".

(** The digits, the point and the exponent [str] writes for a finite
    decimal of coefficient [c] and exponent [e]. *)
Definition finite_str (c : N) (e : Z) : string :=
  let digits := Digits.to_string c in
  let len := Z.of_nat (String.length digits) in
  let leftdigits := e + len in
  let dotplace :=
    if (e <=? 0) && (-6 <? leftdigits) then leftdigits else 1 in
  let intpart :=
    if dotplace <=? 0 then "0"
    else if len <=? dotplace then digits +:+ Str.zeros (Z.to_nat (dotplace - len))
    else Str.take (Z.to_nat dotplace) digits in
  let fracpart :=
    if dotplace <=? 0 then "." +:+ Str.zeros (Z.to_nat (- dotplace)) +:+ digits
    else if len <=? dotplace then ""
    else "." +:+ Str.drop (Z.to_nat dotplace) digits in
  let exp :=
    if leftdigits =? dotplace then ""
    else "E" +:+ Digits.Z_to_string_signed (leftdigits - dotplace) in
  intpart +:+ fracpart +:+ exp.

(** [str(d)]: the to-scientific-string conversion. *)
Definition to_str (d : Decimal) : string :=
  match d with
  | Inf s => sign_str s +:+ "Infinity"
  | NaN s sg p =>
      sign_str s +:+ (if sg then "sNaN" else "NaN")
        +:+ (if (p =? 0)%N then "" else Digits.to_string p)
  | Fin s c e => sign_str s +:+ finite_str c e
  end.

(** [format(d, 'f')]: fixed-point notation, no exponent. *)
Definition format_f (d : Decimal) : string :=
  match d with
  | Fin s c e =>
      let e := if (c =? 0)%N && (0 <? e) then 0 else e in
      let digits := Digits.to_string c in
      let len := Z.of_nat (String.length digits) in
      let dotplace := e + len in
      let intpart :=
        if dotplace <? 0 then "0"
        else if len <? dotplace then digits +:+ Str.zeros (Z.to_nat (dotplace - len))
        else if dotplace =? 0 then "0"
        else Str.take (Z.to_nat dotplace) digits in
      let fracpart :=
        if dotplace <? 0 then Str.zeros (Z.to_nat (- dotplace)) +:+ digits
        else if len <? dotplace then ""
        else Str.drop (Z.to_nat dotplace) digits in
      sign_str s +:+ intpart
        +:+ (if Str.is_empty fracpart then "" else "." +:+ fracpart)
  | _ => to_str d
  end.

(** The optional sign of a numeric string. *)
Definition parse_sign (s : string) : bool * string :=
  match s with
  | String "-" s' => (true, s')
  | String "+" s' => (false, s')
  | _ => (false, s)
  end.

(** The exponent part: nothing, or [E], an optional sign and at least
    one digit, up to the end of the string. *)
Definition parse_exp (s : string) : option Z :=
  match s with
  | EmptyString => Some 0
  | String a s' =>
      if Ascii.eqb (Str.lower a) "e" then
        let '(neg, s'') := parse_sign s' in
        let '(ds, rest) := Str.span_digits s'' in
        if Str.is_empty ds || negb (Str.is_empty rest) then None
        else
          let n := Z.of_N (Digits.of_string ds) in
          Some (if neg then - n else n)
      else None
  end.

(** A finite number: digits with an optional fraction (at least one
    digit in all) and an optional exponent. *)
Definition parse_finite (sign : bool) (s : string) : option Decimal :=
  let '(intpart, r1) := Str.span_digits s in
  let '(fracpart, r2) :=
    match r1 with
    | String "." r => Str.span_digits r
    | _ => (EmptyString, r1)
    end in
  if Str.is_empty intpart && Str.is_empty fracpart then None
  else
    match parse_exp r2 with
    | Some exp =>
        Some (Fin sign (Digits.of_string (intpart +:+ fracpart))
                (exp - Z.of_nat (String.length fracpart)))
    | None => None
    end.

(** [NaN] or [sNaN] followed by diagnostic digits only. *)
Definition parse_nan (sign : bool) (s : string) : option Decimal :=
  let '(sg, r) :=
    match s with
    | String a r => if Ascii.eqb (Str.lower a) "s" then (true, r) else (false, s)
    | _ => (false, s)
    end in
  if String.eqb (Str.lower_string (Str.take 3 r)) "nan"
     && Digits.all_digits (Str.drop 3 r)
  then Some (NaN sign sg (Digits.of_string (Str.drop 3 r)))
  else None.

Definition parse_inf (sign : bool) (s : string) : option Decimal :=
  let l := Str.lower_string s in
  if String.eqb l "inf" || String.eqb l "infinity" then Some (Inf sign) else None.

(** [Decimal(s)] for a string: surrounding whitespace and underscores are
    dropped, then the string must be a number, an infinity or a NaN. *)
Definition of_str (s : string) : result Decimal :=
  let '(sign, r) := parse_sign (Str.remove_underscores (Str.strip s)) in
  match parse_finite sign r with
  | Some d => Ok d
  | None =>
      match parse_inf sign r with
      | Some d => Ok d
      | None =>
          match parse_nan sign r with
          | Some d => Ok d
          | None => Raise InvalidOperation
          end
      end
  end.

(** No whitespace and no underscore: what [strip] and [replace("_", "")]
    leave alone. *)
Fixpoint clean (s : string) : bool :=
  match s with
  | EmptyString => true
  | String a s' => negb (Str.is_space a) && negb (Ascii.eqb a "_") && clean s'
  end.

(** A string that does not begin with a digit. *)
Definition starts_nondigit (s : string) : Prop :=
  match s with
  | EmptyString => True
  | String a _ => Digits.is_digit a = false
  end.

End DecStr.

(** ** model.py *)

(** A numeric argument of the [Ingredient] constructor: an [int], a
    [float] (carried as the string [str()] gives for it, the only thing
    the code does with a float), a [str], or a [Decimal]. *)
Inductive num : Type :=
| NInt (n : Z)
| NFloat (repr : string)
| NStr (s : string)
| NDec (d : Decimal).

Record Ingredient : Type := mkIngredient {
  i_name : string;
  i_quantity : Decimal;
  i_unit : string;
  i_price_per_unit : Decimal
}.

#[global] Instance Ingredient_eq_dec : EqDecision Ingredient.
Proof. solve_decision. Defined.

Record Recipe : Type := mkRecipe {
  r_name : string;
  r_ingredients : list Ingredient;
  r_servings : Z
}.

(** The mapping [Recipe.to_dict] builds and [Recipe.from_dict] reads:
    its three keys hold a string, an int and a list of ingredient
    mappings; a field is [None] when the key is absent. *)
Record RecipeDict : Type := mkRecipeDict {
  d_name : option string;
  d_servings : option Z;
  d_ingredients : option (list (gmap string string))
}.

Module Model.

(** [not s or not s.strip()] *)
Definition blank (s : string) : bool :=
  Str.is_empty s || Str.is_empty (Str.strip s).

(** The normalisation of [__post_init__]: [Decimal(str(x))] for an
    int, a float or a str, a [Decimal] as it is. *)
Definition normalize (x : num) : result Decimal :=
  match x with
  | NInt n => DecStr.of_str (Digits.Z_to_string n)
  | NFloat repr => DecStr.of_str repr
  | NStr s => DecStr.of_str s
  | NDec d => Ok d
  end.

(** [Ingredient(name, quantity, unit, price_per_unit)]: the generated
    [__init__] followed by [__post_init__]. *)
Definition Ingredient_init (name : string) (quantity : num) (unit : string)
    (price_per_unit : num) : result Ingredient :=
  q ← normalize quantity;
  p ← normalize price_per_unit;
  if blank name then Raise (ValueError "Ingredient name must be non-empty")
  else
    q_le_0 ← Dec.le q (Dec.of_int 0);
    if (q_le_0 : bool) then Raise (ValueError "Ingredient quantity must be > 0")
    else
      p_lt_0 ← Dec.lt p (Dec.of_int 0);
      if (p_lt_0 : bool) then Raise (ValueError "Ingredient price_per_unit must be >= 0")
      else Ok (mkIngredient name q unit p).

(** [d[key]] *)
Definition getitem (d : gmap string string) (key : string) : result string :=
  match d !! key with
  | Some v => Ok v
  | None => Raise (KeyError key)
  end.

(** [Ingredient.to_dict] *)
Definition Ingredient_to_dict (i : Ingredient) : gmap string string :=
  <["name" := i_name i]>
    (<["quantity" := DecStr.to_str (i_quantity i)]>
      (<["unit" := i_unit i]>
        (<["price_per_unit" := DecStr.to_str (i_price_per_unit i)]> ∅))).

(** [Ingredient.from_dict]; the arguments are evaluated left to right. *)
Definition Ingredient_from_dict (d : gmap string string) : result Ingredient :=
  name ← getitem d "name";
  qs ← getitem d "quantity";
  quantity ← DecStr.of_str qs;
  let unit := default "" (d !! "unit") in
  ps ← getitem d "price_per_unit";
  price_per_unit ← DecStr.of_str ps;
  Ingredient_init name (NDec quantity) unit (NDec price_per_unit).

(** [Recipe.validate]; the ingredients of a [Recipe] are [Ingredient]s by
    their type, so the loop over them raises nothing. *)
Definition validate (r : Recipe) : result () :=
  if blank (r_name r) then Raise (ValueError "Recipe name is required")
  else if r_servings r <? 1 then Raise (ValueError "Servings must be >= 1")
  else Ok ().

(** [Recipe.to_dict] *)
Definition to_dict (r : Recipe) : RecipeDict :=
  {| d_name := Some (r_name r);
     d_servings := Some (r_servings r);
     d_ingredients := Some (Ingredient_to_dict <$> r_ingredients r) |}.

(** The list comprehension of [Recipe.from_dict]: the first ingredient
    that fails to load fails the whole load. *)
Fixpoint load_ingredients (l : list (gmap string string)) : result (list Ingredient) :=
  match l with
  | [] => Ok []
  | d :: l' =>
      i ← Ingredient_from_dict d;
      rest ← load_ingredients l';
      Ok (i :: rest)
  end.

(** [Recipe.from_dict] *)
Definition from_dict (d : RecipeDict) : result Recipe :=
  ings ← load_ingredients (default [] (d_ingredients d));
  Ok (mkRecipe (default "" (d_name d)) ings (default 1 (d_servings d))).

End Model.

(** ** calc.py *)

Module Calc.

Definition MONEY_QUANT : Decimal := Fin false 1 (-2).

Definition _quantize_money (d : Decimal) : result Decimal :=
  Dec.quantize ROUND_HALF_UP d MONEY_QUANT.

(** The loop of [calculate_total_cost]: [total += q * p] for each
    ingredient in turn. *)
Fixpoint sum_costs (total : Decimal) (l : list Ingredient) : result Decimal :=
  match l with
  | [] => Ok total
  | ing :: l' =>
      qp ← Dec.mul (i_quantity ing) (i_price_per_unit ing);
      total' ← Dec.add total qp;
      sum_costs total' l'
  end.

Definition calculate_total_cost (recipe : Recipe) : result Decimal :=
  total ← sum_costs (Fin false 0 0) (r_ingredients recipe);
  _quantize_money total.

Definition calculate_cost_per_serving (recipe : Recipe) : result Decimal :=
  if r_servings recipe <=? 0 then Raise (ValueError "Servings must be >= 1")
  else
    total ← calculate_total_cost recipe;
    per ← Dec.div total (Dec.of_int (r_servings recipe));
    _quantize_money per.

End Calc.

(** ** cost_dialog.py: the calculation paths

    The table is a list of rows; a row holds the texts of its five cell
    widgets (every row [add_row] creates has all five). *)

Record Row : Type := mkRow {
  name_text : string;
  row_price_text : string;
  qty_text : string;
  unit_text : string;
  ppu_text : string
}.

Record Dialog : Type := mkDialog {
  name_edit : string;
  table : list Row;
  debug_label : string;
  ppu_sum_label : string
}.

Module CostDialog.

(** [s or d] on strings. *)
Definition str_or (s d : string) : string :=
  if Str.is_empty s then d else s.

(** [_parse_decimal] *)
Definition _parse_decimal (text : string) : result Decimal :=
  match DecStr.of_str (Str.strip text) with
  | Ok d => Ok d
  | Raise _ => Raise (ValueError ("Invalid numeric value: " +:+ text))
  end.

(** [_format_ppu]: two decimals, ROUND_HALF_UP; [str(value)] when the
    quantize raises. *)
Definition _format_ppu (value : Decimal) : string :=
  match Dec.quantize ROUND_HALF_UP value (Fin false 1 (-2)) with
  | Ok out => DecStr.format_f out
  | Raise _ => DecStr.to_str value
  end.

(** [(row_price * (unit_spec / qty)).quantize(Decimal("0.000001"))], the
    expression of [_update_price_per_unit_for_row] (and of [add_row]);
    the quantize rounds as the context does. *)
Definition derive_ppu (row_price qty unit_spec : Decimal) : result Decimal :=
  ratio ← Dec.div unit_spec qty;
  product ← Dec.mul row_price ratio;
  Dec.quantize Dec.ctx_rounding product (Fin false 1 (-6)).

(** [Decimal(text)] under [try ... except Exception: None]. *)
Definition try_decimal (text : string) : option Decimal :=
  match DecStr.of_str text with
  | Ok d => Some d
  | Raise _ => None
  end.

(** The texts [_update_price_per_unit_for_row] reads from a row. *)
Definition row_price_stripped (row : Row) : string :=
  if Str.is_empty (row_price_text row) then "" else Str.strip (row_price_text row).

Definition qty_stripped (row : Row) : string :=
  if Str.is_empty (qty_text row) then "0" else Str.strip (qty_text row).

Definition unit_spec_stripped (row : Row) : string :=
  if Str.is_empty (unit_text row) then "0" else Str.strip (unit_text row).

(** The numbers it parses from them: no row price when the text is empty
    or does not parse, zero for a quantity or unit spec that does not
    parse. *)
Definition row_price_of (row : Row) : option Decimal :=
  if Str.is_empty (row_price_stripped row) then None
  else try_decimal (row_price_stripped row).

Definition qty_of (row : Row) : Decimal :=
  default (Fin false 0 0) (try_decimal (qty_stripped row)).

Definition unit_spec_of (row : Row) : Decimal :=
  default (Fin false 0 0) (try_decimal (unit_spec_stripped row)).

(** The body of the [try] of [_update_price_per_unit_for_row]: the text
    to set in the price-per-unit widget ([None]: the widget is left as it
    is) and the text of the debug label. *)
Definition ppu_update (r : nat) (row : Row) : result (option (string * string)) :=
  let debug ppu :=
    "r" +:+ Digits.Z_to_string (Z.of_nat r)
      +:+ ": price=" +:+ row_price_stripped row
      +:+ " qty=" +:+ qty_stripped row
      +:+ " spec=" +:+ unit_spec_stripped row
      +:+ " ppu=" +:+ ppu in
  let otherwise :=
    if Str.is_empty (row_price_stripped row) then None
    else Some ("", debug "") in
  match row_price_of row with
  | None => Ok otherwise
  | Some row_price =>
      qty_pos ← Dec.gt (qty_of row) (Dec.of_int 0);
      if (qty_pos : bool) then
        unit_pos ← Dec.gt (unit_spec_of row) (Dec.of_int 0);
        if (unit_pos : bool) then
          ppu ← derive_ppu row_price (qty_of row) (unit_spec_of row);
          let ppu_str := _format_ppu ppu in
          Ok (Some (ppu_str, debug ppu_str))
        else Ok otherwise
      else Ok otherwise
  end.

Definition set_ppu_text (row : Row) (t : string) : Row :=
  mkRow (name_text row) (row_price_text row) (qty_text row) (unit_text row) t.

(** [_update_price_per_unit_for_row] on the row itself: any exception
    leaves the row as it is. *)
Definition _update_price_per_unit_for_row (r : nat) (row : Row) : Row :=
  match ppu_update r row with
  | Ok (Some (t, _)) => set_ppu_text row t
  | _ => row
  end.

(** The price per unit [get_recipe] gives a row whose quantity is [qty]:
    the row price over the quantity when a row price parses and the
    quantity is positive, the displayed price per unit otherwise. *)
Definition recipe_price (row : Row) (qty : Decimal) : result Decimal :=
  let row_price_val :=
    if Str.is_empty (Str.strip (row_price_text row)) then None
    else try_decimal (Str.strip (row_price_text row)) in
  let displayed := _parse_decimal (str_or (ppu_text row) "0") in
  match row_price_val with
  | Some v =>
      qty_pos ← Dec.gt qty (Dec.of_int 0);
      if (qty_pos : bool) then Dec.div v qty else displayed
  | None => displayed
  end.

(** The body of the loop of [get_recipe] for a row that is not skipped. *)
Definition row_ingredient (row : Row) : result Ingredient :=
  let ing_name := Str.strip (name_text row) in
  qty ← _parse_decimal (str_or (qty_text row) "0");
  let unit := Str.strip (str_or (unit_text row) "") in
  price ← recipe_price row qty;
  Model.Ingredient_init ing_name (NDec qty) unit (NDec price).

(** The loop of [get_recipe]: rows with a blank name are skipped. *)
Fixpoint row_ingredients (rows : list Row) : result (list Ingredient) :=
  match rows with
  | [] => Ok []
  | row :: rows' =>
      if Str.is_empty (Str.strip (name_text row)) then row_ingredients rows'
      else
        ingredient ← row_ingredient row;
        rest ← row_ingredients rows';
        Ok (ingredient :: rest)
  end.

Definition get_recipe (dlg : Dialog) : result Recipe :=
  ingredients ← row_ingredients (table dlg);
  Ok (mkRecipe (Str.strip (name_edit dlg)) ingredients 1).

End CostDialog.

(** ** Ingredients as objects

    A dataclass instance is a mutable object: [__init__] stores the
    arguments in its fields and [__post_init__] assigns the normalised
    decimals over them.  Here the same operations run on a store of
    ingredient objects, a recipe holding references into it; this is
    the model in which "no operation changes an existing ingredient" is
    a statement. *)

Module Store.

Record IngredientObj : Type := mkObj {
  o_name : string;
  o_quantity : num;
  o_unit : string;
  o_price_per_unit : num
}.

(** The store: the object at reference [l] is the [l]-th of the list. *)
Abbreviation heap := (list IngredientObj).

(** A recipe whose ingredients are references. *)
Record RecipeRef : Type := mkRecipeRef {
  rr_name : string;
  rr_ingredients : list nat;
  rr_servings : Z
}.

(** A computation reads and updates the store, and returns or raises;
    an exception leaves the store as it was when it was raised. *)
Definition M (A : Type) : Type := heap -> result A * heap.

Definition ret {A} (a : A) : M A := fun h => (Ok a, h).

Definition bind {A B} (m : M A) (f : A -> M B) : M B :=
  fun h =>
    match m h with
    | (Ok a, h') => f a h'
    | (Raise e, h') => (Raise e, h')
    end.

Definition lift {A} (r : result A) : M A := fun h => (r, h).

#[global] Instance M_ret : MRet M := @ret.

#[global] Instance M_bind : MBind M := fun A B f m => bind m f.

(** A new object, after all the others. *)
Definition alloc (o : IngredientObj) : M nat :=
  fun h => (Ok (length h), h ++ [o]).

(** Reading a field of the object at [l].  A reference always points
    into the store; for a number that is not one the read raises. *)
Definition read (l : nat) : M IngredientObj :=
  fun h =>
    match h !! l with
    | Some o => (Ok o, h)
    | None => (Raise (KeyError "dangling reference"), h)
    end.

(** [self.f = v] *)
Definition write (l : nat) (o : IngredientObj) : M () :=
  fun h => (Ok (), <[l := o]> h).

(** The decimal a numeric field holds once [__post_init__] has
    normalised it. *)
Definition field_decimal (x : num) : M Decimal :=
  match x with
  | NDec d => ret d
  | _ => lift (Model.normalize x)
  end.

(** [isinstance(x, (int, float, str))] *)
Definition needs_normalizing (x : num) : bool :=
  match x with
  | NDec _ => false
  | _ => true
  end.

(** [__post_init__] on the object at [self]. *)
Definition __post_init__ (self : nat) : M () :=
  o ← read self;
  _ ← (if needs_normalizing (o_quantity o) then
         q ← lift (Model.normalize (o_quantity o));
         write self (mkObj (o_name o) (NDec q) (o_unit o) (o_price_per_unit o))
       else ret ());
  o ← read self;
  _ ← (if needs_normalizing (o_price_per_unit o) then
         p ← lift (Model.normalize (o_price_per_unit o));
         write self (mkObj (o_name o) (o_quantity o) (o_unit o) (NDec p))
       else ret ());
  o ← read self;
  if Model.blank (o_name o) then lift (Raise (ValueError "Ingredient name must be non-empty"))
  else
    q ← field_decimal (o_quantity o);
    q_le_0 ← lift (Dec.le q (Dec.of_int 0));
    if (q_le_0 : bool) then lift (Raise (ValueError "Ingredient quantity must be > 0"))
    else
      p ← field_decimal (o_price_per_unit o);
      p_lt_0 ← lift (Dec.lt p (Dec.of_int 0));
      if (p_lt_0 : bool) then lift (Raise (ValueError "Ingredient price_per_unit must be >= 0"))
      else ret ().

(** [Ingredient(name, quantity, unit, price_per_unit)] *)
Definition Ingredient_new (name : string) (quantity : num) (unit : string)
    (price_per_unit : num) : M nat :=
  self ← alloc (mkObj name quantity unit price_per_unit);
  _ ← __post_init__ self;
  ret self.

(** The ingredient value an object holds. *)
Definition load (l : nat) : M Ingredient :=
  o ← read l;
  q ← field_decimal (o_quantity o);
  p ← field_decimal (o_price_per_unit o);
  ret (mkIngredient (o_name o) q (o_unit o) p).

(** [Ingredient.to_dict] *)
Definition Ingredient_to_dict (self : nat) : M (gmap string string) :=
  i ← load self;
  ret (Model.Ingredient_to_dict i).

(** [Ingredient.from_dict] *)
Definition Ingredient_from_dict (d : gmap string string) : M nat :=
  name ← lift (Model.getitem d "name");
  qs ← lift (Model.getitem d "quantity");
  quantity ← lift (DecStr.of_str qs);
  ps ← lift (Model.getitem d "price_per_unit");
  price_per_unit ← lift (DecStr.of_str ps);
  Ingredient_new name (NDec quantity) (default "" (d !! "unit")) (NDec price_per_unit).

Fixpoint mapM {A B} (f : A -> M B) (l : list A) : M (list B) :=
  match l with
  | [] => ret []
  | a :: l' =>
      b ← f a;
      bs ← mapM f l';
      ret (b :: bs)
  end.

(** The ingredient values of a recipe, read through its references. *)
Definition load_recipe (r : RecipeRef) : M Recipe :=
  ings ← mapM load (rr_ingredients r);
  ret (mkRecipe (rr_name r) ings (rr_servings r)).

Definition validate (r : RecipeRef) : M () :=
  lift (Model.validate (mkRecipe (rr_name r) [] (rr_servings r))).

Definition to_dict (r : RecipeRef) : M RecipeDict :=
  ds ← mapM Ingredient_to_dict (rr_ingredients r);
  ret (mkRecipeDict (Some (rr_name r)) (Some (rr_servings r)) (Some ds)).

Definition from_dict (d : RecipeDict) : M RecipeRef :=
  ings ← mapM Ingredient_from_dict (default [] (d_ingredients d));
  ret (mkRecipeRef (default "" (d_name d)) ings (default 1 (d_servings d))).

(** The loop of [calculate_total_cost], reading each ingredient. *)
Fixpoint sum_costs (total : Decimal) (l : list nat) : M Decimal :=
  match l with
  | [] => ret total
  | ing :: l' =>
      i ← load ing;
      qp ← lift (Dec.mul (i_quantity i) (i_price_per_unit i));
      total' ← lift (Dec.add total qp);
      sum_costs total' l'
  end.

Definition calculate_total_cost (r : RecipeRef) : M Decimal :=
  total ← sum_costs (Fin false 0 0) (rr_ingredients r);
  lift (Calc._quantize_money total).

Definition calculate_cost_per_serving (r : RecipeRef) : M Decimal :=
  if rr_servings r <=? 0 then lift (Raise (ValueError "Servings must be >= 1"))
  else
    total ← calculate_total_cost r;
    per ← lift (Dec.div total (Dec.of_int (rr_servings r)));
    lift (Calc._quantize_money per).

(** The loop of [get_recipe], constructing an ingredient per row. *)
Fixpoint row_ingredients (rows : list Row) : M (list nat) :=
  match rows with
  | [] => ret []
  | row :: rows' =>
      if Str.is_empty (Str.strip (name_text row)) then row_ingredients rows'
      else
        qty ← lift (CostDialog._parse_decimal (CostDialog.str_or (qty_text row) "0"));
        price ← lift (CostDialog.recipe_price row qty);
        ingredient ← Ingredient_new (Str.strip (name_text row)) (NDec qty)
                       (Str.strip (CostDialog.str_or (unit_text row) "")) (NDec price);
        rest ← row_ingredients rows';
        ret (ingredient :: rest)
  end.

Definition get_recipe (dlg : Dialog) : M RecipeRef :=
  ingredients ← row_ingredients (table dlg);
  ret (mkRecipeRef (Str.strip (name_edit dlg)) ingredients 1).

(** The operations of the system that create or are given ingredients. *)
Inductive call : Type :=
| CallIngredient (name : string) (quantity : num) (unit : string) (price_per_unit : num)
| CallIngredientToDict (self : nat)
| CallIngredientFromDict (d : gmap string string)
| CallValidate (r : RecipeRef)
| CallToDict (r : RecipeRef)
| CallFromDict (d : RecipeDict)
| CallTotalCost (r : RecipeRef)
| CallCostPerServing (r : RecipeRef)
| CallGetRecipe (dlg : Dialog).

(** The store a call leaves. *)
Definition exec (c : call) (h : heap) : heap :=
  match c with
  | CallIngredient name quantity unit price => (Ingredient_new name quantity unit price h).2
  | CallIngredientToDict self => (Ingredient_to_dict self h).2
  | CallIngredientFromDict d => (Ingredient_from_dict d h).2
  | CallValidate r => (validate r h).2
  | CallToDict r => (to_dict r h).2
  | CallFromDict d => (from_dict d h).2
  | CallTotalCost r => (calculate_total_cost r h).2
  | CallCostPerServing r => (calculate_cost_per_serving r h).2
  | CallGetRecipe dlg => (get_recipe dlg h).2
  end.

Definition exec_all (cs : list call) (h : heap) : heap :=
  fold_left (fun h c => exec c h) cs h.

(** A computation keeps every object of the store it is given. *)
Definition preserves {A} (m : M A) : Prop :=
  forall h l o, h !! l = Some o -> (m h).2 !! l = Some o.

(** A computation changes at most the object at [l0]. *)
Definition touches_only {A} (l0 : nat) (m : M A) : Prop :=
  forall h, length (m h).2 = length h
    /\ forall l, l <> l0 -> (m h).2 !! l = h !! l.

End Store.

(** ** cost_dialog.py: the operations on the table

    Setting the text of a row-price, quantity or unit-spec widget to a
    text it does not have emits [textChanged], which runs
    [_update_all_price_per_unit]; setting the text of a price-per-unit
    widget runs [_update_ppu_sum].  The widgets of a new row get their
    texts before the signals are connected. *)

(** What [on_calculate] shows in its warning box. *)
Inductive warning : Type :=
| AddIngredient
| Failed (e : exn).

Module Ui.

Import CostDialog.

Definition COL_NAME : Z := 0.
Definition COL_ROW_PRICE : Z := 1.
Definition COL_QTY : Z := 2.
Definition COL_UNIT : Z := 3.
Definition COL_PRICE_PER_UNIT : Z := 4.

Definition set_table (dlg : Dialog) (rows : list Row) : Dialog :=
  mkDialog (name_edit dlg) rows (debug_label dlg) (ppu_sum_label dlg).

(** The body of the loop of [_update_ppu_sum]: an entry that is blank,
    that is not a number, or whose addition raises, is passed over. *)
Definition add_ppu (total : Decimal) (row : Row) : Decimal :=
  if Str.is_empty (Str.strip (ppu_text row)) then total
  else try_except (DecStr.of_str (ppu_text row) ≫= Dec.add total) total.

Definition ppu_sum (rows : list Row) : Decimal :=
  foldl add_ppu (Fin false 0 0) rows.

Definition ppu_sum_text (rows : list Row) : string :=
  "PPU sum: " +:+ _format_ppu (ppu_sum rows).

(** [_update_ppu_sum] *)
Definition _update_ppu_sum (dlg : Dialog) : Dialog :=
  mkDialog (name_edit dlg) (table dlg) (debug_label dlg) (ppu_sum_text (table dlg)).

(** The loop of [_update_all_price_per_unit] from row [r] on: each row is
    updated, and [_set_debug] leaves the text of the last update in the
    debug label. *)
Fixpoint sweep (r : nat) (rows : list Row) (debug : string) : list Row * string :=
  match rows with
  | [] => ([], debug)
  | row :: rows' =>
      let debug' :=
        match ppu_update r row with
        | Ok (Some (_, d)) => d
        | _ => debug
        end in
      let '(rows'', d) := sweep (S r) rows' debug' in
      (_update_price_per_unit_for_row r row :: rows'', d)
  end.

(** [_update_all_price_per_unit] *)
Definition _update_all_price_per_unit (dlg : Dialog) : Dialog :=
  let '(rows, debug) := sweep 0 (table dlg) (debug_label dlg) in
  mkDialog (name_edit dlg) rows debug (ppu_sum_text rows).

(** [_focus_next]: the cell whose widget is given the focus, if any;
    [cellWidget] is [None] outside the table. *)
Definition _focus_next (row col : Z) (dlg : Dialog) : option (Z * Z) :=
  let next_col := col + 1 in
  let '(next_row, next_col) :=
    if COL_UNIT <? next_col then (row + 1, COL_NAME) else (row, next_col) in
  if Z.of_nat (length (table dlg)) <=? next_row then None
  else if (0 <=? next_row) && (0 <=? next_col) then Some (next_row, next_col)
  else None.

(** The price per unit [add_row] computes from the previous row, under
    its [try]: [active] is the text the probe of the focused editor
    found for the row price of the previous row, if it found one. *)
Definition copied_ppu (active : option string) (prev : Row) : option Decimal :=
  let rp_text :=
    match active with
    | Some t => if Str.is_empty t then Str.strip (row_price_text prev) else t
    | None => Str.strip (row_price_text prev)
    end in
  if Str.is_empty rp_text then None
  else
    try_except
      (rp ← DecStr.of_str rp_text;
       qty_val ← DecStr.of_str (str_or (qty_text prev) "0");
       unit_spec_val ← DecStr.of_str (str_or (unit_text prev) "0");
       qty_pos ← Dec.gt qty_val (Dec.of_int 0);
       if (qty_pos : bool) then
         unit_pos ← Dec.gt unit_spec_val (Dec.of_int 0);
         if (unit_pos : bool) then
           ppu_copy ← derive_ppu rp qty_val unit_spec_val;
           Ok (Some ppu_copy)
         else Ok None
       else Ok None)
      None.

(** The rows before the new one and the price-per-unit text of the new
    row, as [add_row] prepares them. *)
Definition prefill (price : string) (copy_ppu : bool) (active : option string)
    (rows : list Row) : result (list Row * string) :=
  match last rows with
  | Some prev =>
      if copy_ppu && Str.is_empty price then
        match copied_ppu active prev with
        | Some ppu_copy =>
            let rows' :=
              <[pred (length rows) := set_ppu_text prev (_format_ppu ppu_copy)]> rows in
            n ← Dec.normalize ppu_copy;
            Ok (rows', DecStr.format_f n)
        | None =>
            Ok (rows,
                if Str.is_empty (Str.strip (ppu_text prev)) then price
                else ppu_text prev)
        end
      else Ok (rows, price)
  | None => Ok (rows, price)
  end.

(** [add_row] *)
Definition add_row (name qty unit price : string) (copy_ppu : bool)
    (active : option string) (dlg : Dialog) : result Dialog :=
  '(rows, price') ← prefill price copy_ppu active (table dlg);
  let rows' := rows ++ [mkRow name "" qty unit price'] in
  Ok (mkDialog (name_edit dlg) rows' (debug_label dlg) (ppu_sum_text rows')).

(** [sorted(set(rows), reverse=True)] *)
Definition descending (rows : list nat) : list nat :=
  merge_sort (flip le) (remove_dups rows).

(** [remove_selected_row]: [selected] lists the rows of the selected
    indexes. *)
Definition remove_selected_row (selected : list nat) (dlg : Dialog) : Dialog :=
  _update_all_price_per_unit
    (set_table dlg (foldl (fun rows r => delete r rows) (table dlg) (descending selected))).

(** [eventFilter] on Enter in the line edit of the cell [(row, col)]: the
    dialog it leaves and the cell that has the focus asked for. *)
Definition on_enter (row col : nat) (dlg : Dialog) : result (Dialog * option (Z * Z)) :=
  dlg' ←
    (if (Z.of_nat col =? COL_UNIT) && (Z.of_nat row =? Z.of_nat (length (table dlg)) - 1)
     then add_row "" "" "" "" false None dlg
     else Ok dlg);
  Ok (dlg', _focus_next (Z.of_nat row) (Z.of_nat col) dlg').

(** [validate] *)
Definition validate (dlg : Dialog) : result () :=
  recipe ← get_recipe dlg;
  Model.validate recipe.

(** [accept]: whether the dialog is accepted, and the exception shown in
    the warning box when it is not. *)
Definition accept (dlg : Dialog) : bool * option exn :=
  match validate dlg with
  | Ok _ => (true, None)
  | Raise e => (false, Some e)
  end.

(** [setText] on the row-price widget of row [r]. *)
Definition set_row_price (r : nat) (t : string) (dlg : Dialog) : Dialog :=
  match table dlg !! r with
  | Some row =>
      if String.eqb (row_price_text row) t then dlg
      else
        _update_all_price_per_unit
          (set_table dlg
             (<[r := mkRow (name_text row) t (qty_text row) (unit_text row) (ppu_text row)]>
                (table dlg)))
  | None => dlg
  end.

(** The row cost [on_calculate] computes for a row: the row price the
    user gave, in cents ([0.00] when it is not a number), or quantity
    times price per unit, in cents. *)
Definition displayed_row_cost (row : Row) : result Decimal :=
  let qty := default (Fin false 0 0) (try_decimal (str_or (qty_text row) "0")) in
  let ppu := default (Fin false 0 0) (try_decimal (str_or (ppu_text row) "0")) in
  if Str.is_empty (row_price_stripped row) then
    product ← Dec.mul qty ppu;
    Calc._quantize_money product
  else
    Ok (try_except (DecStr.of_str (row_price_stripped row) ≫= Calc._quantize_money)
          (Fin false 0 (-2))).

(** The loop of [on_calculate] over the rows [rs]: the first exception
    ends it, with the rows before it filled. *)
Fixpoint fill_row_prices (rs : list nat) (dlg : Dialog) : Dialog * option warning :=
  match rs with
  | [] => (dlg, None)
  | r :: rs' =>
      match table dlg !! r with
      | None => fill_row_prices rs' dlg
      | Some row =>
          if Str.is_empty (Str.strip (name_text row)) then fill_row_prices rs' dlg
          else
            match displayed_row_cost row with
            | Raise e => (dlg, Some (Failed e))
            | Ok cost =>
                if Str.is_empty (row_price_stripped row)
                then fill_row_prices rs' (set_row_price r (DecStr.to_str cost) dlg)
                else fill_row_prices rs' dlg
            end
      end
  end.

(** [on_calculate]: the dialog it leaves and the warning it shows. *)
Definition on_calculate (dlg : Dialog) : Dialog * option warning :=
  match get_recipe dlg with
  | Raise e => (dlg, Some (Failed e))
  | Ok recipe =>
      if bool_decide (r_ingredients recipe = []) then (dlg, Some AddIngredient)
      else
        match
          Model.validate recipe;;
          Calc.calculate_total_cost recipe;;
          Calc.calculate_cost_per_serving recipe
        with
        | Raise e => (dlg, Some (Failed e))
        | Ok _ => fill_row_prices (seq 0 (length (table dlg))) dlg
        end
  end.

End Ui.

(** * Specification-side definitions

    What the claims speak of, in exact arithmetic: the rational value of
    a decimal, rounding half up to whole cents, and sums and products
    without the 28-digit rounding of the context. *)

Module Spec.

(** The rational value of a finite decimal (a special value counts as
    [0]; the statements that use it assume finiteness). *)
Definition Qval (d : Decimal) : Q :=
  match d with
  | Fin s c e => (inject_Z (Dec.signed s c) * (10 # 1) ^ e)%Q
  | _ => 0%Q
  end.

Definition finite (d : Decimal) : Prop :=
  match d with
  | Fin _ _ _ => True
  | _ => False
  end.

(** The sign of a number: [-1], [0] or [1] ([0] for a NaN). *)
Definition signum (d : Decimal) : Z :=
  match d with
  | Fin s c _ => Z.sgn (Dec.signed s c)
  | Inf s => if s then -1 else 1
  | NaN _ _ _ => 0
  end.

(** Rounding to the nearest integer, ties away from zero
    (ROUND_HALF_UP). *)
Definition round_half_up (x : Q) : Z :=
  if Qle_bool 0 x then Qfloor (x + (1 # 2))%Q else - Qfloor (- x + (1 # 2))%Q.

(** [x] in whole cents, rounded half up: [round2(x) = cents x / 100]. *)
Definition cents (x : Q) : Z := round_half_up (100 * x)%Q.

(** The exact sum of [quantity * price_per_unit] over the ingredients. *)
Definition exact_total (l : list Ingredient) : Q :=
  fold_right (fun i acc => (Qval (i_quantity i) * Qval (i_price_per_unit i) + acc)%Q) 0%Q l.

(** A string of whitespace only (the empty string included). *)
Fixpoint whitespace_only (s : string) : bool :=
  match s with
  | EmptyString => true
  | String a s' => Str.is_space a && whitespace_only s'
  end.

(** The construction invariant of an [Ingredient]: a name that is not
    blank, a quantity above zero, a price per unit that is a number and
    not below zero. *)
Definition valid_ingredient (i : Ingredient) : Prop :=
  whitespace_only (i_name i) = false
  /\ 0 < signum (i_quantity i)
  /\ Dec.is_nan (i_price_per_unit i) = false
  /\ 0 <= signum (i_price_per_unit i).

(** A persisted ingredient that lacks one of the keys [from_dict]
    subscripts, or whose quantity or price is not a numeric string. *)
Definition malformed (d : gmap string string) : Prop :=
  d !! "name" = None
  \/ d !! "quantity" = None
  \/ d !! "price_per_unit" = None
  \/ (exists s e, d !! "quantity" = Some s /\ DecStr.of_str s = Raise e)
  \/ (exists s e, d !! "price_per_unit" = Some s /\ DecStr.of_str s = Raise e).

(** A number that is not below zero. *)
Definition nonneg (d : Decimal) : Prop :=
  Dec.is_nan d = false /\ 0 <= signum d.

(** The exact product and the exact sum of two finite decimals, at the
    exponents the operations of the decimal module give them. *)
Definition xmul (a b : Decimal) : Decimal :=
  match a, b with
  | Fin s1 c1 e1, Fin s2 c2 e2 => Fin (xorb s1 s2) (c1 * c2) (e1 + e2)
  | _, _ => NaN false false 0
  end.

Definition xadd (a b : Decimal) : Decimal :=
  match a, b with
  | Fin s1 c1 e1, Fin s2 c2 e2 =>
      let e := Z.min e1 e2 in
      let z := Dec.align s1 c1 e1 e + Dec.align s2 c2 e2 e in
      if z =? 0 then Fin (s1 && s2) 0 e else Fin (z <? 0) (Z.abs_N z) e
  | _, _ => NaN false false 0
  end.

(** The running sum of the loop of [calculate_total_cost], without
    rounding. *)
Definition xsum (total : Decimal) (l : list Ingredient) : Decimal :=
  fold_left (fun t i => xadd t (xmul (i_quantity i) (i_price_per_unit i))) l total.

(** A finite decimal the context holds without rounding: at most 28
    digits, the exponent within the context's bounds. *)
Definition fits (d : Decimal) : Prop :=
  match d with
  | Fin _ c e =>
      Dec.ndigits c <= Dec.prec /\ Dec.Etiny <= e /\ Dec.adjusted c e <= Dec.Emax
  | _ => False
  end.

(** Every product and every running sum of the loop of
    [calculate_total_cost], started at [total], fits the context. *)
Fixpoint exact_steps (total : Decimal) (l : list Ingredient) : Prop :=
  match l with
  | [] => True
  | i :: l' =>
      let qp := xmul (i_quantity i) (i_price_per_unit i) in
      fits qp /\ fits (xadd total qp) /\ exact_steps (xadd total qp) l'
  end.

End Spec.

(** * Sample data *)

(** The rows of a table, numbered from [i] on, whose number is not among
    the selected ones. *)
Fixpoint unselected (i : nat) (selected : list nat) (rows : list Row) : list Row :=
  match rows with
  | [] => []
  | row :: rows' =>
      if bool_decide (i ∈ selected) then unselected (S i) selected rows'
      else row :: unselected (S i) selected rows'
  end.

(** What a row keeps of an earlier state of itself: the name, the
    quantity, the unit spec, and the row price when there was one. *)
Definition kept_inputs (row row' : Row) : Prop :=
  name_text row' = name_text row
  /\ qty_text row' = qty_text row
  /\ unit_text row' = unit_text row
  /\ (Str.is_empty (CostDialog.row_price_stripped row) = false ->
      row_price_text row' = row_price_text row).

(** A row that has no name, or has a row price. *)
Definition priced (row : Row) : Prop :=
  Str.is_empty (Str.strip (name_text row)) = true
  \/ Str.is_empty (CostDialog.row_price_stripped row) = false.

(** The recipe of the tests: 50 ml of gin at 0.02 and 150 ml of tonic at
    0.001 for two servings
    ([test_calc.py]). *)
Definition gin_tonic : Recipe :=
  mkRecipe "G&T"
    [mkIngredient "Gin" (Fin false 50 0) "ml" (Fin false 2 (-2));
     mkIngredient "Tonic" (Fin false 150 0) "ml" (Fin false 1 (-3))] 2.

(** * Properties *)

(** ** Strings and digits *)

Module StrFacts.

Lemma app_nil_l (s : string) : "" +:+ s = s.
Proof. reflexivity. Qed.

Lemma app_cons (a : ascii) (s t : string) : String a s +:+ t = String a (s +:+ t).
Proof. reflexivity. Qed.

Lemma app_nil_r (s : string) : s +:+ "" = s.
Proof. induction s as [|a s IH]; [reflexivity | by rewrite app_cons, IH]. Qed.

Lemma app_assoc (s1 s2 s3 : string) : (s1 +:+ s2) +:+ s3 = s1 +:+ (s2 +:+ s3).
Proof. induction s1 as [|a s1 IH]; [reflexivity | by rewrite !app_cons, IH]. Qed.

Lemma app_length (s1 s2 : string) :
  String.length (s1 +:+ s2) = (String.length s1 + String.length s2)%nat.
Proof.
  induction s1 as [|a s1 IH]; [reflexivity|].
  rewrite app_cons. cbn [String.length]. by rewrite IH.
Qed.

Lemma zeros_length (n : nat) : String.length (Str.zeros n) = n.
Proof. induction n as [|n IH]; simpl; [reflexivity | by rewrite IH]. Qed.

Lemma take_drop (n : nat) (s : string) : Str.take n s +:+ Str.drop n s = s.
Proof.
  revert s; induction n as [|n IH]; intros [|a s]; try reflexivity.
  cbn [Str.take Str.drop]. by rewrite app_cons, IH.
Qed.

Lemma take_length (n : nat) (s : string) :
  (n <= String.length s)%nat -> String.length (Str.take n s) = n.
Proof.
  revert s; induction n as [|n IH]; intros [|a s]; simpl; intros H; try lia.
  rewrite IH; lia.
Qed.

End StrFacts.

Module DigitsFacts.

Import Digits.

Lemma is_digit_digit_char (d : Z) : 0 <= d < 10 -> is_digit (digit_char d) = true.
Proof.
  intros H. assert (Hc : d = 0 \/ d = 1 \/ d = 2 \/ d = 3 \/ d = 4 \/ d = 5
    \/ d = 6 \/ d = 7 \/ d = 8 \/ d = 9) by lia.
  destruct Hc as [->|[->|[->|[->|[->|[->|[->|[->|[->| ->]]]]]]]]]; reflexivity.
Qed.

Lemma digit_val_digit_char (d : Z) : 0 <= d < 10 -> Z.of_N (digit_val (digit_char d)) = d.
Proof.
  intros H. assert (Hc : d = 0 \/ d = 1 \/ d = 2 \/ d = 3 \/ d = 4 \/ d = 5
    \/ d = 6 \/ d = 7 \/ d = 8 \/ d = 9) by lia.
  destruct Hc as [->|[->|[->|[->|[->|[->|[->|[->|[->| ->]]]]]]]]]; reflexivity.
Qed.

Lemma all_digits_app (s1 s2 : string) :
  all_digits (s1 +:+ s2) = all_digits s1 && all_digits s2.
Proof.
  induction s1 as [|a s1 IH]; [reflexivity|].
  rewrite StrFacts.app_cons. cbn [all_digits]. rewrite IH. by rewrite andb_assoc.
Qed.

Lemma of_string_acc_app (s1 s2 : string) (acc : N) :
  of_string_acc acc (s1 +:+ s2) = of_string_acc (of_string_acc acc s1) s2.
Proof.
  revert acc; induction s1 as [|a s1 IH]; intros acc; [reflexivity|].
  rewrite StrFacts.app_cons. cbn [of_string_acc]. apply IH.
Qed.

Lemma of_string_acc_shift (s : string) (acc : N) :
  Z.of_N (of_string_acc acc s)
  = Z.of_N acc * 10 ^ Z.of_nat (String.length s) + Z.of_N (of_string_acc 0 s).
Proof.
  revert acc; induction s as [|a s IH]; intros acc.
  - simpl. lia.
  - cbn [of_string_acc String.length]. rewrite IH. rewrite (IH (0 * 10 + digit_val a)%N).
    rewrite Nat2Z.inj_succ, Z.pow_succ_r by lia. lia.
Qed.

(** What [to_string_aux] produces, given enough fuel. *)
Lemma to_string_aux_spec (fuel : nat) :
  forall (c : Z) (acc : string),
    0 <= c < 10 ^ Z.of_nat fuel -> (0 < fuel)%nat ->
    exists ds,
      to_string_aux fuel c acc = ds +:+ acc
      /\ all_digits ds = true
      /\ Z.of_N (of_string_acc 0 ds) = c
      /\ (0 < String.length ds)%nat
      /\ c < 10 ^ Z.of_nat (String.length ds)
      /\ (c <> 0 -> 10 ^ (Z.of_nat (String.length ds) - 1) <= c)
      /\ (c = 0 -> ds = "0").
Proof.
  induction fuel as [|fuel IH]; intros c acc Hc Hf; [lia|].
  cbn [to_string_aux]. destruct (c <? 10) eqn:E.
  - apply Z.ltb_lt in E. exists (String (digit_char (c mod 10)) "").
    rewrite Z.mod_small by lia.
    split; [reflexivity|]. split; [simpl; by rewrite is_digit_digit_char by lia|].
    split; [simpl; rewrite N.add_0_l; apply digit_val_digit_char; lia|].
    split; [simpl; lia|]. split; [simpl; lia|].
    split; [simpl; lia|]. intros ->; reflexivity.
  - apply Z.ltb_ge in E.
    assert (Hfuel : (0 < fuel)%nat).
    { destruct fuel; [|lia]. simpl in Hc. lia. }
    assert (Hq : 0 <= c / 10 < 10 ^ Z.of_nat fuel).
    { split; [apply Z.div_pos; lia|].
      apply Z.div_lt_upper_bound; [lia|].
      rewrite Nat2Z.inj_succ, Z.pow_succ_r in Hc by lia. lia. }
    destruct (IH (c / 10) (String (digit_char (c mod 10)) acc) Hq Hfuel)
      as (ds & Heq & Hall & Hval & Hlen & Hub & Hlb & _).
    exists (ds +:+ String (digit_char (c mod 10)) "").
    assert (Hm : 0 <= c mod 10 < 10) by (apply Z.mod_pos_bound; lia).
    assert (Hdm : c = 10 * (c / 10) + c mod 10) by (apply Z.div_mod; lia).
    assert (Hq1 : c / 10 <> 0) by lia.
    specialize (Hlb Hq1).
    rewrite StrFacts.app_length. cbn [String.length].
    replace (Z.of_nat (String.length ds + 1)) with (Z.succ (Z.of_nat (String.length ds))) by lia.
    rewrite Z.pow_succ_r by lia.
    replace (Z.succ (Z.of_nat (String.length ds)) - 1)
      with (Z.succ (Z.of_nat (String.length ds) - 1)) by lia.
    rewrite Z.pow_succ_r by lia.
    split; [rewrite Heq, StrFacts.app_assoc; reflexivity|].
    split; [rewrite all_digits_app, Hall; simpl; by rewrite is_digit_digit_char|].
    split.
    { rewrite of_string_acc_app. cbn [of_string_acc].
      rewrite N2Z.inj_add, N2Z.inj_mul, Hval, digit_val_digit_char by lia. lia. }
    split; [lia|]. split; [lia|]. split; [lia|]. lia.
Qed.

Lemma size_nat_bound (c : N) : Z.of_N c < 10 ^ Z.of_nat (N.size_nat c).
Proof.
  destruct c as [|p]; [simpl; lia|].
  simpl. induction p as [p IH|p IH|]; cbn [Pos.size_nat].
  - rewrite Nat2Z.inj_succ, Z.pow_succ_r by lia. lia.
  - rewrite Nat2Z.inj_succ, Z.pow_succ_r by lia. lia.
  - simpl. lia.
Qed.

Lemma to_string_spec (c : N) :
  all_digits (to_string c) = true
  /\ of_string (to_string c) = c
  /\ (0 < String.length (to_string c))%nat
  /\ Z.of_N c < 10 ^ ndigits c
  /\ (c <> 0%N -> 10 ^ (ndigits c - 1) <= Z.of_N c)
  /\ (c = 0%N -> to_string c = "0").
Proof.
  unfold ndigits, to_string, of_string.
  destruct (to_string_aux_spec (S (N.size_nat c)) (Z.of_N c) "") as
    (ds & Heq & Hall & Hval & Hlen & Hub & Hlb & Hz).
  - split; [lia|]. pose proof (size_nat_bound c).
    rewrite Nat2Z.inj_succ, Z.pow_succ_r by lia. lia.
  - lia.
  - rewrite Heq, StrFacts.app_nil_r.
    split; [exact Hall|]. split; [lia|]. split; [exact Hlen|].
    split; [exact Hub|]. split; [intros; apply Hlb; lia|]. intros; apply Hz; lia.
Qed.

Lemma all_digits_to_string (c : N) : all_digits (to_string c) = true.
Proof. apply to_string_spec. Qed.

Lemma of_string_to_string (c : N) : of_string (to_string c) = c.
Proof. apply to_string_spec. Qed.

Lemma ndigits_pos (c : N) : 0 < ndigits c.
Proof. unfold ndigits. pose proof (to_string_spec c) as (_ & _ & H & _). lia. Qed.

Lemma ndigits_upper (c : N) : Z.of_N c < 10 ^ ndigits c.
Proof. apply to_string_spec. Qed.

Lemma ndigits_lower (c : N) : c <> 0%N -> 10 ^ (ndigits c - 1) <= Z.of_N c.
Proof. apply to_string_spec. Qed.

Lemma ndigits_0 : ndigits 0 = 1.
Proof. reflexivity. Qed.

(** The number of digits is determined by the magnitude. *)
Lemma ndigits_le (c : N) (k : Z) : 0 < k -> Z.of_N c < 10 ^ k -> ndigits c <= k.
Proof.
  intros Hk Hc. destruct (N.eq_dec c 0%N) as [->|Hne]; [rewrite ndigits_0; lia|].
  pose proof (ndigits_lower c Hne) as Hl. pose proof (ndigits_pos c).
  destruct (Z_le_gt_dec (ndigits c) k) as [|Hgt]; [assumption|exfalso].
  assert (10 ^ k <= 10 ^ (ndigits c - 1)) by (apply Z.pow_le_mono_r; lia).
  lia.
Qed.

Lemma ndigits_gt (c : N) (k : Z) : 0 <= k -> 10 ^ k <= Z.of_N c -> k < ndigits c.
Proof.
  intros Hk Hc. pose proof (ndigits_upper c) as Hu. pose proof (ndigits_pos c).
  destruct (Z_lt_ge_dec k (ndigits c)) as [|Hge]; [assumption|exfalso].
  assert (10 ^ ndigits c <= 10 ^ k) by (apply Z.pow_le_mono_r; lia).
  lia.
Qed.

End DigitsFacts.

(** ** The decimal context *)

Module DecFacts.

Import Dec.

Lemma pow10_pos (k : Z) : 0 <= k -> 0 < pow10 k.
Proof. intros; unfold pow10; apply Z.pow_pos_nonneg; lia. Qed.

Lemma fix_zero (s : bool) (e : Z) :
  Etiny <= e <= Emax -> fix_ s 0 e = Ok (Fin s 0 e).
Proof. intros H. unfold fix_. cbn [N.eqb]. do 2 f_equal. lia. Qed.

(** A coefficient of at most [prec] digits with its exponent in range
    goes through [_fix] unchanged. *)
Lemma fix_fits (s : bool) (c : N) (e : Z) :
  Spec.fits (Fin s c e) -> fix_ s c e = Ok (Fin s c e).
Proof.
  unfold Spec.fits, adjusted. intros (Hd & He & Ha).
  pose proof (DigitsFacts.ndigits_pos c) as Hp. fold ndigits in Hp.
  unfold fix_. destruct (N.eqb_spec c 0) as [->|Hc].
  - do 2 f_equal. change (ndigits 0) with 1 in Ha. lia.
  - unfold Etop, Etiny, Emax, Emin, prec in *.
    destruct (Z.ltb_spec (999999 - 28 + 1) (ndigits c + e - 28)); [lia|].
    destruct (Z.ltb_spec e (Z.max (ndigits c + e - 28) (-999999 - 28 + 1))); [lia|].
    reflexivity.
Qed.

End DecFacts.

(** ** Exact values *)

Module ValFacts.

Import Dec Spec.

Lemma ten_neq_0 : ~ (10 # 1 == 0)%Q.
Proof. discriminate. Qed.

Lemma Qpow10_add (a b : Z) : ((10 # 1) ^ (a + b) == (10 # 1) ^ a * (10 # 1) ^ b)%Q.
Proof. apply Qpower_plus, ten_neq_0. Qed.

Lemma inject_pow10 (k : Z) : 0 <= k -> (inject_Z (pow10 k) == (10 # 1) ^ k)%Q.
Proof. intros H. unfold pow10. by rewrite Zpower_Qpower. Qed.

Lemma Qpow10_pos (k : Z) : (0 < (10 # 1) ^ k)%Q.
Proof. apply Qpower_0_lt. reflexivity. Qed.

Lemma signed_xorb (s1 s2 : bool) (c1 c2 : N) :
  signed (xorb s1 s2) (c1 * c2) = signed s1 c1 * signed s2 c2.
Proof. destruct s1, s2; unfold signed; simpl; lia. Qed.

Lemma signed_of_Z (z : Z) : signed (z <? 0) (Z.abs_N z) = z.
Proof. unfold signed. destruct (Z.ltb_spec z 0); lia. Qed.

Lemma Qval_xmul (a b : Decimal) :
  finite a -> finite b -> (Qval (xmul a b) == Qval a * Qval b)%Q.
Proof.
  destruct a as [s1 c1 e1| |], b as [s2 c2 e2| |]; try contradiction. intros _ _.
  cbn [xmul Qval]. rewrite signed_xorb, inject_Z_mult, Qpow10_add. ring.
Qed.

Lemma Qval_align (s : bool) (c : N) (e1 e : Z) :
  e <= e1 -> (inject_Z (align s c e1 e) * (10 # 1) ^ e == inject_Z (signed s c) * (10 # 1) ^ e1)%Q.
Proof.
  intros H. unfold align. rewrite inject_Z_mult, inject_pow10 by lia.
  replace e1 with ((e1 - e) + e) at 2 by lia. rewrite Qpow10_add. ring.
Qed.

Lemma xadd_signed (s1 s2 : bool) (c1 c2 : N) (e1 e2 : Z) :
  exists s c, xadd (Fin s1 c1 e1) (Fin s2 c2 e2) = Fin s c (Z.min e1 e2)
    /\ signed s c = align s1 c1 e1 (Z.min e1 e2) + align s2 c2 e2 (Z.min e1 e2).
Proof.
  cbn [xadd]. cbv zeta.
  destruct (Z.eqb_spec (align s1 c1 e1 (Z.min e1 e2) + align s2 c2 e2 (Z.min e1 e2)) 0) as [E|E].
  - eexists _, _. split; [reflexivity|]. rewrite E. unfold signed. by destruct (s1 && s2).
  - eexists _, _. split; [reflexivity|]. apply signed_of_Z.
Qed.

Lemma Qval_xadd (a b : Decimal) :
  finite a -> finite b -> (Qval (xadd a b) == Qval a + Qval b)%Q.
Proof.
  destruct a as [s1 c1 e1| |], b as [s2 c2 e2| |]; try contradiction. intros _ _.
  destruct (xadd_signed s1 s2 c1 c2 e1 e2) as (s & c & -> & Hs).
  cbn [Qval]. rewrite Hs, inject_Z_plus.
  rewrite Qmult_plus_distr_l, !Qval_align by lia. reflexivity.
Qed.

Lemma finite_xadd (a b : Decimal) : finite a -> finite b -> finite (xadd a b).
Proof.
  destruct a as [s1 c1 e1| |], b as [s2 c2 e2| |]; try contradiction. intros _ _.
  destruct (xadd_signed s1 s2 c1 c2 e1 e2) as (s & c & -> & _). exact I.
Qed.

Lemma fits_finite (d : Decimal) : fits d -> finite d.
Proof. by destruct d. Qed.

Lemma xmul_finite_inv (a b : Decimal) : finite (xmul a b) -> finite a /\ finite b.
Proof. by destruct a, b. Qed.

(** With results that fit, the operations of the context are exact. *)
Lemma mul_exact (a b : Decimal) : fits (xmul a b) -> mul a b = Ok (xmul a b).
Proof.
  intros H. destruct (xmul_finite_inv a b (fits_finite _ H)) as [Ha Hb].
  destruct a as [s1 c1 e1| |], b as [s2 c2 e2| |]; try contradiction.
  cbn [mul check_nans sign_of]. by apply DecFacts.fix_fits.
Qed.

Lemma add_exact (a b : Decimal) :
  finite a -> finite b -> fits (xadd a b) -> add a b = Ok (xadd a b).
Proof.
  destruct a as [s1 c1 e1| |], b as [s2 c2 e2| |]; try contradiction. intros _ _.
  cbn [add check_nans xadd]. cbv zeta.
  destruct (_ =? 0); apply DecFacts.fix_fits.
Qed.

Lemma sum_costs_exact (l : list Ingredient) :
  forall total, finite total -> exact_steps total l ->
    Calc.sum_costs total l = Ok (xsum total l)
    /\ finite (xsum total l)
    /\ (Qval (xsum total l) == Qval total + exact_total l)%Q.
Proof.
  induction l as [|i l IH]; intros total Hfin Hsteps.
  - cbn. split; [reflexivity|]. split; [assumption|]. ring.
  - destruct Hsteps as (Hqp & Hsum & Hrest).
    assert (Hfqp := fits_finite _ Hqp).
    destruct (xmul_finite_inv _ _ Hfqp) as [Hq Hp].
    destruct (IH _ (fits_finite _ Hsum) Hrest) as (Hrun & Hf & Hv).
    cbn [Calc.sum_costs xsum fold_left exact_total fold_right].
    rewrite (mul_exact _ _ Hqp). cbn [mbind result_bind].
    rewrite (add_exact _ _ Hfin Hfqp Hsum). cbn [mbind result_bind].
    split; [exact Hrun|]. split; [exact Hf|].
    unfold xsum in Hv. rewrite Hv, Qval_xadd, Qval_xmul by assumption.
    unfold exact_total. ring.
Qed.

End ValFacts.

(** ** Rounding to cents *)

Module RoundFacts.

Import Dec Spec ValFacts.

Lemma Qfloor_half (n : Z) : Qfloor (inject_Z n + (1 # 2))%Q = n.
Proof.
  assert (H : (inject_Z n + (1 # 2) == inject_Z (2 * n + 1) / inject_Z 2)%Q).
  { rewrite inject_Z_plus, inject_Z_mult. field. }
  rewrite H, <- Zdiv_Qdiv. symmetry. apply (Z.div_unique _ _ n 1); lia.
Qed.

(** Dropping [k] digits half up is the floor of the quotient plus a
    half. *)
Lemma round_coef_half_up (c : N) (k : Z) :
  0 <= k ->
  Z.of_N (round_coef ROUND_HALF_UP c k) = (2 * Z.of_N c + pow10 k) / (2 * pow10 k).
Proof.
  intros Hk. unfold round_coef. pose proof (pow10_pos_aux := DecFacts.pow10_pos k Hk).
  set (p := pow10 k) in *. set (z := Z.of_N c).
  assert (Hz : 0 <= z) by (unfold z; lia).
  pose proof (Z.div_mod z p ltac:(lia)) as Hdm.
  pose proof (Z.mod_pos_bound z p ltac:(lia)) as Hm.
  assert (Hq : 0 <= z / p) by (apply Z.div_pos; lia).
  destruct (Z.leb_spec p (2 * (z mod p))) as [Hup|Hdn].
  - rewrite Z2N.id by lia.
    apply (Z.div_unique _ _ _ (2 * (z mod p) - p)); lia.
  - rewrite Z2N.id by lia.
    apply (Z.div_unique _ _ _ (2 * (z mod p) + p)); lia.
Qed.

(** The coefficient [_rescale] gives at exponent -2 under ROUND_HALF_UP
    is the magnitude in cents, rounded half up. *)
Lemma rescale_cents_abs (c : N) (e : Z) :
  Z.of_N (rescale_coef ROUND_HALF_UP c e (-2))
  = Qfloor (100 * (inject_Z (Z.of_N c) * (10 # 1) ^ e) + (1 # 2))%Q.
Proof.
  unfold rescale_coef. destruct (N.eqb_spec c 0) as [->|Hc].
  - assert (H : (100 * (inject_Z (Z.of_N 0) * (10 # 1) ^ e) + (1 # 2) == inject_Z 0 + (1 # 2))%Q).
    { change (inject_Z (Z.of_N 0)) with 0%Q. ring. }
    rewrite H, Qfloor_half. reflexivity.
  - destruct (Z.leb_spec (-2) e) as [He|He].
    + assert (H : (100 * (inject_Z (Z.of_N c) * (10 # 1) ^ e)
                  == inject_Z (Z.of_N c * pow10 (e - -2)))%Q).
      { rewrite inject_Z_mult, inject_pow10 by lia.
        replace (e - -2) with (e + 2) by lia. rewrite Qpow10_add.
        change ((10 # 1) ^ 2)%Q with 100%Q. ring. }
      rewrite H, Qfloor_half. pose proof (DecFacts.pow10_pos (e - -2)). lia.
    + rewrite round_coef_half_up by lia.
      set (k := -2 - e). assert (Hk : 0 < k) by (unfold k; lia).
      pose proof (DecFacts.pow10_pos k ltac:(lia)) as Hp.
      assert (H : (100 * (inject_Z (Z.of_N c) * (10 # 1) ^ e) + (1 # 2)
                  == inject_Z (2 * Z.of_N c + pow10 k) / inject_Z (2 * pow10 k))%Q).
      { replace e with (- k - 2) by (unfold k; lia).
        unfold Z.sub. rewrite Qpow10_add, Qpower_opp, <- inject_pow10 by lia.
        change ((10 # 1) ^ (- (2)))%Q with (/ 100)%Q.
        rewrite inject_Z_plus, !inject_Z_mult.
        field. intros E. unfold Qeq in E. simpl in E. lia. }
      rewrite H, <- Zdiv_Qdiv. reflexivity.
Qed.

Lemma cents_of_decimal (s : bool) (c : N) (e : Z) :
  cents (Qval (Fin s c e)) = signed s (rescale_coef ROUND_HALF_UP c e (-2)).
Proof.
  unfold cents, round_half_up. cbn [Qval].
  pose proof (Qpow10_pos e) as Hp.
  assert (Hc : (0 <= inject_Z (Z.of_N c))%Q).
  { change 0%Q with (inject_Z 0). rewrite <- Zle_Qle. lia. }
  assert (Hx : (0 <= inject_Z (Z.of_N c) * (10 # 1) ^ e)%Q).
  { apply Qmult_le_0_compat; [assumption | by apply Qlt_le_weak]. }
  destruct s; unfold signed.
  - destruct (N.eqb_spec c 0) as [->|Hne].
    + change (inject_Z (- Z.of_N 0)) with 0%Q.
      assert (E : (100 * (0 * (10 # 1) ^ e) == 0)%Q) by ring.
      destruct (Qle_bool 0 (100 * (0 * (10 # 1) ^ e))) eqn:B.
      * rewrite E. reflexivity.
      * rewrite E. reflexivity.
    + assert (Hneg : (100 * (inject_Z (- Z.of_N c) * (10 # 1) ^ e) < 0)%Q).
      { rewrite inject_Z_opp.
        assert (0 < inject_Z (Z.of_N c))%Q.
        { change 0%Q with (inject_Z 0). rewrite <- Zlt_Qlt. lia. }
        assert (0 < inject_Z (Z.of_N c) * (10 # 1) ^ e)%Q by (by apply Qmult_lt_0_compat).
        assert (E : (100 * (- inject_Z (Z.of_N c) * (10 # 1) ^ e)
                     == - (100 * (inject_Z (Z.of_N c) * (10 # 1) ^ e)))%Q) by ring.
        assert (Hpos : (0 < 100 * (inject_Z (Z.of_N c) * (10 # 1) ^ e))%Q)
          by (apply Qmult_lt_0_compat; [reflexivity | assumption]).
        apply Qopp_lt_compat in Hpos. rewrite E. exact Hpos. }
      destruct (Qle_bool 0 (100 * (inject_Z (- Z.of_N c) * (10 # 1) ^ e))) eqn:B.
      * apply Qle_bool_iff in B. exfalso. eapply Qlt_not_le; eassumption.
      * rewrite rescale_cents_abs. f_equal. apply Qfloor_comp.
        rewrite inject_Z_opp. ring.
  - destruct (Qle_bool 0 (100 * (inject_Z (Z.of_N c) * (10 # 1) ^ e))) eqn:B.
    + by rewrite rescale_cents_abs.
    + exfalso. assert (Qle_bool 0 (100 * (inject_Z (Z.of_N c) * (10 # 1) ^ e)) = true); [|congruence].
      apply Qle_bool_iff. apply Qmult_le_0_compat; [discriminate | assumption].
Qed.

End RoundFacts.

(** ** calc.py: the total cost *)

Module CalcFacts.

Import Dec Spec ValFacts RoundFacts.

Lemma cents_comp (x y : Q) : (x == y)%Q -> cents x = cents y.
Proof.
  intros H. unfold cents, round_half_up.
  assert (H100 : (100 * x == 100 * y)%Q) by (by rewrite H).
  assert (B : Qle_bool 0 (100 * x) = Qle_bool 0 (100 * y)).
  { apply eq_true_iff_eq. rewrite !Qle_bool_iff. by rewrite H100. }
  rewrite B. destruct (Qle_bool 0 (100 * y)).
  - apply Qfloor_comp. by rewrite H100.
  - f_equal. apply Qfloor_comp. by rewrite H100.
Qed.

(** A rounded coefficient below [10^28] at exponent -2 bounds the
    adjusted exponent of the number that was rounded. *)
Lemma rescale_small_adjusted (c : N) (e : Z) :
  c <> 0%N ->
  Z.of_N (rescale_coef ROUND_HALF_UP c e (-2)) < 10 ^ 28 ->
  adjusted c e <= 25.
Proof.
  intros Hc. unfold rescale_coef, adjusted.
  destruct (N.eqb_spec c 0) as [|_]; [contradiction|].
  pose proof (DigitsFacts.ndigits_lower c Hc) as Hl.
  pose proof (DigitsFacts.ndigits_pos c) as Hp. fold ndigits in Hl, Hp.
  destruct (Z.leb_spec (-2) e) as [He|He]; intros Hb.
  - pose proof (DecFacts.pow10_pos (e - -2) ltac:(lia)) as Hpw.
    rewrite Z2N.id in Hb by lia.
    destruct (Z_le_gt_dec (e + ndigits c - 1) 25) as [|Hgt]; [assumption|exfalso].
    assert (H1 : 10 ^ 28 <= 10 ^ (ndigits c - 1 + (e - -2))) by (apply Z.pow_le_mono_r; lia).
    rewrite Z.pow_add_r in H1 by lia. unfold pow10 in *. nia.
  - set (k := -2 - e) in *. assert (Hk : 0 < k) by (unfold k; lia).
    pose proof (DecFacts.pow10_pos k ltac:(lia)) as Hpw.
    rewrite round_coef_half_up in Hb by lia.
    assert (Hc' : Z.of_N c < 10 ^ (28 + k)).
    { rewrite Z.pow_add_r by lia. fold (pow10 k).
      destruct (Z_lt_ge_dec (Z.of_N c) (10 ^ 28 * pow10 k)) as [|Hge]; [assumption|exfalso].
      assert (10 ^ 28 <= (2 * Z.of_N c + pow10 k) / (2 * pow10 k)); [|lia].
      apply Z.div_le_lower_bound; lia. }
    pose proof (DigitsFacts.ndigits_le c (28 + k) ltac:(lia) Hc') as Hn.
    fold ndigits in Hn. unfold k in Hn. lia.
Qed.

(** [_quantize_money] returns the amount in whole cents, rounded half
    up, whenever that amount has at most 28 digits. *)
Lemma quantize_money_cents (s : bool) (c : N) (e : Z) :
  Z.abs (cents (Qval (Fin s c e))) < 10 ^ 28 ->
  exists c', Calc._quantize_money (Fin s c e) = Ok (Fin s c' (-2))
    /\ signed s c' = cents (Qval (Fin s c e)).
Proof.
  rewrite cents_of_decimal. set (c' := rescale_coef ROUND_HALF_UP c e (-2)).
  intros Hb. assert (Hc' : Z.of_N c' < 10 ^ 28) by (unfold signed in Hb; destruct s; lia).
  exists c'. split; [|reflexivity].
  assert (Hfit : fits (Fin s c' (-2))).
  { pose proof (DigitsFacts.ndigits_le c' 28 ltac:(lia) Hc') as Hn.
    cbn [fits]. unfold adjusted, ndigits, Etiny, Emax, Emin, prec. lia. }
  unfold Calc._quantize_money, Calc.MONEY_QUANT, quantize. cbn [check_nans].
  change (negb ((Etiny <=? -2) && (-2 <=? Emax))) with false. cbv iota.
  destruct (N.eqb_spec c 0) as [->|Hc].
  - apply DecFacts.fix_zero. unfold Etiny, Emax, Emin, prec. lia.
  - pose proof (rescale_small_adjusted c e Hc Hc') as Ha.
    fold c'. destruct Hfit as (Hn & _ & Ha').
    unfold Emax, prec in *.
    destruct (Z.ltb_spec 999999 (adjusted c e)); [lia|].
    destruct (Z.ltb_spec 28 (adjusted c e - -2 + 1)); [lia|].
    destruct (Z.ltb_spec 999999 (adjusted c' (-2))); [lia|].
    destruct (Z.ltb_spec 28 (ndigits c')); [lia|].
    apply DecFacts.fix_fits. cbn [fits]. unfold Etiny, Emax, Emin, prec. lia.
Qed.

End CalcFacts.

(** ** Decimals and strings: [Decimal(str(d))] is [d] *)

Module ParseFacts.

Import Digits DecStr.

Lemma clean_app (s1 s2 : string) : clean (s1 +:+ s2) = clean s1 && clean s2.
Proof.
  induction s1 as [|a s1 IH]; [reflexivity|].
  rewrite StrFacts.app_cons. cbn [clean]. rewrite IH. by rewrite andb_assoc.
Qed.

Lemma digit_clean (a : ascii) :
  is_digit a = true -> negb (Str.is_space a) && negb (Ascii.eqb a "_") = true.
Proof.
  unfold is_digit, Str.is_space. intros H.
  destruct (Ascii.eqb_spec a "_") as [->|_]; [discriminate H|].
  set (n := N_of_ascii a) in *. rewrite andb_true_r. apply negb_true_iff.
  apply andb_true_iff in H as [H1 H2]. apply N.leb_le in H1. apply N.leb_le in H2.
  repeat match goal with
  | |- context [(?x <=? ?y)%N] => destruct (N.leb_spec x y); try lia
  | |- context [(?x =? ?y)%N] => destruct (N.eqb_spec x y); try lia
  end; reflexivity.
Qed.

Lemma all_digits_clean (s : string) : all_digits s = true -> clean s = true.
Proof.
  induction s as [|a s IH]; [reflexivity|]. cbn [all_digits clean].
  intros [Ha Hs]%andb_true_iff. by rewrite digit_clean, IH.
Qed.

Lemma rstrip_clean (s : string) : clean s = true -> Str.rstrip s = s.
Proof.
  induction s as [|a s IH]; [reflexivity|]. cbn [clean Str.rstrip].
  intros [[Ha _]%andb_true_iff Hs]%andb_true_iff. rewrite (IH Hs).
  apply negb_true_iff in Ha. rewrite Ha. by destruct s.
Qed.

Lemma strip_clean (s : string) : clean s = true -> Str.strip s = s.
Proof.
  intros H. unfold Str.strip.
  assert (E : Str.lstrip s = s).
  { destruct s as [|a s]; [reflexivity|]. cbn [clean] in H. cbn [Str.lstrip].
    apply andb_true_iff in H as [[Ha _]%andb_true_iff _].
    apply negb_true_iff in Ha. by rewrite Ha. }
  rewrite E. by apply rstrip_clean.
Qed.

Lemma remove_underscores_clean (s : string) :
  clean s = true -> Str.remove_underscores s = s.
Proof.
  induction s as [|a s IH]; [reflexivity|]. cbn [clean Str.remove_underscores].
  intros [[_ Ha]%andb_true_iff Hs]%andb_true_iff. rewrite (IH Hs).
  apply negb_true_iff in Ha. by rewrite Ha.
Qed.

Lemma span_digits_app (ds rest : string) :
  all_digits ds = true -> starts_nondigit rest ->
  Str.span_digits (ds +:+ rest) = (ds, rest).
Proof.
  intros Hd Hr. induction ds as [|a ds IH].
  - rewrite StrFacts.app_nil_l. destruct rest as [|b rest]; [reflexivity|].
    cbn [Str.span_digits]. cbn in Hr. by rewrite Hr.
  - cbn [all_digits] in Hd. apply andb_true_iff in Hd as [Ha Hd].
    rewrite StrFacts.app_cons. cbn [Str.span_digits]. by rewrite Ha, (IH Hd).
Qed.

Lemma span_digits_all (ds : string) :
  all_digits ds = true -> Str.span_digits ds = (ds, "").
Proof.
  intros H. rewrite <- (StrFacts.app_nil_r ds) at 1. by apply span_digits_app.
Qed.

Lemma all_digits_zeros (n : nat) : all_digits (Str.zeros n) = true.
Proof. induction n as [|n IH]; [reflexivity|]. cbn [Str.zeros all_digits]. by rewrite IH. Qed.

Lemma all_digits_take (n : nat) (s : string) :
  all_digits s = true -> all_digits (Str.take n s) = true.
Proof.
  revert s; induction n as [|n IH]; intros [|a s] H; try reflexivity.
  cbn [all_digits] in H. apply andb_true_iff in H as [Ha Hs].
  cbn [Str.take all_digits]. by rewrite Ha, IH.
Qed.

Lemma all_digits_drop (n : nat) (s : string) :
  all_digits s = true -> all_digits (Str.drop n s) = true.
Proof.
  revert s; induction n as [|n IH]; intros [|a s] H; try reflexivity; try assumption.
  cbn [all_digits] in H. apply andb_true_iff in H as [Ha Hs].
  cbn [Str.drop]. by apply IH.
Qed.

Lemma of_string_zeros (n : nat) (s : string) :
  of_string (Str.zeros n +:+ s) = of_string s.
Proof.
  unfold of_string. induction n as [|n IH]; [reflexivity|].
  cbn [Str.zeros]. rewrite StrFacts.app_cons. cbn [of_string_acc]. exact IH.
Qed.

Lemma to_string_nonempty (c : N) : exists a s, to_string c = String a s /\ is_digit a = true.
Proof.
  pose proof (DigitsFacts.to_string_spec c) as (Hall & _ & Hlen & _).
  destruct (to_string c) as [|a s]; [simpl in Hlen; lia|].
  cbn [all_digits] in Hall. apply andb_true_iff in Hall as [Ha _]. eauto.
Qed.

Lemma parse_sign_digits (s : string) :
  (exists a s', s = String a s' /\ is_digit a = true) -> parse_sign s = (false, s).
Proof.
  intros (a & s' & -> & Ha). unfold parse_sign.
  destruct (Ascii.eqb_spec a "-") as [->|H1]; [discriminate Ha|].
  destruct (Ascii.eqb_spec a "+") as [->|H2]; [discriminate Ha|].
  destruct a as [[] [] [] [] [] [] [] []]; try reflexivity; congruence.
Qed.

(** The exponent part [str] writes is read back. *)
Lemma parse_exp_signed (z : Z) :
  parse_exp ("E" +:+ Z_to_string_signed z) = Some z.
Proof.
  rewrite StrFacts.app_cons, StrFacts.app_nil_l. cbn [parse_exp Str.lower].
  change (Ascii.eqb _ "e") with true. cbv iota.
  unfold Z_to_string_signed.
  pose proof (DigitsFacts.all_digits_to_string (Z.abs_N z)) as Hd.
  pose proof (DigitsFacts.of_string_to_string (Z.abs_N z)) as Hv.
  destruct (to_string_nonempty (Z.abs_N z)) as (a & t & Et & _).
  destruct (Z.ltb_spec z 0).
  - rewrite StrFacts.app_cons, StrFacts.app_nil_l. cbn [parse_sign].
    rewrite (span_digits_all _ Hd), Et. cbn [Str.is_empty orb negb].
    rewrite <- Et, Hv. f_equal. lia.
  - rewrite StrFacts.app_cons, StrFacts.app_nil_l. cbn [parse_sign].
    rewrite (span_digits_all _ Hd), Et. cbn [Str.is_empty orb negb].
    rewrite <- Et, Hv. f_equal. lia.
Qed.

Lemma starts_nondigit_exp (z : Z) (b : bool) :
  starts_nondigit (if b then "" else "E" +:+ Z_to_string_signed z).
Proof. destruct b; [exact I|]. rewrite StrFacts.app_cons. reflexivity. Qed.

Lemma parse_exp_opt (z : Z) (b : bool) :
  parse_exp (if b then "" else "E" +:+ Z_to_string_signed z) = Some (if b then 0 else z).
Proof. destruct b; [reflexivity | apply parse_exp_signed]. Qed.

Ltac norm_app :=
  repeat first
    [ rewrite StrFacts.app_assoc
    | rewrite StrFacts.app_cons
    | rewrite StrFacts.app_nil_l
    | rewrite StrFacts.app_nil_r ].

(** What [str] writes for a finite decimal is read back as the same
    coefficient and exponent. *)
Lemma parse_finite_str (sign : bool) (c : N) (e : Z) :
  parse_finite sign (finite_str c e) = Some (Fin sign c e)
  /\ clean (finite_str c e) = true
  /\ exists a s', finite_str c e = String a s' /\ is_digit a = true.
Proof.
  pose proof (DigitsFacts.to_string_spec c) as (Hall & Hval & Hlen & _).
  destruct (to_string_nonempty c) as (a0 & t0 & Et & Ha0).
  unfold finite_str. cbv zeta.
  set (D := to_string c) in *.
  set (L := Z.of_nat (String.length D)) in *.
  assert (HL : 0 < L) by (unfold L; lia).
  set (dp := if (e <=? 0) && (-6 <? e + L) then e + L else 1).
  assert (Hdp : dp = e + L /\ e <= 0 \/ dp = 1 /\ (0 < e \/ e + L <= -6)).
  { unfold dp. destruct (Z.leb_spec e 0), (Z.ltb_spec (-6) (e + L)); cbn [andb]; lia. }
  clearbody dp.
  pose proof (parse_exp_opt (e + L - dp) (e + L =? dp)) as Hexp.
  pose proof (starts_nondigit_exp (e + L - dp) (e + L =? dp)) as Hnd.
  assert (Hcx : clean (if e + L =? dp then "" else "E" +:+ Z_to_string_signed (e + L - dp)) = true).
  { destruct (e + L =? dp); [reflexivity|]. rewrite StrFacts.app_cons, StrFacts.app_nil_l.
    unfold Z_to_string_signed.
    destruct (e + L - dp <? 0); rewrite StrFacts.app_cons, StrFacts.app_nil_l;
      cbn [clean]; rewrite all_digits_clean by apply DigitsFacts.all_digits_to_string;
      reflexivity. }
  set (X := if e + L =? dp then "" else "E" +:+ Z_to_string_signed (e + L - dp)) in *.
  assert (Hexp' : forall k, parse_exp X = Some k -> k = if e + L =? dp then 0 else e + L - dp)
    by (intros k; rewrite Hexp; congruence).
  destruct (Z.leb_spec dp 0) as [Hle|Hgt].
  - (* 0.000ddd *)
    assert (Edp : dp = e + L) by lia.
    assert (EX : X = "") by (unfold X; rewrite Edp, Z.eqb_refl; reflexivity).
    rewrite EX. norm_app. split; [|split].
    + unfold parse_finite. cbn [Str.span_digits]. change (is_digit "0") with true.
      change (is_digit ".") with false. cbv iota beta.
      rewrite span_digits_all
        by (rewrite DigitsFacts.all_digits_app, all_digits_zeros; exact Hall).
      cbn [Str.is_empty andb parse_exp]. norm_app.
      f_equal. f_equal.
      * change (String "0" (Str.zeros (Z.to_nat (- dp)) +:+ D))
          with (Str.zeros (S (Z.to_nat (- dp))) +:+ D).
        rewrite of_string_zeros. exact Hval.
      * rewrite StrFacts.app_length, StrFacts.zeros_length. fold L. lia.
    + cbn [clean]. rewrite clean_app, !all_digits_clean
        by (first [apply all_digits_zeros | exact Hall]). reflexivity.
    + eauto.
  - destruct (Z.leb_spec L dp) as [HLd|HLd].
    + (* ddd, maybe with an exponent *)
      assert (Em : Z.to_nat (dp - L) = 0%nat) by lia.
      rewrite Em. cbn [Str.zeros]. norm_app. split; [|split].
      * unfold parse_finite. rewrite (span_digits_app D X Hall Hnd).
        assert (Hr1 : match X with
                      | String "." r => Str.span_digits r
                      | _ => ("", X)
                      end = ("", X)).
        { unfold X. destruct (e + L =? dp); [reflexivity|].
          rewrite StrFacts.app_cons. reflexivity. }
        rewrite Hr1. rewrite Et at 1. cbn [Str.is_empty andb].
        rewrite Hexp. norm_app. rewrite Hval. f_equal. f_equal.
        cbn [String.length]. destruct (Z.eqb_spec (e + L) dp); lia.
      * by rewrite clean_app, Hcx, all_digits_clean.
      * rewrite Et. rewrite StrFacts.app_cons. eauto.
    + (* d.dd, maybe with an exponent *)
      split; [|split].
      * unfold parse_finite. norm_app.
        rewrite (span_digits_app (Str.take (Z.to_nat dp) D)
                   (String "." (Str.drop (Z.to_nat dp) D +:+ X)))
          by (first [by apply all_digits_take | reflexivity]).
        rewrite (span_digits_app (Str.drop (Z.to_nat dp) D) X)
          by (first [by apply all_digits_drop | exact Hnd]).
        assert (Htk : Str.is_empty (Str.take (Z.to_nat dp) D) = false).
        { rewrite Et. destruct (Z.to_nat dp) eqn:En; [lia|]. reflexivity. }
        rewrite Htk. cbn [andb]. rewrite Hexp.
        rewrite StrFacts.take_drop, Hval.
        assert (Hdl : Z.of_nat (String.length (Str.drop (Z.to_nat dp) D)) = L - dp).
        { pose proof (StrFacts.take_drop (Z.to_nat dp) D) as Htd.
          apply (f_equal String.length) in Htd.
          rewrite StrFacts.app_length, StrFacts.take_length in Htd by (unfold L in HLd; lia).
          unfold L. lia. }
        rewrite Hdl. f_equal. f_equal. destruct (Z.eqb_spec (e + L) dp); lia.
      * norm_app. rewrite clean_app. cbn [clean]. rewrite clean_app, Hcx.
        rewrite !all_digits_clean
          by (first [by apply all_digits_take | by apply all_digits_drop]).
        reflexivity.
      * rewrite Et. destruct (Z.to_nat dp) eqn:En; [lia|]. cbn [Str.take].
        rewrite StrFacts.app_cons. eauto.
Qed.

Lemma of_str_nan (s sg : bool) (P : string) :
  all_digits P = true ->
  of_str (sign_str s +:+ (if sg then "sNaN" else "NaN") +:+ P)
  = Ok (NaN s sg (of_string P)).
Proof.
  intros Hd. pose proof (all_digits_clean P Hd) as Hc.
  unfold of_str.
  destruct s, sg; cbn [sign_str]; norm_app;
    (rewrite strip_clean by (cbn [clean]; rewrite Hc; reflexivity));
    (rewrite remove_underscores_clean by (cbn [clean]; rewrite Hc; reflexivity));
    lazy -[all_digits of_string]; rewrite Hd; reflexivity.
Qed.

(** Round trip: a decimal is read back from the string [str] writes for
    it, bit for bit (sign, coefficient, exponent; infinities and NaNs with
    their payload too). *)
Lemma of_str_to_str (d : Decimal) : of_str (to_str d) = Ok d.
Proof.
  destruct d as [s c e|s|s sg p].
  - destruct (parse_finite_str s c e) as (Hp & Hc & Hdig).
    unfold to_str, of_str. destruct s; cbn [sign_str]; norm_app.
    + rewrite strip_clean by (cbn [clean]; rewrite Hc; reflexivity).
      rewrite remove_underscores_clean by (cbn [clean]; rewrite Hc; reflexivity).
      cbn [parse_sign]. by rewrite Hp.
    + rewrite strip_clean, remove_underscores_clean by exact Hc.
      rewrite (parse_sign_digits _ Hdig). by rewrite Hp.
  - by destruct s.
  - unfold to_str. destruct (N.eqb_spec p 0) as [->|Hp].
    + by rewrite of_str_nan.
    + rewrite of_str_nan by apply DigitsFacts.all_digits_to_string.
      by rewrite DigitsFacts.of_string_to_string.
Qed.

End ParseFacts.

(** ** model.py: construction *)

Module ModelFacts.

Import Dec Spec.

Lemma rstrip_empty (s : string) : Str.is_empty (Str.rstrip s) = whitespace_only s.
Proof.
  induction s as [|a s IH]; [reflexivity|]. cbn [Str.rstrip whitespace_only].
  rewrite <- IH. destruct (Str.rstrip s); cbn [Str.is_empty].
  - destruct (Str.is_space a); reflexivity.
  - by rewrite andb_false_r.
Qed.

Lemma whitespace_only_lstrip (s : string) :
  whitespace_only (Str.lstrip s) = whitespace_only s.
Proof.
  induction s as [|a s IH]; [reflexivity|]. cbn [Str.lstrip whitespace_only].
  destruct (Str.is_space a) eqn:E; [exact IH|]. cbn [whitespace_only]. by rewrite E.
Qed.

Lemma strip_empty (s : string) : Str.is_empty (Str.strip s) = whitespace_only s.
Proof. unfold Str.strip. by rewrite rstrip_empty, whitespace_only_lstrip. Qed.

(** [not s or not s.strip()] holds of the strings of whitespace only. *)
Lemma blank_whitespace_only (s : string) : Model.blank s = whitespace_only s.
Proof.
  unfold Model.blank. rewrite strip_empty. destruct s; [reflexivity|].
  reflexivity.
Qed.

Lemma sgn_mul_pos (x p : Z) : 0 < p -> (x * p ?= 0) = (Z.sgn x ?= 0).
Proof.
  intros Hp. destruct (Z.compare_spec (Z.sgn x) 0) as [E|E|E].
  - apply Z.compare_eq_iff. nia.
  - apply Z.compare_lt_iff. nia.
  - apply Z.compare_gt_iff. nia.
Qed.

(** Comparing a number with [0] looks at its sign. *)
Lemma cmp_zero (d : Decimal) :
  is_nan d = false -> cmp d (of_int 0) = (signum d ?= 0).
Proof.
  destruct d as [s c e|s|]; [| |discriminate]; intros _.
  - cbn [cmp of_int signum]. change (Z.abs_N 0) with 0%N. change (0 <? 0) with false.
    unfold align at 2. change (signed false 0) with 0. rewrite Z.mul_0_l.
    unfold align. apply sgn_mul_pos. apply DecFacts.pow10_pos. lia.
  - by destruct s.
Qed.

Lemma le_zero (d : Decimal) :
  is_nan d = false -> le d (of_int 0) = Ok (signum d <=? 0).
Proof.
  intros H. unfold le, ordered. rewrite H, (cmp_zero d H). cbn [orb is_nan of_int].
  unfold Z.leb. by destruct (signum d ?= 0).
Qed.

Lemma lt_zero (d : Decimal) :
  is_nan d = false -> lt d (of_int 0) = Ok (signum d <? 0).
Proof.
  intros H. unfold lt, ordered. rewrite H, (cmp_zero d H). cbn [orb is_nan of_int].
  unfold Z.ltb. by destruct (signum d ?= 0).
Qed.

Lemma gt_zero (d : Decimal) :
  is_nan d = false -> gt d (of_int 0) = Ok (0 <? signum d).
Proof.
  intros H. unfold gt, ordered. rewrite H, (cmp_zero d H). cbn [orb is_nan of_int].
  unfold Z.ltb. rewrite (Z.compare_antisym (signum d) 0).
  by destruct (signum d ?= 0).
Qed.

Lemma ordered_nan (test : comparison -> bool) (d : Decimal) :
  is_nan d = true -> ordered test d (of_int 0) = Raise InvalidOperation.
Proof. intros H. unfold ordered. by rewrite H. Qed.

(** The checks of [__post_init__] on decimals that are numbers. *)
Lemma Ingredient_init_cases (name unit : string) (q p : Decimal) :
  is_nan q = false -> is_nan p = false ->
  Model.Ingredient_init name (NDec q) unit (NDec p) =
    if whitespace_only name then Raise (ValueError "Ingredient name must be non-empty")
    else if signum q <=? 0 then Raise (ValueError "Ingredient quantity must be > 0")
    else if signum p <? 0 then Raise (ValueError "Ingredient price_per_unit must be >= 0")
    else Ok (mkIngredient name q unit p).
Proof.
  intros Hq Hp. unfold Model.Ingredient_init. cbn [Model.normalize mbind result_bind].
  rewrite blank_whitespace_only. destruct (whitespace_only name); [reflexivity|].
  rewrite (le_zero q Hq). cbn [mbind result_bind].
  destruct (signum q <=? 0); [reflexivity|].
  rewrite (lt_zero p Hp). cbn [mbind result_bind].
  by destruct (signum p <? 0).
Qed.


End ModelFacts.

(** * The claims *)

(** C1, as the code has it.  A recipe with no ingredient costs [0.00].
    When every product [quantity * price_per_unit] and every running sum
    of the loop fits the 28-digit context, and the total in cents has at
    most 28 digits, [calculate_total_cost] returns a decimal with
    exponent -2 whose value in cents is the exact sum of the products,
    rounded once, half up. *)
Theorem calculate_total_cost_exact (recipe : Recipe) :
  (r_ingredients recipe = [] ->
   Calc.calculate_total_cost recipe = Ok (Fin false 0 (-2)))
  /\ (Spec.exact_steps (Fin false 0 0) (r_ingredients recipe) ->
      Z.abs (Spec.cents (Spec.exact_total (r_ingredients recipe))) < 10 ^ 28 ->
      exists s c,
        Calc.calculate_total_cost recipe = Ok (Fin s c (-2))
        /\ Dec.signed s c = Spec.cents (Spec.exact_total (r_ingredients recipe))).
Proof.
  split.
  - intros E. unfold Calc.calculate_total_cost. rewrite E. reflexivity.
  - intros Hsteps Hb. unfold Calc.calculate_total_cost.
    destruct (ValFacts.sum_costs_exact (r_ingredients recipe) (Fin false 0 0) I Hsteps)
      as (Hrun & Hfin & Hval).
    rewrite Hrun. cbn [mbind result_bind].
    destruct (Spec.xsum (Fin false 0 0) (r_ingredients recipe)) as [s c e| |] eqn:E;
      try contradiction.
    assert (Hc : Spec.cents (Spec.Qval (Fin s c e))
                 = Spec.cents (Spec.exact_total (r_ingredients recipe))).
    { apply CalcFacts.cents_comp. rewrite Hval. cbn [Spec.Qval]. unfold Dec.signed.
      change (inject_Z (Z.of_N 0)) with 0%Q. ring. }
    destruct (CalcFacts.quantize_money_cents s c e) as (c' & Hq & Hs).
    { by rewrite Hc. }
    exists s, c'. split; [exact Hq|]. by rewrite Hs.
Qed.

Lemma calculate_total_cost_exact_witness :
  Spec.exact_steps (Fin false 0 0) (r_ingredients gin_tonic)
  /\ Z.abs (Spec.cents (Spec.exact_total (r_ingredients gin_tonic))) < 10 ^ 28
  /\ exists s c,
      Calc.calculate_total_cost gin_tonic = Ok (Fin s c (-2))
      /\ Dec.signed s c = Spec.cents (Spec.exact_total (r_ingredients gin_tonic)).
Proof.
  assert (H1 : Spec.exact_steps (Fin false 0 0) (r_ingredients gin_tonic)).
  { vm_compute. repeat split; discriminate. }
  assert (H2 : Z.abs (Spec.cents (Spec.exact_total (r_ingredients gin_tonic))) < 10 ^ 28).
  { vm_compute. reflexivity. }
  split; [exact H1|]. split; [exact H2|].
  exact (proj2 (calculate_total_cost_exact gin_tonic) H1 H2).
Defined.

(** C1 as stated fails: the product of 1 and 0.0049999999999999999999999999999
    is rounded to 28 digits, 0.005000000000000000000000000000, before the
    total is quantized, so the cost is 0.01 where the exact sum rounds to
    0.00. *)
Lemma calculate_total_cost_rounds_twice :
  let recipe :=
    mkRecipe "R"
      [mkIngredient "Gin" (Fin false 1 0) "ml"
         (Fin false 49999999999999999999999999999 (-31))] 1 in
  Model.Ingredient_init "Gin" (NStr "1") "ml" (NStr "0.0049999999999999999999999999999")
    = Ok (mkIngredient "Gin" (Fin false 1 0) "ml"
            (Fin false 49999999999999999999999999999 (-31)))
  /\ Calc.calculate_total_cost recipe = Ok (Fin false 1 (-2))
  /\ Spec.cents (Spec.exact_total (r_ingredients recipe)) = 0.
Proof. vm_compute. repeat split; reflexivity. Qed.



Module DictFacts.

Import Spec.

Lemma to_dict_lookup (i : Ingredient) :
  Model.Ingredient_to_dict i !! "name" = Some (i_name i)
  /\ Model.Ingredient_to_dict i !! "quantity" = Some (DecStr.to_str (i_quantity i))
  /\ Model.Ingredient_to_dict i !! "unit" = Some (i_unit i)
  /\ Model.Ingredient_to_dict i !! "price_per_unit"
     = Some (DecStr.to_str (i_price_per_unit i)).
Proof. unfold Model.Ingredient_to_dict. repeat split; by simplify_map_eq. Qed.

Lemma valid_init (i : Ingredient) :
  valid_ingredient i ->
  Model.Ingredient_init (i_name i) (NDec (i_quantity i)) (i_unit i)
    (NDec (i_price_per_unit i)) = Ok i.
Proof.
  intros (Hn & Hq & Hpn & Hp).
  assert (Hqn : Dec.is_nan (i_quantity i) = false).
  { destruct (i_quantity i); try reflexivity. cbn in Hq. lia. }
  rewrite (ModelFacts.Ingredient_init_cases _ _ _ _ Hqn Hpn), Hn.
  destruct (Z.leb_spec (signum (i_quantity i)) 0); [lia|].
  destruct (Z.ltb_spec (signum (i_price_per_unit i)) 0); [lia|].
  by destruct i.
Qed.

Lemma Ingredient_round_trip (i : Ingredient) :
  valid_ingredient i ->
  Model.Ingredient_from_dict (Model.Ingredient_to_dict i) = Ok i.
Proof.
  intros Hv. destruct (to_dict_lookup i) as (Hn & Hq & Hu & Hp).
  unfold Model.Ingredient_from_dict, Model.getitem.
  rewrite Hn, Hq, Hu, Hp. cbn [mbind result_bind default from_option id].
  rewrite !ParseFacts.of_str_to_str. cbn [mbind result_bind].
  by apply valid_init.
Qed.

Lemma load_ingredients_round_trip (l : list Ingredient) :
  Forall valid_ingredient l ->
  Model.load_ingredients (Model.Ingredient_to_dict <$> l) = Ok l.
Proof.
  induction 1 as [|i l Hi _ IH]; [reflexivity|].
  cbn [fmap list_fmap Model.load_ingredients].
  rewrite (Ingredient_round_trip i Hi). cbn [mbind result_bind].
  fold (fmap (M:=list) Model.Ingredient_to_dict l). rewrite IH. reflexivity.
Qed.

(** A malformed ingredient fails to load. *)
Lemma malformed_fails (d : gmap string string) :
  malformed d -> exists e, Model.Ingredient_from_dict d = Raise e.
Proof.
  unfold Model.Ingredient_from_dict, Model.getitem.
  intros [H|[H|[H|[(s & e & H & Hs)|(s & e & H & Hs)]]]].
  - rewrite H. eauto.
  - destruct (d !! "name"); rewrite ?H; cbn [mbind result_bind]; eauto.
  - destruct (d !! "name"); cbn [mbind result_bind]; [|eauto].
    destruct (d !! "quantity") as [qs|]; cbn [mbind result_bind]; [|eauto].
    destruct (DecStr.of_str qs); cbn [mbind result_bind]; [|eauto].
    rewrite H. cbn [mbind result_bind]. eauto.
  - destruct (d !! "name"); cbn [mbind result_bind]; [|eauto].
    rewrite H. cbn [mbind result_bind]. rewrite Hs. eauto.
  - destruct (d !! "name"); cbn [mbind result_bind]; [|eauto].
    destruct (d !! "quantity") as [qs|]; cbn [mbind result_bind]; [|eauto].
    destruct (DecStr.of_str qs); cbn [mbind result_bind]; [|eauto].
    rewrite H. cbn [mbind result_bind]. rewrite Hs. eauto.
Qed.

Lemma load_ingredients_fails (l : list (gmap string string)) (d : gmap string string) :
  d ∈ l -> malformed d -> exists e, Model.load_ingredients l = Raise e.
Proof.
  intros Hin Hm. induction Hin as [d l|d d' l _ IH].
  - destruct (malformed_fails d Hm) as [e He]. cbn [Model.load_ingredients].
    rewrite He. eauto.
  - cbn [Model.load_ingredients]. destruct (Model.Ingredient_from_dict d'); [|eauto].
    cbn [mbind result_bind]. destruct (IH Hm) as [e ->]. eexists. reflexivity.
Qed.

End DictFacts.

(** C5.  A recipe whose ingredients all satisfy the construction
    invariant is read back from its record unchanged: the same name and
    servings, and for each ingredient the same name, unit and decimals
    (sign, coefficient and exponent), which the record carries as the
    strings [str()] writes for them. *)
Theorem Recipe_dict_round_trip (r : Recipe) :
  Forall Spec.valid_ingredient (r_ingredients r) ->
  Model.from_dict (Model.to_dict r) = Ok r
  /\ Forall2 (fun i d =>
        d !! "quantity" = Some (DecStr.to_str (i_quantity i))
        /\ d !! "price_per_unit" = Some (DecStr.to_str (i_price_per_unit i))
        /\ DecStr.of_str (DecStr.to_str (i_quantity i)) = Ok (i_quantity i)
        /\ DecStr.of_str (DecStr.to_str (i_price_per_unit i)) = Ok (i_price_per_unit i))
       (r_ingredients r) (default [] (d_ingredients (Model.to_dict r))).
Proof.
  intros Hv. split.
  - unfold Model.from_dict, Model.to_dict. cbn [d_ingredients d_name d_servings default from_option id].
    rewrite (DictFacts.load_ingredients_round_trip _ Hv). by destruct r.
  - cbn [Model.to_dict d_ingredients default from_option id]. clear Hv.
    induction (r_ingredients r) as [|i l IH]; constructor; [|exact IH].
    destruct (DictFacts.to_dict_lookup i) as (_ & Hq & _ & Hp).
    by rewrite !ParseFacts.of_str_to_str.
Qed.

Lemma Recipe_dict_round_trip_witness :
  Forall Spec.valid_ingredient (r_ingredients gin_tonic)
  /\ Model.from_dict (Model.to_dict gin_tonic) = Ok gin_tonic.
Proof.
  assert (H : Forall Spec.valid_ingredient (r_ingredients gin_tonic)).
  { repeat constructor; vm_compute; congruence. }
  split; [exact H|]. exact (proj1 (Recipe_dict_round_trip gin_tonic H)).
Defined.

(** C6 as stated fails: a record with none of its keys loads, as the
    recipe with an empty name, no ingredient and one serving; and an
    ingredient without its "unit" key loads with an empty unit. *)
Lemma from_dict_defaults_missing_keys :
  Model.from_dict (mkRecipeDict None None None) = Ok (mkRecipe "" [] 1)
  /\ Model.from_dict
       (mkRecipeDict (Some "R") (Some 1)
          (Some [<["name" := "Gin"]> (<["quantity" := "50"]>
                   (<["price_per_unit" := "0.02"]> ∅))]))
     = Ok (mkRecipe "R" [mkIngredient "Gin" (Fin false 50 0) "" (Fin false 2 (-2))] 1).
Proof. split; vm_compute; reflexivity. Qed.

(** C6, as the code has it.  The load fails as a whole, with no recipe
    returned, as soon as one ingredient of the record lacks its "name",
    "quantity" or "price_per_unit" key or has a quantity or price that is
    not a numeric string.  The keys of the recipe itself are defaulted
    when missing: name to the empty string, servings to 1, ingredients to
    none. *)
Theorem from_dict_fail_fast (d : RecipeDict) :
  (forall (ings : list (gmap string string)) (i : gmap string string),
      d_ingredients d = Some ings -> i ∈ ings -> Spec.malformed i ->
      exists e, Model.from_dict d = Raise e)
  /\ (forall r, Model.from_dict d = Ok r ->
        r_name r = default "" (d_name d)
        /\ r_servings r = default 1 (d_servings d)
        /\ Model.load_ingredients (default [] (d_ingredients d)) = Ok (r_ingredients r)).
Proof.
  split.
  - intros ings i Hd Hin Hm. unfold Model.from_dict. rewrite Hd.
    cbn [default from_option id].
    destruct (DictFacts.load_ingredients_fails ings i Hin Hm) as [e ->].
    eexists. reflexivity.
  - intros r. unfold Model.from_dict.
    destruct (Model.load_ingredients (default [] (d_ingredients d))) as [l|e];
      cbn [mbind result_bind]; [|discriminate].
    intros [= <-]. auto.
Qed.

Lemma from_dict_fail_fast_witness :
  let bad : gmap string string := <["name" := "Gin"]> (<["quantity" := "abc"]> ∅) in
  let d := mkRecipeDict (Some "R") (Some 1) (Some [bad]) in
  d_ingredients d = Some [bad] /\ bad ∈ [bad] /\ Spec.malformed bad
  /\ exists e, Model.from_dict d = Raise e.
Proof.
  intros bad d.
  assert (H1 : d_ingredients d = Some [bad]) by reflexivity.
  assert (H2 : bad ∈ [bad]) by apply list_elem_of_here.
  assert (H3 : Spec.malformed bad).
  { right. right. left. reflexivity. }
  split; [exact H1|]. split; [exact H2|]. split; [exact H3|].
  exact (proj1 (from_dict_fail_fast d) [bad] bad H1 H2 H3).
Defined.



(** ** cost_dialog.py *)

Module DialogFacts.

Import Dec Spec.

Lemma fix_shape (s : bool) (c : N) (e : Z) (d : Decimal) :
  fix_ s c e = Ok d -> exists c' e', d = Fin s c' e' /\ (c = 0%N -> c' = 0%N).
Proof.
  unfold fix_. destruct (N.eqb_spec c 0) as [->|Hc].
  - intros [= <-]. eauto.
  - repeat match goal with
    | |- context [if ?b then _ else _] => destruct b
    end; intros [= <-] || discriminate; eexists _, _; (split; [reflexivity | intros; contradiction]).
Qed.

(** A finite number quantized to the exponent of a finite number has
    that exponent, its own sign, and at most [prec] digits. *)
Lemma quantize_shape (rnd : rounding) (s qs : bool) (c qc : N) (e qe : Z) (d : Decimal) :
  quantize rnd (Fin s c e) (Fin qs qc qe) = Ok d ->
  exists c', d = Fin s c' qe /\ ndigits c' <= prec.
Proof.
  unfold quantize. cbn [check_nans].
  destruct (Z.leb_spec Etiny qe) as [H1|]; [|discriminate].
  destruct (Z.leb_spec qe Emax) as [H2|]; [|discriminate].
  cbn [andb negb]. destruct (N.eqb_spec c 0) as [->|Hc].
  - rewrite DecFacts.fix_zero by lia. intros [= <-]. exists 0%N. split; [reflexivity|].
    change (ndigits 0) with 1. unfold prec. lia.
  - destruct (Z.ltb_spec Emax (adjusted c e)); [discriminate|].
    destruct (Z.ltb_spec prec (adjusted c e - qe + 1)); [discriminate|].
    set (c' := rescale_coef rnd c e qe).
    destruct (Z.ltb_spec Emax (adjusted c' qe)); [discriminate|].
    destruct (Z.ltb_spec prec (ndigits c')); [discriminate|].
    rewrite DecFacts.fix_fits by (cbn [fits]; lia).
    intros [= <-]. eauto.
Qed.

Lemma quantize_finite_inv (rnd : rounding) (a q : Decimal) (s : bool) (c : N) (e : Z) :
  quantize rnd a q = Ok (Fin s c e) -> finite a /\ finite q.
Proof.
  unfold quantize.
  destruct a as [s1 c1 e1|s1|s1 [] p1], q as [s2 c2 e2|s2|s2 [] p2];
    cbn [check_nans fix_nan]; try discriminate; try (intros _; split; exact I).
Qed.

(** The price per unit the dialog derives, when it is a finite number,
    has six decimals and at most 28 digits. *)
Lemma derive_ppu_shape (P Q U : Decimal) (s : bool) (c : N) (e : Z) :
  CostDialog.derive_ppu P Q U = Ok (Fin s c e) -> e = -6 /\ ndigits c <= prec.
Proof.
  unfold CostDialog.derive_ppu.
  destruct (div U Q) as [ratio|]; cbn [mbind result_bind]; [|discriminate].
  destruct (mul P ratio) as [product|]; cbn [mbind result_bind]; [|discriminate].
  intros H. destruct (quantize_finite_inv _ _ _ _ _ _ H) as [Hf _].
  destruct product as [s' c' e'| |]; try contradiction.
  apply quantize_shape in H as (c'' & [= -> -> ->] & Hn). auto.
Qed.


(** What a successful construction from decimals returns. *)
Lemma Ingredient_init_inv (name unit : string) (q p : Decimal) (i : Ingredient) :
  Model.Ingredient_init name (NDec q) unit (NDec p) = Ok i ->
  i = mkIngredient name q unit p /\ valid_ingredient i.
Proof.
  destruct (is_nan q) eqn:Hq.
  { unfold Model.Ingredient_init. cbn [Model.normalize mbind result_bind].
    destruct (Model.blank name); [discriminate|].
    unfold le. rewrite (ModelFacts.ordered_nan _ q Hq). discriminate. }
  destruct (is_nan p) eqn:Hp.
  { unfold Model.Ingredient_init. cbn [Model.normalize mbind result_bind].
    destruct (Model.blank name); [discriminate|].
    destruct (le q (of_int 0)) as [[]|]; cbn [mbind result_bind]; try discriminate.
    unfold lt. rewrite (ModelFacts.ordered_nan _ p Hp). discriminate. }
  rewrite (ModelFacts.Ingredient_init_cases name unit q p Hq Hp).
  destruct (whitespace_only name) eqn:Hn; [discriminate|].
  destruct (Z.leb_spec (signum q) 0); [discriminate|].
  destruct (Z.ltb_spec (signum p) 0); [discriminate|].
  intros [= <-]. split; [reflexivity|]. unfold valid_ingredient. cbn. auto.
Qed.

End DialogFacts.

Lemma gt_zero_pos (d : Decimal) :
  0 < Spec.signum d -> Dec.gt d (Dec.of_int 0) = Ok true.
Proof.
  intros H. rewrite ModelFacts.gt_zero.
  - by destruct (Z.ltb_spec 0 (Spec.signum d)); [|lia].
  - destruct d; try reflexivity. cbn in H. lia.
Qed.

Lemma gt_zero_nonpos (d : Decimal) :
  Dec.is_nan d = false -> Spec.signum d <= 0 -> Dec.gt d (Dec.of_int 0) = Ok false.
Proof.
  intros Hn H. rewrite ModelFacts.gt_zero by exact Hn.
  by destruct (Z.ltb_spec 0 (Spec.signum d)); [lia|].
Qed.




(** C4, as the code has it.  When [get_recipe] returns a recipe, its
    ingredients are the rows with a name that is not blank, in order,
    and for each: the quantity is the number in the quantity field, and
    is positive; with a row price [P] (a text that is not blank and
    parses) the price per unit is [P / quantity] as the 28-digit context
    computes it, whatever the price-per-unit field shows; only without
    one is it the number in the price-per-unit field. *)
Theorem get_recipe_row_price (dlg : Dialog) (recipe : Recipe) :
  CostDialog.get_recipe dlg = Ok recipe ->
  Forall2
    (fun row ing =>
       i_name ing = Str.strip (name_text row)
       /\ CostDialog._parse_decimal (CostDialog.str_or (qty_text row) "0") = Ok (i_quantity ing)
       /\ 0 < Spec.signum (i_quantity ing)
       /\ (forall P,
             Str.is_empty (Str.strip (row_price_text row)) = false ->
             CostDialog.try_decimal (Str.strip (row_price_text row)) = Some P ->
             Dec.div P (i_quantity ing) = Ok (i_price_per_unit ing))
       /\ (Str.is_empty (Str.strip (row_price_text row)) = true
           \/ CostDialog.try_decimal (Str.strip (row_price_text row)) = None ->
           CostDialog._parse_decimal (CostDialog.str_or (ppu_text row) "0")
           = Ok (i_price_per_unit ing)))
    (filter (fun row => Str.is_empty (Str.strip (name_text row)) = false) (table dlg))
    (r_ingredients recipe).
Proof.
  unfold CostDialog.get_recipe.
  destruct (CostDialog.row_ingredients (table dlg)) as [ings|] eqn:E;
    cbn [mbind result_bind]; [|discriminate].
  intros [= <-]. cbn [r_ingredients].
  revert ings E. induction (table dlg) as [|row rows IH]; intros ings.
  - intros [= <-]. constructor.
  - cbn [CostDialog.row_ingredients]. rewrite filter_cons.
    destruct (Str.is_empty (Str.strip (name_text row))) eqn:En.
    + case_decide; [discriminate|]. apply IH.
    + case_decide; [|congruence].
      destruct (CostDialog.row_ingredient row) as [ing|] eqn:Er;
        cbn [mbind result_bind]; [|discriminate].
      destruct (CostDialog.row_ingredients rows) as [rest|];
        cbn [mbind result_bind]; [|discriminate].
      intros [= <-]. constructor; [|by apply IH].
      clear IH. unfold CostDialog.row_ingredient in Er.
      destruct (CostDialog._parse_decimal (CostDialog.str_or (qty_text row) "0"))
        as [qty|] eqn:Eq; cbn [mbind result_bind] in Er; [|discriminate].
      destruct (CostDialog.recipe_price row qty) as [price|] eqn:Ep;
        cbn [mbind result_bind] in Er; [|discriminate].
      apply DialogFacts.Ingredient_init_inv in Er as [-> (_ & Hq & _)].
      cbn [i_name i_quantity i_price_per_unit] in *.
      split; [reflexivity|]. split; [reflexivity|]. split; [exact Hq|].
      unfold CostDialog.recipe_price in Ep. split.
      * intros P Hne HP. rewrite Hne, HP in Ep.
        rewrite (gt_zero_pos qty Hq) in Ep. exact Ep.
      * intros [He|Hn].
        -- by rewrite He in Ep.
        -- rewrite Hn in Ep.
           by destruct (Str.is_empty (Str.strip (row_price_text row))).
Qed.

(** ** Ingredients as objects: what the operations leave in the store *)

Module StoreFacts.

Import Store.

Lemma preserves_ret {A} (a : A) : preserves (ret a).
Proof. by intros h l o. Qed.

Lemma preserves_lift {A} (r : result A) : preserves (lift r).
Proof. by intros h l o. Qed.

Lemma preserves_read (l0 : nat) : preserves (read l0).
Proof. intros h l o H. unfold read. by destruct (h !! l0). Qed.

Lemma preserves_bind {A B} (m : M A) (f : A -> M B) :
  preserves m -> (forall a, preserves (f a)) -> preserves (m ≫= f).
Proof.
  intros Hm Hf h l o H. unfold mbind, M_bind, bind.
  specialize (Hm h l o H). destruct (m h) as [[a|e] h']; [|exact Hm].
  by apply Hf.
Qed.

Lemma preserves_field_decimal (x : num) : preserves (field_decimal x).
Proof. destruct x; by intros h l o. Qed.

Lemma touches_ret {A} (l0 : nat) (a : A) : touches_only l0 (ret a).
Proof. by intros h. Qed.

Lemma touches_lift {A} (l0 : nat) (r : result A) : touches_only l0 (lift r).
Proof. by intros h. Qed.

Lemma touches_read (l0 l1 : nat) : touches_only l0 (read l1).
Proof. intros h. unfold read. by destruct (h !! l1). Qed.

Lemma touches_write (l0 : nat) (o : IngredientObj) : touches_only l0 (write l0 o).
Proof.
  intros h. unfold write. cbn [snd]. split; [apply length_insert|].
  intros l Hl. by apply list_lookup_insert_ne.
Qed.

Lemma touches_bind {A B} (l0 : nat) (m : M A) (f : A -> M B) :
  touches_only l0 m -> (forall a, touches_only l0 (f a)) -> touches_only l0 (m ≫= f).
Proof.
  intros Hm Hf h. unfold mbind, M_bind, bind.
  destruct (Hm h) as [Hlen Hl]. destruct (m h) as [[a|e] h']; [|by split].
  destruct (Hf a h') as [Hlen' Hl']. cbn [snd] in *. split; [congruence|].
  intros l Hne. rewrite Hl', Hl by assumption. reflexivity.
Qed.

Lemma touches_field_decimal (l0 : nat) (x : num) : touches_only l0 (field_decimal x).
Proof. destruct x; by intros h. Qed.

Lemma touches_post_init (self : nat) : touches_only self (__post_init__ self).
Proof.
  unfold __post_init__.
  apply touches_bind; [apply touches_read|]. intros o.
  apply touches_bind.
  { destruct (needs_normalizing _); [|apply touches_ret].
    apply touches_bind; [apply touches_lift|]. intros q. apply touches_write. }
  intros _. apply touches_bind; [apply touches_read|]. intros o'.
  apply touches_bind.
  { destruct (needs_normalizing _); [|apply touches_ret].
    apply touches_bind; [apply touches_lift|]. intros q. apply touches_write. }
  intros _. apply touches_bind; [apply touches_read|]. intros o''.
  destruct (Model.blank _); [apply touches_lift|].
  apply touches_bind; [apply touches_field_decimal|]. intros q.
  apply touches_bind; [apply touches_lift|]. intros [|]; [apply touches_lift|].
  apply touches_bind; [apply touches_field_decimal|]. intros p.
  apply touches_bind; [apply touches_lift|]. intros [|]; [apply touches_lift|].
  apply touches_ret.
Qed.

(** The constructor writes to the object it creates and to no other. *)
Lemma preserves_new (name unit : string) (quantity price : num) :
  preserves (Ingredient_new name quantity unit price).
Proof.
  intros h l o H. unfold Ingredient_new, mbind, M_bind, bind, alloc.
  destruct (touches_post_init (length h) (h ++ [mkObj name quantity unit price]))
    as [_ Hl].
  assert (Hlt : (l < length h)%nat) by (eapply lookup_lt_Some; eassumption).
  assert (Hk : (__post_init__ (length h) (h ++ [mkObj name quantity unit price])).2 !! l
               = Some o).
  { rewrite Hl by lia. rewrite lookup_app_l by assumption. exact H. }
  destruct (__post_init__ (length h) (h ++ [mkObj name quantity unit price]))
    as [[[]|e] h']; exact Hk.
Qed.

Lemma preserves_load (l0 : nat) : preserves (load l0).
Proof.
  unfold load. apply preserves_bind; [apply preserves_read|]. intros o.
  apply preserves_bind; [apply preserves_field_decimal|]. intros q.
  apply preserves_bind; [apply preserves_field_decimal|]. intros p.
  apply preserves_ret.
Qed.

Lemma preserves_mapM {A B} (f : A -> M B) (l : list A) :
  (forall a, preserves (f a)) -> preserves (mapM f l).
Proof.
  intros Hf. induction l as [|a l IH]; [apply preserves_ret|].
  cbn [mapM]. apply preserves_bind; [apply Hf|]. intros b.
  apply preserves_bind; [exact IH|]. intros bs. apply preserves_ret.
Qed.

Lemma preserves_to_dict (self : nat) : preserves (Ingredient_to_dict self).
Proof.
  unfold Ingredient_to_dict. apply preserves_bind; [apply preserves_load|].
  intros i. apply preserves_ret.
Qed.

Lemma preserves_from_dict (d : gmap string string) : preserves (Ingredient_from_dict d).
Proof.
  unfold Ingredient_from_dict.
  repeat (apply preserves_bind; [apply preserves_lift|]; intros ?).
  apply preserves_new.
Qed.

Lemma preserves_sum_costs (l : list nat) : forall total, preserves (sum_costs total l).
Proof.
  induction l as [|ing l IH]; intros total; [apply preserves_ret|].
  cbn [sum_costs]. apply preserves_bind; [apply preserves_load|]. intros i.
  apply preserves_bind; [apply preserves_lift|]. intros qp.
  apply preserves_bind; [apply preserves_lift|]. intros total'. apply IH.
Qed.

Lemma preserves_total_cost (r : RecipeRef) : preserves (calculate_total_cost r).
Proof.
  unfold calculate_total_cost. apply preserves_bind; [apply preserves_sum_costs|].
  intros total. apply preserves_lift.
Qed.

Lemma preserves_row_ingredients (rows : list Row) : preserves (row_ingredients rows).
Proof.
  induction rows as [|row rows IH]; [apply preserves_ret|].
  cbn [row_ingredients]. destruct (Str.is_empty _); [exact IH|].
  apply preserves_bind; [apply preserves_lift|]. intros qty.
  apply preserves_bind; [apply preserves_lift|]. intros price.
  apply preserves_bind; [apply preserves_new|]. intros ingredient.
  apply preserves_bind; [exact IH|]. intros rest. apply preserves_ret.
Qed.

Lemma preserves_exec (c : call) (h : heap) (l : nat) (o : IngredientObj) :
  h !! l = Some o -> exec c h !! l = Some o.
Proof.
  destruct c; cbn [exec].
  - apply preserves_new.
  - apply preserves_to_dict.
  - apply preserves_from_dict.
  - apply (preserves_lift (A:=())).
  - unfold to_dict. apply preserves_bind; [apply preserves_mapM, preserves_to_dict|].
    intros ds. apply preserves_ret.
  - unfold from_dict. apply preserves_bind; [apply preserves_mapM, preserves_from_dict|].
    intros ings. apply preserves_ret.
  - apply preserves_total_cost.
  - unfold calculate_cost_per_serving. destruct (_ <=? 0); [apply preserves_lift|].
    apply preserves_bind; [apply preserves_total_cost|]. intros total.
    apply preserves_bind; [apply preserves_lift|]. intros per. apply preserves_lift.
  - unfold get_recipe. apply preserves_bind; [apply preserves_row_ingredients|].
    intros ings. apply preserves_ret.
Qed.

End StoreFacts.

(** C8.  No operation of the system changes an ingredient that exists:
    after any sequence of calls (constructing ingredients, [to_dict] and
    [from_dict] of ingredients and recipes, [validate], the two cost
    functions, [get_recipe]) every object of the store has the name,
    quantity, unit and price per unit it had; the calls only add
    objects. *)
Theorem ingredients_are_never_mutated (cs : list Store.call) (h : Store.heap)
    (l : nat) (o : Store.IngredientObj) :
  h !! l = Some o -> Store.exec_all cs h !! l = Some o.
Proof.
  revert h. induction cs as [|c cs IH]; intros h H; [exact H|].
  cbn [Store.exec_all fold_left]. apply IH. by apply StoreFacts.preserves_exec.
Qed.

(** ** calc.py: the cost per serving *)

Module ServingFacts.

Import Dec Spec.

Lemma div_eq_cross (a b c d : Z) : 0 < b -> 0 < d -> a * d = c * b -> a / b = c / d.
Proof.
  intros Hb Hd H.
  rewrite <- (Z.div_mul_cancel_r a b d) by lia.
  rewrite <- (Z.div_mul_cancel_r c d b) by lia.
  rewrite H. f_equal. lia.
Qed.

(** Rounding a rounded quotient.  [V] is [A / B] rounded to an integer,
    downwards when the fraction is below a half; [A / B] is [t / n] in
    units of [10^-j].  When the units are finer than [1 / n], or [V] is
    exact, rounding [V] half up to units of one gives [t / n] rounded
    half up. *)
Lemma final_round (t n j V A B : Z) :
  0 <= t -> 1 <= n -> 0 <= j -> 0 < B -> 0 <= A ->
  A * n = t * 10 ^ j * B ->
  V = A / B \/ V = A / B + 1 ->
  (2 * (A mod B) < B -> V = A / B) ->
  A mod B = 0 \/ (n < 10 ^ j /\ 1 <= j) ->
  (2 * V + 10 ^ j) / (2 * 10 ^ j) = (2 * t + n) / (2 * n).
Proof.
  intros Ht Hn Hj HB HA HY HV Hdown Hfine.
  assert (HP : 0 < 10 ^ j) by (apply Z.pow_pos_nonneg; lia).
  set (P := 10 ^ j) in *.
  pose proof (Z.div_mod A B ltac:(lia)) as Hdm.
  pose proof (Z.mod_pos_bound A B HB) as Hr.
  set (f := A / B) in *. set (rho := A mod B) in *.
  destruct (Z.eq_dec rho 0) as [Hz|Hnz].
  - assert (V = f) by (apply Hdown; lia). subst V.
    apply div_eq_cross; [lia | lia |]. rewrite Hz in Hdm. nia.
  - destruct Hfine as [?|[Hfine Hj1]]; [contradiction|].
    assert (HP2 : exists P2, P = 2 * P2 /\ 0 < P2).
    { exists (5 * 10 ^ (j - 1)). unfold P. replace j with (Z.succ (j - 1)) at 1 by lia.
      rewrite Z.pow_succ_r by lia.
      assert (0 < 10 ^ (j - 1)) by (apply Z.pow_pos_nonneg; lia). lia. }
    destruct HP2 as (P2 & EP & HP2).
    set (m := (2 * t + n) / (2 * n)).
    pose proof (Z.div_mod (2 * t + n) (2 * n) ltac:(lia)) as Hm.
    pose proof (Z.mod_pos_bound (2 * t + n) (2 * n) ltac:(lia)) as Hmr.
    fold m in Hm. set (mr := (2 * t + n) mod (2 * n)) in *.
    assert (Hlo : (2 * m - 1) * n <= 2 * t) by lia.
    assert (Hhi : 2 * t + 1 <= (2 * m + 1) * n) by lia.
    assert (Hm0 : 0 <= m) by (apply Z.div_pos; lia).
    (* the lower boundary is an integer that A / B reaches *)
    assert (Hf_lo : (2 * m - 1) * P2 <= f).
    { apply Z.div_le_lower_bound; [lia|].
      assert (n * (B * ((2 * m - 1) * P2)) <= n * A); [|nia].
      assert (E : 2 * (n * (B * ((2 * m - 1) * P2))) = ((2 * m - 1) * n) * (P * B)) by lia.
      assert (E' : 2 * (n * A) = (2 * t) * (P * B)) by lia.
      assert (((2 * m - 1) * n) * (P * B) <= (2 * t) * (P * B)).
      { apply Z.mul_le_mono_nonneg_r; lia. }
      lia. }
    (* the upper boundary is an integer that V stays below *)
    assert (Hkey : 2 * (n * A) + P * B <= 2 * ((2 * m + 1) * P2) * (n * B)).
    { assert (E' : 2 * (n * A) = (2 * t) * (P * B)) by lia.
      assert ((2 * t + 1) * (P * B) <= ((2 * m + 1) * n) * (P * B)).
      { apply Z.mul_le_mono_nonneg_r; lia. }
      lia. }
    assert (Hf_hi : f <= (2 * m + 1) * P2 - 1).
    { assert (f < (2 * m + 1) * P2); [|lia].
      apply Z.div_lt_upper_bound; [lia|].
      assert (n * A < n * (B * ((2 * m + 1) * P2))); [|nia].
      assert (0 < P * B) by lia. nia. }
    assert (HV_hi : V <= (2 * m + 1) * P2 - 1).
    { destruct (Z.eq_dec f ((2 * m + 1) * P2 - 1)) as [Ef|Ef].
      - assert (V = f); [|lia]. apply Hdown.
        assert (2 * (n * rho) < n * B); [|nia].
        assert (Erho : n * rho = n * A - n * (B * f)) by lia.
        rewrite Erho, Ef.
        assert (2 * (n * A) + P * B <= 2 * ((2 * m + 1) * P2) * (n * B)) by exact Hkey.
        assert (n * B < P * B) by (apply Z.mul_lt_mono_pos_r; lia).
        lia.
      - destruct HV; lia. }
    assert (HV_lo : (2 * m - 1) * P2 <= V) by (destruct HV; lia).
    symmetry. apply (Z.div_unique _ _ _ (2 * V + P - 2 * P * m)); lia.
Qed.

(** The coefficient a rounding keeps is the quotient or the quotient
    plus one, and the quotient when less than half a unit is dropped. *)
Lemma round_coef_cases (rnd : rounding) (c : N) (k : Z) :
  0 <= k ->
  (Z.of_N (round_coef rnd c k) = Z.of_N c / pow10 k
   \/ Z.of_N (round_coef rnd c k) = Z.of_N c / pow10 k + 1)
  /\ (2 * (Z.of_N c mod pow10 k) < pow10 k ->
      Z.of_N (round_coef rnd c k) = Z.of_N c / pow10 k).
Proof.
  intros Hk. pose proof (DecFacts.pow10_pos k Hk) as Hp.
  assert (Hq : 0 <= Z.of_N c / pow10 k) by (apply Z.div_pos; lia).
  unfold round_coef. cbv zeta.
  set (q := Z.of_N c / pow10 k) in *. set (r := Z.of_N c mod pow10 k).
  destruct rnd.
  - destruct (Z.ltb_spec (pow10 k) (2 * r)); cbn [orb].
    + rewrite Z2N.id by lia. split; [by right | lia].
    + destruct (Z.eqb_spec (pow10 k) (2 * r)); cbn [andb].
      * destruct (Z.odd q); rewrite Z2N.id by lia; (split; [auto | lia]).
      * rewrite Z2N.id by lia. split; [by left | reflexivity].
  - destruct (Z.leb_spec (pow10 k) (2 * r)); rewrite Z2N.id by lia.
    + split; [by right | lia].
    + split; [by left | reflexivity].
Qed.

Lemma strip_to_ideal_spec (n : nat) :
  forall c e, 0 < c ->
    exists z, 0 <= z <= Z.of_nat n
      /\ c = (strip_to_ideal n c e).1 * 10 ^ z
      /\ (strip_to_ideal n c e).2 = e + z
      /\ 0 < (strip_to_ideal n c e).1.
Proof.
  induction n as [|n IH]; intros c e Hc.
  - exists 0. cbn. lia.
  - cbn [strip_to_ideal]. destruct (Z.eqb_spec (c mod 10) 0) as [Hm|Hm].
    + pose proof (Z.div_mod c 10 ltac:(lia)) as Hdm.
      destruct (IH (c / 10) (e + 1) ltac:(lia)) as (z & Hz & Hcz & Hez & Hpos).
      exists (z + 1). split; [lia|]. split; [|split; [lia | exact Hpos]].
      rewrite Z.pow_add_r by lia. change (10 ^ 1) with 10. lia.
    + exists 0. cbn. lia.
Qed.

(** The adjustment of [__truediv__] for an inexact quotient makes the
    rounding of the adjusted coefficient the rounding of the quotient
    itself. *)
Lemma sticky_round (X n k V : Z) :
  0 <= X -> 1 <= n -> 1 <= k -> X mod n <> 0 ->
  let q0 := X / n in
  let coeff := if q0 mod 5 =? 0 then q0 + 1 else q0 in
  (V = coeff / 10 ^ k \/ V = coeff / 10 ^ k + 1) ->
  (2 * (coeff mod 10 ^ k) < 10 ^ k -> V = coeff / 10 ^ k) ->
  (V = X / (n * 10 ^ k) \/ V = X / (n * 10 ^ k) + 1)
  /\ (2 * (X mod (n * 10 ^ k)) < n * 10 ^ k -> V = X / (n * 10 ^ k)).
Proof.
  intros HX Hn Hk Hrem q0 coeff HV Hdown.
  assert (HP : 0 < 10 ^ k) by (apply Z.pow_pos_nonneg; lia).
  assert (HP5 : 10 ^ k = 5 * (2 * 10 ^ (k - 1)) /\ 0 < 10 ^ (k - 1)).
  { split; [|apply Z.pow_pos_nonneg; lia].
    replace k with (Z.succ (k - 1)) at 1 by lia. rewrite Z.pow_succ_r by lia. lia. }
  destruct HP5 as [HP5 HPk]. set (P := 10 ^ k) in *.
  rewrite <- Z.div_div by lia. fold q0.
  rewrite Z.rem_mul_r by lia. fold q0.
  pose proof (Z.mod_pos_bound X n ltac:(lia)) as Hr.
  pose proof (Z.div_mod q0 P ltac:(lia)) as Hdm.
  pose proof (Z.mod_pos_bound q0 P ltac:(lia)) as Hr0.
  assert (Eq : coeff / P = q0 / P /\ (q0 mod 5 = 0 -> coeff mod P = q0 mod P + 1)
               /\ (q0 mod 5 <> 0 -> coeff mod P = q0 mod P)).
  { unfold coeff. destruct (Z.eqb_spec (q0 mod 5) 0) as [E5|E5].
    - assert (Hr5 : (q0 mod P) mod 5 = 0).
      { rewrite Z.mod_mod_divide; [exact E5|]. exists (2 * 10 ^ (k - 1)). lia. }
      pose proof (Z.div_mod (q0 mod P) 5 ltac:(lia)) as Hd5.
      assert (Hsmall : q0 mod P + 1 < P) by lia.
      assert (Ec : q0 + 1 = P * (q0 / P) + (q0 mod P + 1)) by lia.
      split; [|split; [intros _|contradiction]].
      + symmetry. apply (Z.div_unique _ _ _ (q0 mod P + 1)); lia.
      + symmetry. apply (Z.mod_unique _ _ (q0 / P)); lia.
    - split; [reflexivity|]. split; [contradiction | reflexivity]. }
  destruct Eq as (Eq & Em1 & Em0). rewrite Eq in HV, Hdown.
  split; [exact HV|]. intros Hlt. apply Hdown.
  assert (H2 : 2 * (q0 mod P) < P) by nia.
  destruct (Z.eq_dec (q0 mod 5) 0) as [E5|E5].
  - rewrite (Em1 E5).
    assert (Hr5 : (q0 mod P) mod 5 = 0).
    { rewrite Z.mod_mod_divide; [exact E5|]. exists (2 * 10 ^ (k - 1)). lia. }
    pose proof (Z.div_mod (q0 mod P) 5 ltac:(lia)) as Hd5. lia.
  - by rewrite (Em0 E5).
Qed.

Lemma rescale_half_up (c : N) (e : Z) :
  e <= -2 ->
  Z.of_N (rescale_coef ROUND_HALF_UP c e (-2))
  = (2 * Z.of_N c + 10 ^ (-2 - e)) / (2 * 10 ^ (-2 - e)).
Proof.
  intros He. assert (HP : 0 < 10 ^ (-2 - e)) by (apply Z.pow_pos_nonneg; lia).
  unfold rescale_coef. destruct (N.eqb_spec c 0) as [->|Hc].
  - symmetry. apply Z.div_small. lia.
  - destruct (Z.leb_spec (-2) e).
    + replace e with (-2) by lia. change (pow10 (-2 - -2)) with 1.
      change (10 ^ (-2 - -2)) with 1. rewrite Z2N.id by lia.
      apply (Z.div_unique _ _ _ 1); lia.
    + rewrite RoundFacts.round_coef_half_up by lia. reflexivity.
Qed.

(** [_fix] followed by the rescale to two decimals, for a coefficient
    whose exponent is far from the bounds of the context: with [k] the
    number of digits [_fix] drops, the result is [V] rounded half up at
    [j = -2 - (e + k)] digits, where [V] is the coefficient rounded at
    [k] digits. *)
Lemma fix_then_rescale (s : bool) (c : N) (e : Z) :
  c <> 0%N -> Etiny <= e -> e + ndigits c <= 1000 ->
  let k := Z.max 0 (ndigits c - prec) in
  e + k <= -2 ->
  exists c' e' V,
    fix_ s c e = Ok (Fin s c' e')
    /\ (V = Z.of_N c / 10 ^ k \/ V = Z.of_N c / 10 ^ k + 1)
    /\ (2 * (Z.of_N c mod 10 ^ k) < 10 ^ k -> V = Z.of_N c / 10 ^ k)
    /\ Z.of_N (rescale_coef ROUND_HALF_UP c' e' (-2))
       = (2 * V + 10 ^ (-2 - (e + k))) / (2 * 10 ^ (-2 - (e + k))).
Proof.
  intros Hc He Hr k Hk.
  pose proof (DigitsFacts.ndigits_pos c) as Hnp. fold ndigits in Hnp.
  pose proof (DigitsFacts.ndigits_lower c Hc) as Hlo. fold ndigits in Hlo.
  pose proof (DigitsFacts.ndigits_upper c) as Hup. fold ndigits in Hup.
  destruct (Z_le_gt_dec (ndigits c) prec) as [Hn|Hn].
  - (* no rounding *)
    assert (Ek : k = 0) by (unfold k; lia). rewrite Ek in *.
    exists c, e, (Z.of_N c). rewrite Z.add_0_r in *.
    split; [apply DecFacts.fix_fits; cbn [fits]; unfold adjusted, Emax; lia|].
    change (10 ^ 0) with 1. rewrite Z.div_1_r, Z.mod_1_r.
    split; [by left|]. split; [reflexivity|]. by apply rescale_half_up.
  - assert (Ek : k = ndigits c - prec) by (unfold k; lia).
    assert (Hk1 : 1 <= k) by lia.
    assert (HP : 0 < 10 ^ k) by (apply Z.pow_pos_nonneg; lia).
    destruct (round_coef_cases ROUND_HALF_EVEN c k ltac:(lia)) as [HV Hdown].
    unfold pow10 in HV, Hdown.
    set (coeff := round_coef ROUND_HALF_EVEN c k) in *.
    assert (Hq : 10 ^ 27 <= Z.of_N c / 10 ^ k < 10 ^ 28).
    { assert (En : ndigits c = 28 + k) by (unfold prec in Ek; lia).
      rewrite En in Hup, Hlo.
      replace (28 + k - 1) with (k + 27) in Hlo by lia.
      rewrite Z.pow_add_r in Hup, Hlo by lia. split.
      - apply Z.div_le_lower_bound; lia.
      - apply Z.div_lt_upper_bound; lia. }
    unfold fix_. destruct (N.eqb_spec c 0) as [|_]; [contradiction|].
    replace (ndigits c + e - prec) with (e + k) by lia.
    unfold Etop, Emax at 1.
    destruct (Z.ltb_spec (999999 - prec + 1) (e + k)); [unfold prec in *; lia|].
    rewrite Z.max_l by lia.
    destruct (Z.ltb_spec e (e + k)); [|lia].
    replace (e + k - e) with k by lia. unfold ctx_rounding. fold coeff.
    destruct (Z.ltb_spec prec (ndigits coeff)) as [Hcarry|Hnocarry].
    + (* the rounding carried into a 29th digit *)
      assert (Ecoeff : Z.of_N coeff = 10 ^ 28).
      { destruct (Z_lt_ge_dec (Z.of_N coeff) (10 ^ 28)) as [Hlt|Hge]; [|lia].
        pose proof (DigitsFacts.ndigits_le coeff 28 ltac:(lia) Hlt) as H28.
        fold ndigits in H28. unfold prec in Hcarry. lia. }
      unfold Emax. destruct (Z.ltb_spec (999999 - prec + 1) (e + k + 1));
        [unfold prec in *; lia|].
      exists (coeff / 10)%N, (e + k + 1), (Z.of_N coeff).
      split; [reflexivity|]. split; [exact HV|]. split; [exact Hdown|].
      assert (E27 : Z.of_N (coeff / 10) = 10 ^ 27).
      { rewrite N2Z.inj_div, Ecoeff. reflexivity. }
      unfold rescale_coef. destruct (N.eqb_spec (coeff / 10) 0) as [E0|_]; [lia|].
      destruct (Z.leb_spec (-2) (e + k + 1)).
      * rewrite E27, Ecoeff.
        assert (Hc2 : e + k = -2 \/ e + k = -3) by lia.
        destruct Hc2 as [-> | ->]; reflexivity.
      * rewrite RoundFacts.round_coef_half_up by lia. rewrite E27, Ecoeff.
        unfold pow10. set (j := -2 - (e + k)).
        replace (-2 - (e + k + 1)) with (j - 1) by (unfold j; lia).
        assert (Hj : 10 ^ j = 10 * 10 ^ (j - 1)).
        { replace j with (Z.succ (j - 1)) at 1 by lia.
          apply Z.pow_succ_r. unfold j. lia. }
        assert (0 < 10 ^ (j - 1)) by (apply Z.pow_pos_nonneg; unfold j; lia).
        apply div_eq_cross; lia.
    + exists coeff, (e + k), (Z.of_N coeff).
      split; [reflexivity|]. split; [exact HV|]. split; [exact Hdown|].
      by apply rescale_half_up.
Qed.

Lemma ndigits_le_30 (c : Z) : 0 < c < 10 ^ 30 -> ndigits (Z.to_N c) <= 30.
Proof. intros H. apply DigitsFacts.ndigits_le; [lia|]. rewrite Z2N.id; lia. Qed.

(** A total of at most 27 digits of cents, divided by a positive number
    of servings and rescaled to two decimals, is the quotient rounded
    half up: the rounding of the division to 28 digits does no harm. *)
Lemma div_serving (s : bool) (t : N) (n : Z) :
  t <> 0%N -> ndigits t <= 27 -> 1 <= n -> ndigits (Z.abs_N n) <= 999000 ->
  exists c' e',
    div (Fin s t (-2)) (of_int n) = Ok (Fin s c' e')
    /\ Z.of_N (rescale_coef ROUND_HALF_UP c' e' (-2)) = (2 * Z.of_N t + n) / (2 * n).
Proof.
  intros Ht Hnt Hn Hnn. unfold of_int.
  destruct (Z.ltb_spec n 0) as [|_]; [lia|].
  set (nn := Z.abs_N n) in *.
  assert (Enn : Z.of_N nn = n) by (unfold nn; lia).
  assert (Hnn0 : nn <> 0%N) by lia.
  pose proof (DigitsFacts.ndigits_pos t) as Hpt. fold ndigits in Hpt.
  pose proof (DigitsFacts.ndigits_lower t Ht) as Hlt. fold ndigits in Hlt.
  pose proof (DigitsFacts.ndigits_upper t) as Hut. fold ndigits in Hut.
  pose proof (DigitsFacts.ndigits_pos nn) as Hpn. fold ndigits in Hpn.
  pose proof (DigitsFacts.ndigits_lower nn Hnn0) as Hln. fold ndigits in Hln.
  pose proof (DigitsFacts.ndigits_upper nn) as Hun. fold ndigits in Hun.
  rewrite Enn in Hln, Hun.
  unfold div. cbn [check_nans sign_of]. rewrite xorb_false_r.
  destruct (N.eqb_spec nn 0) as [|_]; [contradiction|].
  destruct (N.eqb_spec t 0) as [|_]; [contradiction|].
  cbv zeta. rewrite Enn. unfold prec.
  set (shift := ndigits nn - ndigits t + 28 + 1).
  assert (Hs3 : 3 <= shift) by (unfold shift; lia).
  destruct (Z.leb_spec 0 shift) as [_|]; [|lia].
  replace (-2 - 0 - (-2 - 0 - shift)) with shift by lia.
  replace (-2 - 0 - shift) with (-2 - shift) by lia.
  unfold pow10. set (X := Z.of_N t * 10 ^ shift).
  assert (HPs : 0 < 10 ^ shift) by (apply Z.pow_pos_nonneg; lia).
  assert (HX : 0 < X) by (unfold X; lia).
  (* the quotient has 29 or 30 digits *)
  assert (Hq0 : 10 ^ 28 <= X / n < 10 ^ 30).
  { assert (E1 : 10 ^ (ndigits t - 1) * 10 ^ shift = 10 ^ ndigits nn * 10 ^ 28).
    { rewrite <- !Z.pow_add_r by lia. f_equal. unfold shift. lia. }
    assert (E2 : 10 ^ ndigits t * 10 ^ shift = 10 ^ (ndigits nn - 1) * 10 ^ 30).
    { rewrite <- !Z.pow_add_r by lia. f_equal. unfold shift. lia. }
    split.
    - apply Z.div_le_lower_bound; [lia|]. unfold X. nia.
    - apply Z.div_lt_upper_bound; [lia|]. unfold X. nia. }
  pose proof (Z.div_mod X n ltac:(lia)) as Hdm.
  pose proof (Z.mod_pos_bound X n ltac:(lia)) as Hrem.
  set (q0 := X / n) in *. set (rem := X mod n) in *.
  assert (Hfine : forall j, ndigits nn <= j -> n < 10 ^ j /\ 1 <= j).
  { intros j Hj. split; [|lia].
    assert (10 ^ ndigits nn <= 10 ^ j) by (apply Z.pow_le_mono_r; lia). lia. }
  destruct (Z.eqb_spec rem 0) as [Hz|Hnz].
  - (* an exact quotient, stripped of trailing zeros *)
    destruct (strip_to_ideal_spec (Z.to_nat shift) q0 (-2 - shift) ltac:(lia))
      as (z & Hz1 & Hc1 & He1 & Hpos).
    destruct (strip_to_ideal (Z.to_nat shift) q0 (-2 - shift)) as [c1 e1].
    cbn [fst snd] in *.
    assert (HPz : 0 < 10 ^ z) by (apply Z.pow_pos_nonneg; lia).
    assert (Hc30 : 0 < c1 < 10 ^ 30) by nia.
    pose proof (ndigits_le_30 c1 Hc30) as Hn30.
    pose proof (DigitsFacts.ndigits_pos (Z.to_N c1)) as Hp1. fold ndigits in Hp1.
    assert (Hzk : z + Z.max 0 (ndigits (Z.to_N c1) - prec) <= 2
                  \/ Z.max 0 (ndigits (Z.to_N c1) - prec) = 0).
    { destruct (Z_le_gt_dec (ndigits (Z.to_N c1)) prec); [right; lia|left].
      assert (Hz30 : ndigits (Z.to_N c1) <= 30 - z).
      { destruct (Z_le_gt_dec 30 z) as [Hbig|Hsmall].
        - exfalso. assert (10 ^ 30 <= 10 ^ z) by (apply Z.pow_le_mono_r; lia). nia.
        - apply DigitsFacts.ndigits_le; [lia|]. rewrite Z2N.id by lia.
          assert (E : 10 ^ 30 = 10 ^ (30 - z) * 10 ^ z).
          { rewrite <- Z.pow_add_r by lia. f_equal. lia. }
          nia. }
      unfold prec in *. lia. }
    destruct (fix_then_rescale s (Z.to_N c1) e1) as (c' & e' & V & Hfix & HV & Hdown & Hres).
    { lia. } { unfold Etiny, Emin, prec. lia. } { lia. } { unfold prec in *. lia. }
    exists c', e'. split; [exact Hfix|]. rewrite Hres.
    rewrite Z2N.id in HV, Hdown by lia.
    set (k := Z.max 0 (ndigits (Z.to_N c1) - prec)) in *.
    assert (Hk0 : 0 <= k) by (unfold k; lia).
    assert (HPk : 0 < 10 ^ k) by (apply Z.pow_pos_nonneg; lia).
    assert (Hj0 : 0 <= -2 - (e1 + k)) by lia.
    apply (final_round (Z.of_N t) n (-2 - (e1 + k)) V c1 (10 ^ k)); try lia; try assumption.
    + (* c1 / 10^k is t / n at that scale *)
      assert (E : 10 ^ shift = 10 ^ (-2 - (e1 + k)) * 10 ^ k * 10 ^ z).
      { rewrite <- !Z.pow_add_r by lia. f_equal. lia. }
      assert (Hcn : c1 * 10 ^ z * n = Z.of_N t * (10 ^ (-2 - (e1 + k)) * 10 ^ k * 10 ^ z)).
      { rewrite <- E. fold X. lia. }
      nia.
    + destruct Hzk as [Hzk|Hzk].
      * right. apply Hfine. unfold shift in Hzk. lia.
      * left. rewrite Hzk. change (10 ^ 0) with 1. apply Z.mod_1_r.
  - (* an inexact quotient, with the adjustment for the rounding *)
    set (coeff := if q0 mod 5 =? 0 then q0 + 1 else q0).
    assert (Hcoeff : 10 ^ 28 <= coeff < 10 ^ 30).
    { unfold coeff. destruct (Z.eqb_spec (q0 mod 5) 0) as [E5|]; [|lia].
      pose proof (Z.div_mod q0 5 ltac:(lia)). lia. }
    pose proof (ndigits_le_30 coeff ltac:(lia)) as Hn30.
    assert (Hn29 : 28 < ndigits (Z.to_N coeff)).
    { apply DigitsFacts.ndigits_gt; [lia|]. rewrite Z2N.id; lia. }
    destruct (fix_then_rescale s (Z.to_N coeff) (-2 - shift))
      as (c' & e' & V & Hfix & HV & Hdown & Hres).
    { lia. } { unfold Etiny, Emin, prec, shift. lia. } { lia. } { unfold prec. lia. }
    exists c', e'. split; [exact Hfix|]. rewrite Hres.
    rewrite Z2N.id in HV, Hdown by lia.
    set (k := Z.max 0 (ndigits (Z.to_N coeff) - prec)) in *.
    assert (Hk : 1 <= k <= 2) by (unfold k, prec; lia).
    assert (HPk : 0 < 10 ^ k) by (apply Z.pow_pos_nonneg; lia).
    destruct (sticky_round X n k V ltac:(lia) Hn ltac:(lia) Hnz HV Hdown) as [HV' Hdown'].
    apply (final_round (Z.of_N t) n (-2 - (-2 - shift + k)) V X (n * 10 ^ k));
      try lia; try assumption.
    + unfold X. replace (-2 - (-2 - shift + k)) with (shift - k) by lia.
      assert (E : 10 ^ shift = 10 ^ (shift - k) * 10 ^ k).
      { rewrite <- Z.pow_add_r by lia. f_equal. lia. }
      rewrite E. lia.
    + right. apply Hfine. unfold shift. lia.
Qed.

(** [t / n] rounded half up, for a signed [t] and a positive [n]. *)
Lemma round_half_up_ratio (s : bool) (t : N) (n : Z) :
  1 <= n ->
  round_half_up (inject_Z (signed s t) / inject_Z n)
  = signed s (Z.to_N ((2 * Z.of_N t + n) / (2 * n))).
Proof.
  intros Hn.
  assert (Hm : 0 <= (2 * Z.of_N t + n) / (2 * n)) by (apply Z.div_pos; lia).
  assert (Hn0 : ~ (inject_Z n == 0)%Q).
  { intros E. unfold Qeq in E. simpl in E. lia. }
  assert (Hnpos : (0 < inject_Z n)%Q).
  { change 0%Q with (inject_Z 0). rewrite <- Zlt_Qlt. lia. }
  assert (Habs : Qfloor (inject_Z (Z.of_N t) / inject_Z n + (1 # 2))
                 = (2 * Z.of_N t + n) / (2 * n)).
  { assert (E : (inject_Z (Z.of_N t) / inject_Z n + (1 # 2)
                 == inject_Z (2 * Z.of_N t + n) / inject_Z (2 * n))%Q).
    { rewrite inject_Z_plus, !inject_Z_mult. field. exact Hn0. }
    rewrite E, <- Zdiv_Qdiv. reflexivity. }
  assert (Hpos : (0 <= inject_Z (Z.of_N t) / inject_Z n)%Q).
  { apply Qle_shift_div_l; [exact Hnpos|]. rewrite Qmult_0_l.
    change 0%Q with (inject_Z 0). rewrite <- Zle_Qle. lia. }
  unfold round_half_up, signed. destruct s.
  - destruct (N.eqb_spec t 0) as [->|Ht].
    + change (inject_Z (- Z.of_N 0)) with 0%Q.
      assert (E0 : (0 / inject_Z n == 0)%Q) by (field; exact Hn0).
      assert (B : Qle_bool 0 (0 / inject_Z n) = true).
      { apply Qle_bool_iff. rewrite E0. apply Qle_refl. }
      rewrite B. rewrite (Qfloor_comp _ (inject_Z 0 + (1 # 2)))
        by (rewrite E0; reflexivity).
      rewrite RoundFacts.Qfloor_half.
      rewrite (Z.div_small (2 * Z.of_N 0 + n) (2 * n)) by lia. reflexivity.
    + assert (Hneg : (inject_Z (- Z.of_N t) / inject_Z n < 0)%Q).
      { apply Qlt_shift_div_r; [exact Hnpos|]. rewrite Qmult_0_l.
        change 0%Q with (inject_Z 0). rewrite <- Zlt_Qlt. lia. }
      destruct (Qle_bool 0 (inject_Z (- Z.of_N t) / inject_Z n)) eqn:B.
      * apply Qle_bool_iff in B. exfalso. eapply Qlt_not_le; eassumption.
      * rewrite (Qfloor_comp _ (inject_Z (Z.of_N t) / inject_Z n + (1 # 2))).
        -- rewrite Habs, Z2N.id by lia. reflexivity.
        -- rewrite inject_Z_opp. field. exact Hn0.
  - assert (B : Qle_bool 0 (inject_Z (Z.of_N t) / inject_Z n) = true)
      by (by apply Qle_bool_iff).
    rewrite B, Habs, Z2N.id by lia. reflexivity.
Qed.

(** The division and the final quantize of [calculate_cost_per_serving]
    on a total in cents of at most 27 digits. *)
Lemma per_serving_rounds (s : bool) (t : N) (n : Z) :
  ndigits t <= 27 -> 1 <= n -> ndigits (Z.abs_N n) <= 999000 ->
  exists c,
    (div (Fin s t (-2)) (of_int n) ≫= Calc._quantize_money) = Ok (Fin s c (-2))
    /\ Z.of_N c = (2 * Z.of_N t + n) / (2 * n)
    /\ signed s c = round_half_up (inject_Z (signed s t) / inject_Z n).
Proof.
  intros Hnt Hn Hnn.
  assert (Hm : 0 <= (2 * Z.of_N t + n) / (2 * n)) by (apply Z.div_pos; lia).
  destruct (N.eq_dec t 0%N) as [->|Ht].
  - exists 0%N. split; [|split].
    + unfold of_int, div. destruct (Z.ltb_spec n 0); [lia|].
      cbn [check_nans sign_of]. destruct (N.eqb_spec (Z.abs_N n) 0); [lia|].
      cbn [N.eqb]. rewrite xorb_false_r. by destruct s.
    + rewrite (Z.div_small (2 * Z.of_N 0 + n) (2 * n)) by lia. reflexivity.
    + rewrite round_half_up_ratio by exact Hn.
      rewrite (Z.div_small (2 * Z.of_N 0 + n) (2 * n)) by lia. reflexivity.
  - destruct (div_serving s t n Ht Hnt Hn Hnn) as (c' & e' & Hdiv & Hres).
    assert (Hsmall : (2 * Z.of_N t + n) / (2 * n) < 10 ^ 28).
    { pose proof (DigitsFacts.ndigits_upper t) as Hu. fold ndigits in Hu.
      assert (10 ^ ndigits t <= 10 ^ 27) by (apply Z.pow_le_mono_r; lia).
      assert ((2 * Z.of_N t + n) / (2 * n) < Z.of_N t + 1); [|lia].
      apply Z.div_lt_upper_bound; nia. }
    destruct (CalcFacts.quantize_money_cents s c' e') as (c & Hq & Hs).
    { rewrite RoundFacts.cents_of_decimal. unfold signed. destruct s; lia. }
    rewrite RoundFacts.cents_of_decimal in Hs.
    assert (Ec : c = rescale_coef ROUND_HALF_UP c' e' (-2)).
    { unfold signed in Hs. destruct s; lia. }
    exists c. rewrite Hdiv. cbn [mbind result_bind]. split; [exact Hq|].
    split; [by rewrite Ec|].
    rewrite round_half_up_ratio by exact Hn. f_equal. lia.
Qed.

End ServingFacts.

(** ** Signs *)

Module SignFacts.

Import Dec Spec.

Lemma nonneg_fin (s : bool) (c : N) (e : Z) :
  nonneg (Fin s c e) <-> s = false \/ c = 0%N.
Proof.
  unfold nonneg, signum, signed. cbn [is_nan]. destruct s.
  - split; [intros [_ H]; right; lia | intros [H| ->]; [discriminate | split; [reflexivity | simpl; lia]]].
  - split; [by left | intros _; split; [reflexivity | lia]].
Qed.

Lemma positive_cases (d : Decimal) :
  0 < signum d -> (exists c e, d = Fin false c e /\ c <> 0%N) \/ d = Inf false.
Proof.
  destruct d as [s c e|s|]; cbn [signum]; [| |lia].
  - unfold signed. destruct s; [lia|]. intros H. left. exists c, e. split; [reflexivity|lia].
  - destruct s; [lia|]. by right.
Qed.

Lemma nonneg_cases (d : Decimal) :
  nonneg d -> (exists s c e, d = Fin s c e /\ (s = false \/ c = 0%N)) \/ d = Inf false.
Proof.
  destruct d as [s c e|s|]; intros H.
  - left. exists s, c, e. split; [reflexivity|]. exact (proj1 (nonneg_fin s c e) H).
  - destruct H as [_ H]. cbn in H. destruct s; [lia|]. by right.
  - by destruct H.
Qed.

Lemma fix_nonneg (s : bool) (c : N) (e : Z) (v : Decimal) :
  s = false \/ c = 0%N -> fix_ s c e = Ok v -> nonneg v.
Proof.
  intros H Hf. destruct (DialogFacts.fix_shape s c e v Hf) as (c' & e' & -> & Hz).
  apply (proj2 (nonneg_fin s c' e')). destruct H as [H|H]; [by left | right; auto].
Qed.

Lemma nonneg_inf : nonneg (Inf false).
Proof. split; [reflexivity | simpl; lia]. Qed.

Lemma mul_nonneg (a b v : Decimal) :
  0 < signum a -> nonneg b -> mul a b = Ok v -> nonneg v.
Proof.
  intros Ha Hb.
  destruct (positive_cases a Ha) as [(c1 & e1 & -> & Hc1)| ->];
    destruct (nonneg_cases b Hb) as [(s2 & c2 & e2 & -> & H2)| ->];
    cbn [mul check_nans sign_of xorb is_zero].
  - apply fix_nonneg. destruct H2 as [->| ->]; [by left | right; lia].
  - destruct (N.eqb_spec c1 0); [discriminate|]. intros [= <-]. apply nonneg_inf.
  - destruct (N.eqb_spec c2 0) as [|Hc2]; [discriminate|]. intros [= <-].
    destruct H2 as [->|]; [apply nonneg_inf | contradiction].
  - intros [= <-]. apply nonneg_inf.
Qed.

Lemma align_nonneg (s : bool) (c : N) (e e' : Z) :
  s = false \/ c = 0%N -> 0 <= align s c e e'.
Proof.
  intros H. unfold align, signed.
  assert (0 <= pow10 (e - e')) by (unfold pow10; apply Z.pow_nonneg; lia).
  destruct H as [->| ->]; [nia | destruct s; simpl; lia].
Qed.

Lemma add_nonneg (a b v : Decimal) :
  nonneg a -> nonneg b -> add a b = Ok v -> nonneg v.
Proof.
  intros Ha Hb.
  destruct (nonneg_cases a Ha) as [(s1 & c1 & e1 & -> & H1)| ->];
    destruct (nonneg_cases b Hb) as [(s2 & c2 & e2 & -> & H2)| ->];
    cbn [add check_nans]; cbv zeta; try (intros [= <-]; apply nonneg_inf).
  pose proof (align_nonneg s1 c1 e1 (Z.min e1 e2) H1).
  pose proof (align_nonneg s2 c2 e2 (Z.min e1 e2) H2).
  destruct (Z.eqb_spec (align s1 c1 e1 (Z.min e1 e2) + align s2 c2 e2 (Z.min e1 e2)) 0).
  - apply fix_nonneg. by right.
  - apply fix_nonneg. left. apply Z.ltb_ge. lia.
Qed.

Lemma quantize_nonneg (rnd : rounding) (a q v : Decimal) :
  nonneg a -> is_nan q = false -> quantize rnd a q = Ok v -> nonneg v.
Proof.
  intros Ha Hq.
  destruct (nonneg_cases a Ha) as [(s & c & e & -> & H)| ->];
    destruct q as [qs qc qe|qs|qs qb qp]; try discriminate Hq;
    cbn [quantize check_nans fix_nan];
    try discriminate; try (intros [= <-]; apply nonneg_inf).
  destruct (negb _); [discriminate|].
  destruct (N.eqb_spec c 0) as [->|Hc]; [apply fix_nonneg; by right|].
  repeat (match goal with |- context [if ?b then _ else _] => destruct b end;
          try discriminate).
  apply fix_nonneg. destruct H as [H|H]; [by left | contradiction].
Qed.

Lemma div_nonneg (a v : Decimal) (n : Z) :
  nonneg a -> 1 <= n -> div a (of_int n) = Ok v -> nonneg v.
Proof.
  intros Ha Hn. unfold of_int. destruct (Z.ltb_spec n 0) as [?|_]; [lia|].
  destruct (nonneg_cases a Ha) as [(s & c & e & -> & H)| ->];
    cbn [div check_nans sign_of]; [|intros [= <-]; apply nonneg_inf].
  rewrite xorb_false_r.
  destruct (N.eqb_spec (Z.abs_N n) 0); [lia|].
  destruct (N.eqb_spec c 0) as [->|Hc]; [apply fix_nonneg; by right|].
  destruct H as [->|]; [|contradiction]. cbv zeta.
  destruct (_ =? 0).
  - destruct (strip_to_ideal _ _ _). apply fix_nonneg. by left.
  - apply fix_nonneg. by left.
Qed.

Lemma sum_costs_nonneg (l : list Ingredient) :
  Forall valid_ingredient l ->
  forall total v, nonneg total -> Calc.sum_costs total l = Ok v -> nonneg v.
Proof.
  induction 1 as [|i l (_ & Hq & Hpn & Hp) _ IH]; intros total v Ht.
  - by intros [= <-].
  - cbn [Calc.sum_costs].
    destruct (mul (i_quantity i) (i_price_per_unit i)) as [qp|] eqn:Em;
      cbn [mbind result_bind]; [|discriminate].
    destruct (add total qp) as [total'|] eqn:Ea; cbn [mbind result_bind]; [|discriminate].
    apply IH. eapply add_nonneg; [exact Ht | | exact Ea].
    eapply mul_nonneg; [exact Hq | split; eassumption | exact Em].
Qed.

End SignFacts.

(** [calculate_total_cost] returns when the loop is exact and the total
    in cents fits the context. *)
Lemma total_cost_returns (recipe : Recipe) :
  Spec.exact_steps (Fin false 0 0) (r_ingredients recipe) ->
  Z.abs (Spec.cents (Spec.exact_total (r_ingredients recipe))) < 10 ^ 28 ->
  exists s c, Calc.calculate_total_cost recipe = Ok (Fin s c (-2)).
Proof.
  intros Hsteps Hb. unfold Calc.calculate_total_cost.
  destruct (ValFacts.sum_costs_exact (r_ingredients recipe) (Fin false 0 0) I Hsteps)
    as (Hrun & Hfin & Hval).
  rewrite Hrun. cbn [mbind result_bind].
  destruct (Spec.xsum (Fin false 0 0) (r_ingredients recipe)) as [s c e| |] eqn:E;
    try contradiction.
  destruct (CalcFacts.quantize_money_cents s c e) as (c' & Hq & _).
  { rewrite (CalcFacts.cents_comp _ (Spec.exact_total (r_ingredients recipe))); [exact Hb|].
    rewrite Hval. cbn [Spec.Qval]. unfold Dec.signed.
    change (inject_Z (Z.of_N 0)) with 0%Q. ring. }
  exists s, c'. exact Hq.
Qed.

(** C2, as the code has it.  With [servings <= 0] the call raises
    [ValueError("Servings must be >= 1")], whatever the ingredients; this
    is the exception, class and message, that [Recipe.validate] raises
    for such a recipe with a name.  With [servings >= 1] and a total cost
    of at most 27 digits in cents, the call returns a decimal with
    exponent -2 whose value in cents is the total in cents over the
    servings, rounded half up. *)
Theorem calculate_cost_per_serving_spec (recipe : Recipe) :
  (r_servings recipe <= 0 ->
   Calc.calculate_cost_per_serving recipe = Raise (ValueError "Servings must be >= 1")
   /\ (Model.blank (r_name recipe) = false ->
       Model.validate recipe = Raise (ValueError "Servings must be >= 1")))
  /\ (forall s t,
        1 <= r_servings recipe ->
        Dec.ndigits (Z.abs_N (r_servings recipe)) <= 999000 ->
        Calc.calculate_total_cost recipe = Ok (Fin s t (-2)) ->
        Dec.ndigits t <= 27 ->
        exists c,
          Calc.calculate_cost_per_serving recipe = Ok (Fin s c (-2))
          /\ Dec.signed s c
             = Spec.round_half_up
                 (inject_Z (Dec.signed s t) / inject_Z (r_servings recipe))).
Proof.
  split.
  - intros Hs. split.
    + unfold Calc.calculate_cost_per_serving.
      destruct (Z.leb_spec (r_servings recipe) 0); [reflexivity | lia].
    + intros Hn. unfold Model.validate. rewrite Hn.
      destruct (Z.ltb_spec (r_servings recipe) 1); [reflexivity | lia].
  - intros s t Hs Hd Ht Hn. unfold Calc.calculate_cost_per_serving.
    destruct (Z.leb_spec (r_servings recipe) 0); [lia|].
    rewrite Ht. cbn [mbind result_bind].
    destruct (ServingFacts.per_serving_rounds s t (r_servings recipe) Hn Hs Hd)
      as (c & Hc & _ & Hr).
    exists c. split; [exact Hc | exact Hr].
Qed.

Lemma calculate_cost_per_serving_spec_witness :
  1 <= r_servings gin_tonic
  /\ Dec.ndigits (Z.abs_N (r_servings gin_tonic)) <= 999000
  /\ Calc.calculate_total_cost gin_tonic = Ok (Fin false 115 (-2))
  /\ Dec.ndigits 115 <= 27
  /\ exists c,
      Calc.calculate_cost_per_serving gin_tonic = Ok (Fin false c (-2))
      /\ Dec.signed false c
         = Spec.round_half_up
             (inject_Z (Dec.signed false 115) / inject_Z (r_servings gin_tonic)).
Proof.
  assert (H1 : 1 <= r_servings gin_tonic) by (vm_compute; discriminate).
  assert (H2 : Dec.ndigits (Z.abs_N (r_servings gin_tonic)) <= 999000)
    by (vm_compute; discriminate).
  assert (H3 : Calc.calculate_total_cost gin_tonic = Ok (Fin false 115 (-2)))
    by (vm_compute; reflexivity).
  assert (H4 : Dec.ndigits 115 <= 27) by (vm_compute; discriminate).
  split; [exact H1|]. split; [exact H2|]. split; [exact H3|]. split; [exact H4|].
  exact (proj2 (calculate_cost_per_serving_spec gin_tonic) false 115%N H1 H2 H3 H4).
Defined.

(** C2 as stated fails.  The quotient is first rounded to 28 digits by
    the context and then to two decimals: a total of
    60000000000000000000000000.00 over 12000000000000000000000000001
    servings is below half a cent, the 28-digit quotient is
    0.005000000000000000000000000000, and the call returns 0.01 where
    the exact quotient rounds to 0.00. *)
Lemma calculate_cost_per_serving_rounds_twice :
  let recipe :=
    mkRecipe "Punch" [mkIngredient "Gold" (Fin false 1 0) "kg" (Fin false 6 25)]
      12000000000000000000000000001 in
  Calc.calculate_total_cost recipe = Ok (Fin false 6000000000000000000000000000 (-2))
  /\ Dec.div (Fin false 6000000000000000000000000000 (-2)) (Dec.of_int (r_servings recipe))
     = Ok (Fin false 5000000000000000000000000000 (-30))
  /\ Calc.calculate_cost_per_serving recipe = Ok (Fin false 1 (-2))
  /\ Spec.round_half_up
       (inject_Z 6000000000000000000000000000 / inject_Z (r_servings recipe)) = 0.
Proof. vm_compute. repeat split; reflexivity. Qed.

Lemma get_recipe_row_price_witness :
  let dlg :=
    mkDialog "Gin Tonic"
      [mkRow "Gin" "1.50" "50" "ml" "0.02";
       mkRow "" "" "" "" "";
       mkRow "Tonic" "" "150" "ml" "0.001"] "" "" in
  let recipe :=
    mkRecipe "Gin Tonic"
      [mkIngredient "Gin" (Fin false 50 0) "ml" (Fin false 3 (-2));
       mkIngredient "Tonic" (Fin false 150 0) "ml" (Fin false 1 (-3))] 1 in
  CostDialog.get_recipe dlg = Ok recipe
  /\ Forall2
       (fun row ing =>
          i_name ing = Str.strip (name_text row)
          /\ CostDialog._parse_decimal (CostDialog.str_or (qty_text row) "0")
             = Ok (i_quantity ing)
          /\ 0 < Spec.signum (i_quantity ing)
          /\ (forall P,
                Str.is_empty (Str.strip (row_price_text row)) = false ->
                CostDialog.try_decimal (Str.strip (row_price_text row)) = Some P ->
                Dec.div P (i_quantity ing) = Ok (i_price_per_unit ing))
          /\ (Str.is_empty (Str.strip (row_price_text row)) = true
              \/ CostDialog.try_decimal (Str.strip (row_price_text row)) = None ->
              CostDialog._parse_decimal (CostDialog.str_or (ppu_text row) "0")
              = Ok (i_price_per_unit ing)))
       (filter (fun row => Str.is_empty (Str.strip (name_text row)) = false) (table dlg))
       (r_ingredients recipe).
Proof.
  intros dlg recipe.
  assert (H : CostDialog.get_recipe dlg = Ok recipe) by (vm_compute; reflexivity).
  split; [exact H|]. exact (get_recipe_row_price dlg recipe H).
Defined.

(** C4 as stated fails in its parenthesis.  The price per unit is the
    quotient rounded to 28 digits, so quantity times price per unit need
    not be the row price: a row price of 0.005 over a quantity of 14
    gives 0.0003571428571428571428571428571, the row contributes
    0.004999999999999999999999999999 and the total cost is 0.00, where
    the row price itself rounds to 0.01. *)
Lemma get_recipe_row_price_inexact :
  let dlg := mkDialog "Shot" [mkRow "Bitters" "0.005" "14" "dash" ""] "" "" in
  let ing :=
    mkIngredient "Bitters" (Fin false 14 0) "dash"
      (Fin false 3571428571428571428571428571 (-31)) in
  CostDialog.get_recipe dlg = Ok (mkRecipe "Shot" [ing] 1)
  /\ CostDialog.try_decimal (Str.strip "0.005") = Some (Fin false 5 (-3))
  /\ Dec.mul (i_quantity ing) (i_price_per_unit ing)
     = Ok (Fin false 4999999999999999999999999999 (-30))
  /\ Calc.calculate_total_cost (mkRecipe "Shot" [ing] 1) = Ok (Fin false 0 (-2))
  /\ Calc._quantize_money (Fin false 5 (-3)) = Ok (Fin false 1 (-2)).
Proof. vm_compute. repeat split; reflexivity. Qed.

Lemma ingredients_are_never_mutated_witness :
  let gin := Store.mkObj "Gin" (NDec (Fin false 50 0)) "ml" (NDec (Fin false 2 (-2))) in
  let cs :=
    [Store.CallIngredient "Tonic" (NStr "150") "ml" (NStr "0.001");
     Store.CallTotalCost (Store.mkRecipeRef "G&T" [0%nat; 1%nat] 2);
     Store.CallIngredientToDict 0;
     Store.CallGetRecipe (mkDialog "Gin" [mkRow "Gin" "1.50" "50" "ml" ""] "" "")] in
  [gin] !! 0%nat = Some gin /\ Store.exec_all cs [gin] !! 0%nat = Some gin.
Proof.
  intros gin cs. split; [reflexivity|].
  apply (ingredients_are_never_mutated cs [gin] 0%nat gin). reflexivity.
Defined.

(** C9.  For a recipe whose ingredients satisfy the construction
    invariant, every value [calculate_total_cost] returns and every value
    [calculate_cost_per_serving] returns is a number not below zero.  The
    total is returned when the loop is exact in the 28-digit context and
    the total in cents has at most 28 digits; the cost per serving is
    returned when servings >= 1 and the total in cents has at most 27
    digits. *)
Theorem costs_are_not_negative (recipe : Recipe) :
  Forall Spec.valid_ingredient (r_ingredients recipe) ->
  (forall v, Calc.calculate_total_cost recipe = Ok v -> Spec.nonneg v)
  /\ (forall v, Calc.calculate_cost_per_serving recipe = Ok v -> Spec.nonneg v)
  /\ (Spec.exact_steps (Fin false 0 0) (r_ingredients recipe) ->
      Z.abs (Spec.cents (Spec.exact_total (r_ingredients recipe))) < 10 ^ 28 ->
      exists v, Calc.calculate_total_cost recipe = Ok v /\ Spec.nonneg v)
  /\ (forall s t,
        1 <= r_servings recipe ->
        Dec.ndigits (Z.abs_N (r_servings recipe)) <= 999000 ->
        Calc.calculate_total_cost recipe = Ok (Fin s t (-2)) ->
        Dec.ndigits t <= 27 ->
        exists v, Calc.calculate_cost_per_serving recipe = Ok v /\ Spec.nonneg v).
Proof.
  intros Hv.
  assert (Htot : forall v, Calc.calculate_total_cost recipe = Ok v -> Spec.nonneg v).
  { intros v. unfold Calc.calculate_total_cost.
    destruct (Calc.sum_costs (Fin false 0 0) (r_ingredients recipe)) as [total|] eqn:E;
      cbn [mbind result_bind]; [|discriminate].
    apply SignFacts.quantize_nonneg; [|reflexivity].
    eapply SignFacts.sum_costs_nonneg; [exact Hv | | exact E].
    apply SignFacts.nonneg_fin. by left. }
  assert (Hper : forall v, Calc.calculate_cost_per_serving recipe = Ok v -> Spec.nonneg v).
  { intros v. unfold Calc.calculate_cost_per_serving.
    destruct (Z.leb_spec (r_servings recipe) 0); [discriminate|].
    destruct (Calc.calculate_total_cost recipe) as [total|] eqn:Et;
      cbn [mbind result_bind]; [|discriminate].
    destruct (Dec.div total (Dec.of_int (r_servings recipe))) as [per|] eqn:Ed;
      cbn [mbind result_bind]; [|discriminate].
    apply SignFacts.quantize_nonneg; [|reflexivity].
    eapply SignFacts.div_nonneg; [apply Htot; reflexivity | | exact Ed]. lia. }
  split; [exact Htot|]. split; [exact Hper|]. split.
  - intros Hsteps Hb. destruct (total_cost_returns recipe Hsteps Hb) as (s & c & E).
    exists (Fin s c (-2)). split; [exact E | by apply Htot].
  - intros s t Hs Hd Ht Hn.
    destruct (ServingFacts.per_serving_rounds s t (r_servings recipe) Hn Hs Hd)
      as (c & Hc & _).
    assert (E : Calc.calculate_cost_per_serving recipe = Ok (Fin s c (-2))).
    { unfold Calc.calculate_cost_per_serving.
      destruct (Z.leb_spec (r_servings recipe) 0); [lia|].
      rewrite Ht. exact Hc. }
    exists (Fin s c (-2)). split; [exact E | by apply Hper].
Qed.

Lemma costs_are_not_negative_witness :
  Forall Spec.valid_ingredient (r_ingredients gin_tonic)
  /\ Calc.calculate_total_cost gin_tonic = Ok (Fin false 115 (-2))
  /\ Spec.nonneg (Fin false 115 (-2))
  /\ Calc.calculate_cost_per_serving gin_tonic = Ok (Fin false 58 (-2))
  /\ Spec.nonneg (Fin false 58 (-2)).
Proof.
  assert (Hv : Forall Spec.valid_ingredient (r_ingredients gin_tonic)).
  { unfold gin_tonic. cbn [r_ingredients].
    repeat (apply Forall_cons; split; [vm_compute; repeat split; discriminate|]).
    apply Forall_nil_2. }
  assert (H1 : Calc.calculate_total_cost gin_tonic = Ok (Fin false 115 (-2)))
    by (vm_compute; reflexivity).
  assert (H2 : Calc.calculate_cost_per_serving gin_tonic = Ok (Fin false 58 (-2)))
    by (vm_compute; reflexivity).
  split; [exact Hv|]. split; [exact H1|].
  split; [exact (proj1 (costs_are_not_negative gin_tonic Hv) _ H1)|].
  split; [exact H2|].
  exact (proj1 (proj2 (costs_are_not_negative gin_tonic Hv)) _ H2).
Defined.

(** * Further properties *)

(** ** model.py *)

(** X1.  Constructing an ingredient again from the fields of one that was
    constructed gives the same ingredient: the normalisation and the
    checks of [__post_init__] are idempotent. *)
Theorem Ingredient_init_idempotent (name unit : string) (quantity price : num)
    (i : Ingredient) :
  Model.Ingredient_init name quantity unit price = Ok i ->
  Model.Ingredient_init (i_name i) (NDec (i_quantity i)) (i_unit i)
    (NDec (i_price_per_unit i)) = Ok i.
Proof.
  unfold Model.Ingredient_init at 1.
  destruct (Model.normalize quantity) as [q|]; cbn [mbind result_bind]; [|discriminate].
  destruct (Model.normalize price) as [p|]; cbn [mbind result_bind]; [|discriminate].
  intros H.
  assert (H' : Model.Ingredient_init name (NDec q) unit (NDec p) = Ok i) by exact H.
  destruct (DialogFacts.Ingredient_init_inv _ _ _ _ _ H') as [-> _]. exact H'.
Qed.

Lemma Ingredient_init_idempotent_witness :
  Model.Ingredient_init "Gin" (NInt 50) "ml" (NStr "0.02")
  = Ok (mkIngredient "Gin" (Fin false 50 0) "ml" (Fin false 2 (-2)))
  /\ Model.Ingredient_init "Gin" (NDec (Fin false 50 0)) "ml" (NDec (Fin false 2 (-2)))
     = Ok (mkIngredient "Gin" (Fin false 50 0) "ml" (Fin false 2 (-2))).
Proof.
  assert (H : Model.Ingredient_init "Gin" (NInt 50) "ml" (NStr "0.02")
              = Ok (mkIngredient "Gin" (Fin false 50 0) "ml" (Fin false 2 (-2))))
    by (vm_compute; reflexivity).
  split; [exact H|].
  exact (Ingredient_init_idempotent "Gin" "ml" (NInt 50) (NStr "0.02") _ H).
Defined.


(** X3.  [Ingredient.to_dict] loses nothing: two ingredients with the
    same dict are the same ingredient, the decimals with the same sign,
    digits and exponent. *)
Theorem Ingredient_to_dict_injective (i j : Ingredient) :
  Model.Ingredient_to_dict i = Model.Ingredient_to_dict j -> i = j.
Proof.
  intros E.
  destruct (DictFacts.to_dict_lookup i) as (Hn & Hq & Hu & Hp).
  destruct (DictFacts.to_dict_lookup j) as (Hn' & Hq' & Hu' & Hp').
  rewrite E in Hn, Hq, Hu, Hp.
  assert (Hinj : forall a b, DecStr.to_str a = DecStr.to_str b -> a = b).
  { intros a b Hab. pose proof (ParseFacts.of_str_to_str a) as Ha.
    rewrite Hab, ParseFacts.of_str_to_str in Ha. congruence. }
  destruct i as [n1 q1 u1 p1], j as [n2 q2 u2 p2]. cbn in *.
  f_equal; [congruence | apply Hinj; congruence | congruence | apply Hinj; congruence].
Qed.

Lemma Ingredient_to_dict_injective_witness :
  Model.Ingredient_to_dict (mkIngredient "Gin" (Fin false 50 0) "ml" (Fin false 2 (-2)))
  = Model.Ingredient_to_dict (mkIngredient "Gin" (Fin false 50 0) "ml" (Fin false 2 (-2)))
  /\ mkIngredient "Gin" (Fin false 50 0) "ml" (Fin false 2 (-2))
     = mkIngredient "Gin" (Fin false 50 0) "ml" (Fin false 2 (-2)).
Proof.
  split; [reflexivity|].
  apply (Ingredient_to_dict_injective
           (mkIngredient "Gin" (Fin false 50 0) "ml" (Fin false 2 (-2)))
           (mkIngredient "Gin" (Fin false 50 0) "ml" (Fin false 2 (-2)))).
  reflexivity.
Defined.

(** ** calc.py *)

Module MoneyFacts.

Import Dec Spec.

(** What [_quantize_money] returns is a decimal of two places and at
    most 28 digits, or the quiet NaN it was given. *)
Lemma quantize_money_shape (a v : Decimal) :
  Calc._quantize_money a = Ok v ->
  (exists s c, v = Fin s c (-2) /\ ndigits c <= prec /\ finite a)
  \/ (exists s p, v = NaN s false p /\ is_nan a = true).
Proof.
  unfold Calc._quantize_money, Calc.MONEY_QUANT.
  destruct a as [s c e|s|s [] p].
  - intros H. apply DialogFacts.quantize_shape in H as (c' & -> & Hn).
    left. exists s, c'. split; [reflexivity|]. split; [exact Hn | exact I].
  - discriminate.
  - discriminate.
  - cbn. intros [= <-]. right. eauto.
Qed.

Lemma quantize_fixed_point (rnd : rounding) (s : bool) (c : N) :
  ndigits c <= prec ->
  quantize rnd (Fin s c (-2)) (Fin false 1 (-2)) = Ok (Fin s c (-2)).
Proof.
  intros Hn. pose proof (DigitsFacts.ndigits_pos c) as Hp. fold ndigits in Hp.
  assert (Hfit : fits (Fin s c (-2))).
  { cbn [fits]. unfold adjusted, Etiny, Emax, Emin, prec in *. lia. }
  unfold quantize. cbn [check_nans].
  change (negb ((Etiny <=? -2) && (-2 <=? Emax))) with false. cbv iota.
  destruct (N.eqb_spec c 0) as [->|Hc]; [by apply DecFacts.fix_zero|].
  unfold adjusted, Emax, prec in *.
  destruct (Z.ltb_spec 999999 (-2 + ndigits c - 1)); [lia|].
  destruct (Z.ltb_spec 28 (-2 + ndigits c - 1 - -2 + 1)); [lia|].
  assert (Hr : rescale_coef rnd c (-2) (-2) = c).
  { unfold rescale_coef. destruct (N.eqb_spec c 0); [contradiction|].
    change (-2 <=? -2) with true. cbv iota. change (pow10 (-2 - -2)) with 1. lia. }
  cbv zeta. rewrite Hr.
  destruct (Z.ltb_spec 999999 (-2 + ndigits c - 1)); [lia|].
  destruct (Z.ltb_spec 28 (ndigits c)); [lia|].
  by apply DecFacts.fix_fits.
Qed.

End MoneyFacts.

(** X4.  A cost the engine returns for a recipe is a decimal of exactly
    two places and at most 28 digits, unless it is a NaN (which takes a
    NaN among the quantities and prices). *)
Theorem costs_have_two_decimals (recipe : Recipe) (v : Decimal) :
  Calc.calculate_total_cost recipe = Ok v
  \/ Calc.calculate_cost_per_serving recipe = Ok v ->
  Dec.is_nan v = false ->
  exists s c, v = Fin s c (-2) /\ Dec.ndigits c <= 28.
Proof.
  assert (Hq : forall a, Calc._quantize_money a = Ok v -> Dec.is_nan v = false ->
                         exists s c, v = Fin s c (-2) /\ Dec.ndigits c <= 28).
  { intros a H Hn. destruct (MoneyFacts.quantize_money_shape a v H)
      as [(s & c & -> & Hd & _)|(s & p & -> & _)]; [eauto | discriminate]. }
  intros [H|H].
  - unfold Calc.calculate_total_cost in H.
    destruct (Calc.sum_costs _ _) as [total|]; cbn [mbind result_bind] in H; [|discriminate].
    by apply (Hq total).
  - unfold Calc.calculate_cost_per_serving in H.
    destruct (_ <=? 0); [discriminate|].
    destruct (Calc.calculate_total_cost recipe) as [total|];
      cbn [mbind result_bind] in H; [|discriminate].
    destruct (Dec.div _ _) as [per|]; cbn [mbind result_bind] in H; [|discriminate].
    by apply (Hq per).
Qed.

Lemma costs_have_two_decimals_witness :
  exists s c, Fin false 58 (-2) = Fin s c (-2) /\ Dec.ndigits c <= 28.
Proof.
  apply (costs_have_two_decimals gin_tonic (Fin false 58 (-2))).
  - right. vm_compute. reflexivity.
  - reflexivity.
Defined.

(** X5.  Rounding to money is idempotent: what [_quantize_money] returns
    it returns unchanged when applied again. *)
Theorem quantize_money_idempotent (a v : Decimal) :
  Calc._quantize_money a = Ok v -> Calc._quantize_money v = Ok v.
Proof.
  intros H. destruct (MoneyFacts.quantize_money_shape a v H)
    as [(s & c & -> & Hd & _)|(s & p & -> & Ha)].
  - by apply MoneyFacts.quantize_fixed_point.
  - destruct a as [| |s' [] p']; try discriminate.
    cbn in H. injection H as <- E. cbn. unfold Dec.fix_nan. do 2 f_equal.
    rewrite <- E. rewrite Z2N.id by (apply Z.mod_pos_bound; reflexivity).
    rewrite Z.mod_mod by discriminate. reflexivity.
Qed.

Lemma quantize_money_idempotent_witness :
  Calc._quantize_money (Fin false 575 (-3)) = Ok (Fin false 58 (-2))
  /\ Calc._quantize_money (Fin false 58 (-2)) = Ok (Fin false 58 (-2)).
Proof.
  assert (H : Calc._quantize_money (Fin false 575 (-3)) = Ok (Fin false 58 (-2)))
    by (vm_compute; reflexivity).
  split; [exact H|]. exact (quantize_money_idempotent _ _ H).
Defined.

(** X6.  For one serving the cost per serving is the total cost: a total
    of at most 27 digits in cents is returned as it is. *)
Theorem one_serving_costs_the_total (recipe : Recipe) (s : bool) (t : N) :
  r_servings recipe = 1 ->
  Calc.calculate_total_cost recipe = Ok (Fin s t (-2)) ->
  Dec.ndigits t <= 27 ->
  Calc.calculate_cost_per_serving recipe = Ok (Fin s t (-2)).
Proof.
  intros Hs Ht Hn. unfold Calc.calculate_cost_per_serving. rewrite Hs, Ht.
  change (1 <=? 0) with false. cbv iota. cbn [mbind result_bind].
  destruct (ServingFacts.per_serving_rounds s t 1 Hn) as (c & Hc & Hv & _);
    [lia | vm_compute; discriminate |].
  transitivity (Ok (Fin s c (-2)) : result Decimal); [exact Hc|]. do 2 f_equal.
  assert ((2 * Z.of_N t + 1) / (2 * 1) = Z.of_N t).
  { symmetry. apply (Z.div_unique _ _ _ 1); lia. }
  lia.
Qed.

Lemma one_serving_costs_the_total_witness :
  let recipe := mkRecipe "Gin" [mkIngredient "Gin" (Fin false 50 0) "ml" (Fin false 2 (-2))] 1 in
  r_servings recipe = 1
  /\ Calc.calculate_total_cost recipe = Ok (Fin false 100 (-2))
  /\ Dec.ndigits 100 <= 27
  /\ Calc.calculate_cost_per_serving recipe = Ok (Fin false 100 (-2)).
Proof.
  intros recipe.
  assert (H1 : r_servings recipe = 1) by reflexivity.
  assert (H2 : Calc.calculate_total_cost recipe = Ok (Fin false 100 (-2)))
    by (vm_compute; reflexivity).
  assert (H3 : Dec.ndigits 100 <= 27) by (vm_compute; discriminate).
  split; [exact H1|]. split; [exact H2|]. split; [exact H3|].
  exact (one_serving_costs_the_total recipe false 100%N H1 H2 H3).
Defined.

(** ** cost_dialog.py: what is displayed and what is read *)

Module FormatFacts.

Import Digits DecStr Spec.

Lemma drop_length (n : nat) (s : string) :
  String.length (Str.drop n s) = (String.length s - n)%nat.
Proof.
  revert s; induction n as [|n IH]; intros [|a s']; try reflexivity.
  cbn [Str.drop String.length]. by rewrite IH.
Qed.

Lemma take_nonempty (n : nat) (s : string) :
  (0 < n)%nat -> s <> "" -> Str.take n s <> "".
Proof. destruct n, s; try lia; try congruence. discriminate. Qed.

(** [format(d, 'f')] of a decimal of two places: the sign, one digit or
    more, the point, two digits; the digits are those of the
    coefficient. *)
Lemma format_f_cents (s : bool) (c : N) :
  exists int frac,
    format_f (Fin s c (-2)) = sign_str s +:+ int +:+ "." +:+ frac
    /\ String.length frac = 2%nat
    /\ all_digits int = true /\ all_digits frac = true
    /\ int <> ""
    /\ of_string (int +:+ frac) = c
    /\ format_f (Fin s c (-2)) = to_str (Fin s c (-2)).
Proof.
  pose proof (DigitsFacts.to_string_spec c) as (Hall & Hval & Hlen & _).
  unfold format_f, to_str, finite_str. rewrite andb_false_r. cbv zeta.
  destruct (to_string c) as [|a [|b [|d rest]]] eqn:ED; [simpl in Hlen; lia| | |].
  - exists "0", (String "0" (String a "")). cbn in Hall |- *.
    rewrite <- Hval. by rewrite Hall.
  - exists "0", (String a (String b "")). cbn in Hall |- *.
    rewrite <- Hval. by rewrite Hall.
  - set (D := String a (String b (String d rest))) in *.
    set (L := String.length D).
    assert (HL : (3 <= L)%nat) by (unfold L, D; simpl; lia).
    assert (Edp : Z.to_nat (-2 + Z.of_nat L) = (L - 2)%nat) by lia.
    destruct (Z.ltb_spec (-2 + Z.of_nat L) 0); [lia|].
    destruct (Z.ltb_spec (Z.of_nat L) (-2 + Z.of_nat L)); [lia|].
    destruct (Z.eqb_spec (-2 + Z.of_nat L) 0); [lia|].
    change (-2 <=? 0) with true.
    destruct (Z.ltb_spec (-6) (-2 + Z.of_nat L)); [|lia]. cbn [andb].
    destruct (Z.leb_spec (-2 + Z.of_nat L) 0); [lia|].
    destruct (Z.leb_spec (Z.of_nat L) (-2 + Z.of_nat L)); [lia|].
    rewrite Z.eqb_refl, Edp, StrFacts.app_nil_r.
    assert (Hd : String.length (Str.drop (L - 2) D) = 2%nat)
      by (rewrite drop_length; fold L; lia).
    exists (Str.take (L - 2) D), (Str.drop (L - 2) D).
    destruct (Str.drop (L - 2) D) as [|x y] eqn:Edrop; [discriminate Hd|].
    cbn [Str.is_empty]. rewrite <- Edrop in *.
    split; [reflexivity|]. split; [exact Hd|].
    split; [by apply ParseFacts.all_digits_take|].
    split; [by apply ParseFacts.all_digits_drop|].
    split; [apply take_nonempty; [lia | discriminate]|].
    split; [by rewrite StrFacts.take_drop|]. reflexivity.
Qed.

Lemma lstrip_rstrip (s : string) : Str.lstrip (Str.rstrip (Str.lstrip s)) = Str.rstrip (Str.lstrip s).
Proof.
  induction s as [|a s IH]; [reflexivity|]. cbn [Str.lstrip].
  destruct (Str.is_space a) eqn:Ea; [exact IH|].
  cbn [Str.rstrip]. destruct (Str.rstrip s); rewrite ?Ea; cbn [Str.lstrip]; by rewrite Ea.
Qed.

Lemma rstrip_rstrip (s : string) : Str.rstrip (Str.rstrip s) = Str.rstrip s.
Proof.
  induction s as [|a s IH]; [reflexivity|]. cbn [Str.rstrip].
  destruct (Str.rstrip s) as [|b r] eqn:E.
  - destruct (Str.is_space a) eqn:Ea; [reflexivity|]. cbn [Str.rstrip]. by rewrite Ea.
  - cbn [Str.rstrip] in IH |- *. by rewrite IH.
Qed.

(** [strip] is idempotent, so the [strip] of [_parse_decimal] before
    [Decimal(...)], which strips, changes nothing. *)
Lemma strip_strip (s : string) : Str.strip (Str.strip s) = Str.strip s.
Proof. unfold Str.strip. by rewrite lstrip_rstrip, rstrip_rstrip. Qed.

Lemma of_str_strip (s : string) : of_str (Str.strip s) = of_str s.
Proof. unfold of_str. by rewrite strip_strip. Qed.

Lemma whitespace_only_strip (s : string) :
  whitespace_only (Str.strip s) = whitespace_only s.
Proof.
  rewrite <- (ModelFacts.strip_empty (Str.strip s)), strip_strip.
  apply ModelFacts.strip_empty.
Qed.

End FormatFacts.

(** X7.  The price per unit is always displayed with exactly two digits
    after the point: for a finite value whose amount in cents has at most
    28 digits, [_format_ppu] writes the sign, the integer digits, the
    point and two digits, and these digits are the value in cents,
    rounded half up. *)
Theorem format_ppu_two_decimals (s : bool) (c : N) (e : Z) :
  Z.abs (Spec.cents (Spec.Qval (Fin s c e))) < 10 ^ 28 ->
  exists int frac,
    CostDialog._format_ppu (Fin s c e) = DecStr.sign_str s +:+ int +:+ "." +:+ frac
    /\ String.length frac = 2%nat
    /\ Digits.all_digits int = true /\ Digits.all_digits frac = true
    /\ int <> ""
    /\ Dec.signed s (Digits.of_string (int +:+ frac)) = Spec.cents (Spec.Qval (Fin s c e)).
Proof.
  intros Hb. destruct (CalcFacts.quantize_money_cents s c e Hb) as (c' & Hq & Hs).
  unfold CostDialog._format_ppu.
  change (Dec.quantize ROUND_HALF_UP (Fin s c e) (Fin false 1 (-2)))
    with (Calc._quantize_money (Fin s c e)).
  rewrite Hq.
  destruct (FormatFacts.format_f_cents s c') as (int & frac & E & Hl & Hi & Hf & Hne & Hv & _).
  exists int, frac. rewrite Hv. auto 10.
Qed.

Lemma format_ppu_two_decimals_witness :
  Z.abs (Spec.cents (Spec.Qval (Fin false 642857 (-6)))) < 10 ^ 28
  /\ CostDialog._format_ppu (Fin false 642857 (-6)) = "0.64"
  /\ exists int frac,
      CostDialog._format_ppu (Fin false 642857 (-6))
      = DecStr.sign_str false +:+ int +:+ "." +:+ frac
      /\ String.length frac = 2%nat
      /\ Digits.all_digits int = true /\ Digits.all_digits frac = true
      /\ int <> ""
      /\ Dec.signed false (Digits.of_string (int +:+ frac))
         = Spec.cents (Spec.Qval (Fin false 642857 (-6))).
Proof.
  assert (H : Z.abs (Spec.cents (Spec.Qval (Fin false 642857 (-6)))) < 10 ^ 28)
    by (vm_compute; reflexivity).
  split; [exact H|]. split; [vm_compute; reflexivity|].
  exact (format_ppu_two_decimals false 642857%N (-6) H).
Defined.



(** ** cost_dialog.py: the recipe of the dialog *)

Module RecipeFacts.

Import CostDialog Spec.

Lemma row_ingredient_valid (row : Row) (ing : Ingredient) :
  row_ingredient row = Ok ing -> valid_ingredient ing.
Proof.
  unfold row_ingredient.
  destruct (_parse_decimal _) as [qty|]; cbn [mbind result_bind]; [|discriminate].
  destruct (recipe_price row qty) as [price|]; cbn [mbind result_bind]; [|discriminate].
  intros H. by apply DialogFacts.Ingredient_init_inv in H as [_ H].
Qed.

Lemma row_ingredients_valid (rows : list Row) :
  forall ings, row_ingredients rows = Ok ings -> Forall valid_ingredient ings.
Proof.
  induction rows as [|row rows IH]; intros ings.
  - intros [= <-]. constructor.
  - cbn [row_ingredients]. destruct (Str.is_empty _); [apply IH|].
    destruct (row_ingredient row) as [ing|] eqn:Er; cbn [mbind result_bind]; [|discriminate].
    destruct (row_ingredients rows) as [rest|]; cbn [mbind result_bind]; [|discriminate].
    intros [= <-]. constructor; [by apply (row_ingredient_valid row) | by apply IH].
Qed.

Lemma get_recipe_inv (dlg : Dialog) (recipe : Recipe) :
  get_recipe dlg = Ok recipe ->
  r_name recipe = Str.strip (name_edit dlg)
  /\ r_servings recipe = 1
  /\ Forall valid_ingredient (r_ingredients recipe).
Proof.
  unfold get_recipe.
  destruct (row_ingredients (table dlg)) as [ings|] eqn:E;
    cbn [mbind result_bind]; [|discriminate].
  intros [= <-]. cbn. split; [reflexivity|]. split; [reflexivity|].
  by apply (row_ingredients_valid (table dlg)).
Qed.

(** The loop stops at the first row with a name whose ingredient cannot
    be built. *)
Lemma row_ingredients_first_error (pre post : list Row) (row : Row) (e : exn) :
  Forall (fun r => Str.is_empty (Str.strip (name_text r)) = true
                   \/ is_ok (row_ingredient r) = true) pre ->
  Str.is_empty (Str.strip (name_text row)) = false ->
  row_ingredient row = Raise e ->
  row_ingredients (pre ++ row :: post) = Raise e.
Proof.
  intros Hpre Hn He. induction Hpre as [|r pre Hr _ IH].
  - cbn [app row_ingredients]. by rewrite Hn, He.
  - cbn [app row_ingredients]. destruct Hr as [->|Hr]; [exact IH|].
    destruct (Str.is_empty (Str.strip (name_text r))); [exact IH|].
    destruct (row_ingredient r); [|discriminate Hr].
    cbn [mbind result_bind]. fold (pre ++ row :: post). by rewrite IH.
Qed.

End RecipeFacts.

(** X9.  The recipe [get_recipe] returns has the stripped text of the
    name field as its name, one serving, and ingredients that all satisfy
    the construction invariant. *)
Theorem get_recipe_invariant (dlg : Dialog) (recipe : Recipe) :
  CostDialog.get_recipe dlg = Ok recipe ->
  r_name recipe = Str.strip (name_edit dlg)
  /\ r_servings recipe = 1
  /\ Forall Spec.valid_ingredient (r_ingredients recipe).
Proof.
  intros H. destruct (RecipeFacts.get_recipe_inv dlg recipe H) as (Hn & Hs & Hv).
  split; [exact Hn|]. split; [exact Hs | exact Hv].
Qed.

Lemma get_recipe_invariant_witness :
  let dlg := mkDialog " Gin Tonic " [mkRow "Gin" "1.50" "50" "ml" "0.02"] "" "" in
  let recipe :=
    mkRecipe "Gin Tonic" [mkIngredient "Gin" (Fin false 50 0) "ml" (Fin false 3 (-2))] 1 in
  CostDialog.get_recipe dlg = Ok recipe
  /\ r_name recipe = Str.strip (name_edit dlg)
  /\ r_servings recipe = 1
  /\ Forall Spec.valid_ingredient (r_ingredients recipe).
Proof.
  intros dlg recipe.
  assert (H : CostDialog.get_recipe dlg = Ok recipe) by (vm_compute; reflexivity).
  split; [exact H|]. exact (get_recipe_invariant dlg recipe H).
Defined.

(** X10.  [get_recipe] fails with the exception of the first row with a
    name whose ingredient cannot be built; no recipe of the rows before
    it is returned. *)
Theorem get_recipe_first_error (dlg : Dialog) (pre post : list Row) (row : Row) (e : exn) :
  table dlg = pre ++ row :: post ->
  Forall (fun r => Str.is_empty (Str.strip (name_text r)) = true
                   \/ is_ok (CostDialog.row_ingredient r) = true) pre ->
  Str.is_empty (Str.strip (name_text row)) = false ->
  CostDialog.row_ingredient row = Raise e ->
  CostDialog.get_recipe dlg = Raise e.
Proof.
  intros Ht Hpre Hn He. unfold CostDialog.get_recipe.
  by rewrite Ht, (RecipeFacts.row_ingredients_first_error pre post row e Hpre Hn He).
Qed.

Lemma get_recipe_first_error_witness :
  let gin := mkRow "Gin" "1.50" "50" "ml" "0.02" in
  let bad := mkRow "Lime" "" "abc" "" "" in
  let dlg := mkDialog "Gimlet" [gin; bad; mkRow "Sugar" "" "" "" ""] "" "" in
  CostDialog.get_recipe dlg = Raise (ValueError "Invalid numeric value: abc").
Proof.
  intros gin bad dlg.
  apply (get_recipe_first_error dlg [gin] [mkRow "Sugar" "" "" "" ""] bad).
  - reflexivity.
  - apply Forall_cons. split; [right; vm_compute; reflexivity | apply Forall_nil_2].
  - vm_compute. reflexivity.
  - vm_compute. reflexivity.
Defined.

(** X11.  A row with a name and a quantity that is a number not above
    zero (an empty quantity field counts as 0) makes [get_recipe] fail
    with a [ValueError]: that of the price-per-unit field when it is not
    numeric, that of the quantity check otherwise. *)
Theorem row_without_quantity_fails (row : Row) (q : Decimal) :
  Str.is_empty (Str.strip (name_text row)) = false ->
  CostDialog._parse_decimal (CostDialog.str_or (qty_text row) "0") = Ok q ->
  Dec.is_nan q = false -> Spec.signum q <= 0 ->
  CostDialog.row_ingredient row
  = match CostDialog._parse_decimal (CostDialog.str_or (ppu_text row) "0") with
    | Ok _ => Raise (ValueError "Ingredient quantity must be > 0")
    | Raise _ =>
        Raise (ValueError ("Invalid numeric value: " +:+ CostDialog.str_or (ppu_text row) "0"))
    end.
Proof.
  intros Hn Hq Hnan Hs. unfold CostDialog.row_ingredient. rewrite Hq.
  cbn [mbind result_bind].
  assert (Hp : CostDialog.recipe_price row q
               = CostDialog._parse_decimal (CostDialog.str_or (ppu_text row) "0")).
  { unfold CostDialog.recipe_price.
    destruct (Str.is_empty (Str.strip (row_price_text row))); [reflexivity|].
    destruct (CostDialog.try_decimal _); [|reflexivity].
    by rewrite (gt_zero_nonpos q Hnan Hs). }
  rewrite Hp. unfold CostDialog._parse_decimal at 1 2.
  destruct (DecStr.of_str (Str.strip (CostDialog.str_or (ppu_text row) "0"))) as [p|];
    cbn [mbind result_bind]; [|reflexivity].
  unfold Model.Ingredient_init. cbn [Model.normalize mbind result_bind].
  rewrite ModelFacts.blank_whitespace_only, <- ModelFacts.strip_empty,
    FormatFacts.strip_strip, Hn.
  rewrite (ModelFacts.le_zero q Hnan). cbn [mbind result_bind].
  by destruct (Z.leb_spec (Spec.signum q) 0); [|lia].
Qed.

Lemma row_without_quantity_fails_witness :
  let row := mkRow "Gin" "1.50" "" "ml" "0.02" in
  CostDialog.row_ingredient row = Raise (ValueError "Ingredient quantity must be > 0").
Proof.
  intros row.
  apply (row_without_quantity_fails row (Fin false 0 0)).
  - reflexivity.
  - vm_compute. reflexivity.
  - reflexivity.
  - vm_compute. discriminate.
Defined.

(** X12.  [accept]: the dialog is accepted exactly when [get_recipe]
    returns and the name field is not blank; the warning shows the
    exception of [get_recipe], or that the recipe name is required.  The
    servings check of [Recipe.validate] never fires. *)
Theorem accept_cases (dlg : Dialog) :
  Ui.accept dlg =
    match CostDialog.get_recipe dlg with
    | Raise e => (false, Some e)
    | Ok _ =>
        if Spec.whitespace_only (name_edit dlg)
        then (false, Some (ValueError "Recipe name is required"))
        else (true, None)
    end.
Proof.
  unfold Ui.accept, Ui.validate.
  destruct (CostDialog.get_recipe dlg) as [recipe|e] eqn:E; cbn [mbind result_bind]; [|reflexivity].
  destruct (RecipeFacts.get_recipe_inv dlg recipe E) as (Hn & Hs & _).
  unfold Model.validate.
  rewrite Hn, Hs, ModelFacts.blank_whitespace_only, FormatFacts.whitespace_only_strip.
  by destruct (Spec.whitespace_only (name_edit dlg)).
Qed.

(** ** cost_dialog.py: the price-per-unit column *)

Module SweepFacts.

Import CostDialog Ui.

Lemma ppu_update_set_ppu_text (r : nat) (row : Row) (t : string) :
  ppu_update r (set_ppu_text row t) = ppu_update r row.
Proof. reflexivity. Qed.

(** The update reads the row price, the quantity and the unit spec, and
    writes the price per unit only. *)
Lemma update_row_frame (r : nat) (row : Row) :
  exists t, _update_price_per_unit_for_row r row = set_ppu_text row t.
Proof.
  unfold _update_price_per_unit_for_row.
  destruct (ppu_update r row) as [[[t d]|]|].
  - by exists t.
  - exists (ppu_text row). by destruct row.
  - exists (ppu_text row). by destruct row.
Qed.

Lemma update_row_idempotent (r : nat) (row : Row) :
  _update_price_per_unit_for_row r (_update_price_per_unit_for_row r row)
  = _update_price_per_unit_for_row r row.
Proof.
  unfold _update_price_per_unit_for_row at 2.
  destruct (ppu_update r row) as [[[t d]|]|] eqn:E.
  - unfold _update_price_per_unit_for_row. by rewrite ppu_update_set_ppu_text, E.
  - unfold _update_price_per_unit_for_row. by rewrite E.
  - unfold _update_price_per_unit_for_row. by rewrite E.
Qed.

Lemma ppu_update_updated (r : nat) (row : Row) :
  ppu_update r (_update_price_per_unit_for_row r row) = ppu_update r row.
Proof.
  destruct (update_row_frame r row) as [t ->]. apply ppu_update_set_ppu_text.
Qed.

Lemma sweep_rows (rows : list Row) :
  forall r debug,
    (sweep r rows debug).1 = imap (fun i => _update_price_per_unit_for_row (r + i)) rows.
Proof.
  induction rows as [|row rows IH]; intros r debug; [reflexivity|].
  cbn [sweep]. destruct (sweep (S r) rows _) as [rows' d] eqn:E.
  cbn [fst]. rewrite imap_cons, Nat.add_0_r. f_equal.
  specialize (IH (S r) (match ppu_update r row with Ok (Some (_, d0)) => d0 | _ => debug end)).
  rewrite E in IH. cbn [fst] in IH. rewrite IH.
  apply imap_ext. intros i x _. cbn. f_equal. lia.
Qed.

(** The text the sweep leaves in the debug label is the one it started
    with, or one that does not depend on it. *)
Lemma sweep_debug (rows : list Row) :
  forall r,
    (forall debug, (sweep r rows debug).2 = debug)
    \/ (exists k, forall debug, (sweep r rows debug).2 = k).
Proof.
  induction rows as [|row rows IH]; intros r; [by left|].
  assert (E : forall debug, (sweep r (row :: rows) debug).2
              = (sweep (S r) rows
                   (match ppu_update r row with Ok (Some (_, d0)) => d0 | _ => debug end)).2).
  { intros debug. cbn [sweep]. by destruct (sweep (S r) rows _). }
  destruct (IH (S r)) as [H|[k H]].
  - destruct (ppu_update r row) as [[[t d]|]|] eqn:Eu.
    + right. exists d. intros debug. by rewrite E, H.
    + left. intros debug. by rewrite E, H.
    + left. intros debug. by rewrite E, H.
  - right. exists k. intros debug. by rewrite E, H.
Qed.

Lemma sweep_again (rows : list Row) :
  forall r debug debug',
    sweep r (sweep r rows debug).1 debug' = ((sweep r rows debug).1, (sweep r rows debug').2).
Proof.
  induction rows as [|row rows IH]; intros r debug debug'; [reflexivity|].
  cbn [sweep].
  destruct (sweep (S r) rows
              (match ppu_update r row with Ok (Some (_, d0)) => d0 | _ => debug end))
    as [rows1 d1] eqn:E1.
  cbn [fst sweep]. rewrite ppu_update_updated, update_row_idempotent.
  specialize (IH (S r)
    (match ppu_update r row with Ok (Some (_, d0)) => d0 | _ => debug end)
    (match ppu_update r row with Ok (Some (_, d0)) => d0 | _ => debug' end)).
  rewrite E1 in IH. cbn [fst] in IH. rewrite IH.
  by destruct (sweep (S r) rows _).
Qed.

Lemma sweep_idempotent (rows : list Row) (r : nat) (debug : string) :
  sweep r (sweep r rows debug).1 (sweep r rows debug).2 = sweep r rows debug.
Proof.
  rewrite sweep_again. destruct (sweep_debug rows r) as [H|[k H]].
  - rewrite H. by destruct (sweep r rows debug).
  - rewrite (H (sweep r rows debug).2), <- (H debug). by destruct (sweep r rows debug).
Qed.

Lemma add_ppu_skip (total : Decimal) (row : Row) :
  Str.is_empty (Str.strip (ppu_text row)) = true \/ try_decimal (ppu_text row) = None ->
  add_ppu total row = total.
Proof.
  unfold add_ppu, try_decimal. intros [->|H]; [reflexivity|].
  destruct (Str.is_empty _); [reflexivity|].
  by destruct (DecStr.of_str (ppu_text row)).
Qed.

End SweepFacts.

(** X13.  [_update_price_per_unit_for_row] writes the price-per-unit
    field only (the name, the row price, the quantity and the unit spec
    of the row stay as they are); whatever the field held, it is either
    left as it was or set to the same text; updating twice is updating
    once. *)
Theorem update_row_writes_ppu_only (r : nat) (row : Row) :
  let row' := CostDialog._update_price_per_unit_for_row r row in
  name_text row' = name_text row
  /\ row_price_text row' = row_price_text row
  /\ qty_text row' = qty_text row
  /\ unit_text row' = unit_text row
  /\ (forall t,
        let held := CostDialog.set_ppu_text row t in
        CostDialog._update_price_per_unit_for_row r held = row'
        \/ (CostDialog._update_price_per_unit_for_row r held = held /\ row' = row))
  /\ CostDialog._update_price_per_unit_for_row r row' = row'.
Proof.
  intros row'. subst row'.
  destruct (SweepFacts.update_row_frame r row) as [t E].
  split; [by rewrite E|]. split; [by rewrite E|]. split; [by rewrite E|].
  split; [by rewrite E|]. split.
  - intros t' held. subst held. unfold CostDialog._update_price_per_unit_for_row.
    rewrite SweepFacts.ppu_update_set_ppu_text.
    destruct (CostDialog.ppu_update r row) as [[[t'' d]|]|]; [by left | by right | by right].
  - apply SweepFacts.update_row_idempotent.
Qed.

(** X14.  The PPU sum passes over the entries that are blank or not
    numeric: the label is the one of the table without such a row. *)
Theorem ppu_sum_skips_non_numeric (dlg : Dialog) (pre post : list Row) (row : Row) :
  table dlg = pre ++ row :: post ->
  Str.is_empty (Str.strip (ppu_text row)) = true
  \/ CostDialog.try_decimal (ppu_text row) = None ->
  ppu_sum_label (Ui._update_ppu_sum dlg)
  = ppu_sum_label (Ui._update_ppu_sum (Ui.set_table dlg (pre ++ post))).
Proof.
  intros Ht Hrow. unfold Ui._update_ppu_sum, Ui.set_table. cbn [ppu_sum_label table].
  rewrite Ht. unfold Ui.ppu_sum_text, Ui.ppu_sum.
  rewrite !foldl_app. cbn [foldl].
  by rewrite (SweepFacts.add_ppu_skip _ row Hrow).
Qed.

Lemma ppu_sum_skips_non_numeric_witness :
  let dlg :=
    mkDialog "" [mkRow "" "" "" "" "0.64"; mkRow "" "" "" "" "n/a"; mkRow "" "" "" "" "1.80"]
      "" "" in
  ppu_sum_label (Ui._update_ppu_sum dlg) = "PPU sum: 2.44"
  /\ ppu_sum_label (Ui._update_ppu_sum dlg)
     = ppu_sum_label
         (Ui._update_ppu_sum
            (Ui.set_table dlg [mkRow "" "" "" "" "0.64"; mkRow "" "" "" "" "1.80"])).
Proof.
  intros dlg. split; [vm_compute; reflexivity|].
  apply (ppu_sum_skips_non_numeric dlg [mkRow "" "" "" "" "0.64"]
           [mkRow "" "" "" "" "1.80"] (mkRow "" "" "" "" "n/a")).
  - reflexivity.
  - right. vm_compute. reflexivity.
Defined.

(** X15.  [_update_all_price_per_unit] updates every row in place (the
    table keeps its rows, each the update of the row it was) and sets
    the PPU sum of the updated table; running it again changes
    nothing. *)
Theorem update_all_price_per_unit_sweep (dlg : Dialog) :
  let dlg' := Ui._update_all_price_per_unit dlg in
  name_edit dlg' = name_edit dlg
  /\ table dlg' = imap CostDialog._update_price_per_unit_for_row (table dlg)
  /\ ppu_sum_label dlg' = Ui.ppu_sum_text (table dlg')
  /\ Ui._update_all_price_per_unit dlg' = dlg'.
Proof.
  unfold Ui._update_all_price_per_unit.
  pose proof (SweepFacts.sweep_rows (table dlg) 0 (debug_label dlg)) as Hr.
  pose proof (SweepFacts.sweep_idempotent (table dlg) 0 (debug_label dlg)) as Hi.
  destruct (Ui.sweep 0 (table dlg) (debug_label dlg)) as [rows debug] eqn:E.
  cbn [fst snd] in Hr, Hi. cbn [name_edit table debug_label ppu_sum_label].
  split; [reflexivity|]. split; [exact Hr|]. split; [reflexivity|].
  by rewrite Hi.
Qed.

(** ** cost_dialog.py: moving through the table and adding rows *)

Module FocusFacts.

Import Ui.

Lemma focus_next_in_table (row col : Z) (dlg : Dialog) :
  0 <= row < Z.of_nat (length (table dlg)) -> 0 <= col ->
  _focus_next row col dlg =
    if col <? COL_UNIT then Some (row, col + 1)
    else if row + 1 <? Z.of_nat (length (table dlg)) then Some (row + 1, COL_NAME)
    else None.
Proof.
  unfold _focus_next, COL_UNIT, COL_NAME. intros Hr Hc.
  destruct (Z.ltb_spec 3 (col + 1)), (Z.ltb_spec col 3); try lia.
  - destruct (Z.leb_spec (Z.of_nat (length (table dlg))) (row + 1)),
      (Z.ltb_spec (row + 1) (Z.of_nat (length (table dlg)))); try lia; [reflexivity|].
    destruct (Z.leb_spec 0 (row + 1)); [reflexivity | lia].
  - destruct (Z.leb_spec (Z.of_nat (length (table dlg))) row); [lia|].
    destruct (Z.leb_spec 0 row), (Z.leb_spec 0 (col + 1)); try lia. reflexivity.
Qed.

End FocusFacts.

(** X16.  Enter moves the focus through the name, the row price, the
    quantity and the unit spec of a row and then to the name of the next
    row; after the unit spec of the last row it moves nowhere.  Whatever
    the cell it is called for, [_focus_next] gives the focus to a cell of
    the table, and never to one of the Price / unit column. *)
Theorem focus_next_target (row col : Z) (dlg : Dialog) :
  (0 <= row < Z.of_nat (length (table dlg)) -> 0 <= col ->
   Ui._focus_next row col dlg =
     if col <? Ui.COL_UNIT then Some (row, col + 1)
     else if row + 1 <? Z.of_nat (length (table dlg)) then Some (row + 1, Ui.COL_NAME)
     else None)
  /\ (forall r c, Ui._focus_next row col dlg = Some (r, c) ->
        0 <= r < Z.of_nat (length (table dlg))
        /\ 0 <= c <= Ui.COL_UNIT /\ c <> Ui.COL_PRICE_PER_UNIT).
Proof.
  split; [apply FocusFacts.focus_next_in_table|].
  unfold Ui._focus_next, Ui.COL_UNIT, Ui.COL_NAME, Ui.COL_PRICE_PER_UNIT.
  - intros r c.
    destruct (Z.ltb_spec 3 (col + 1)).
    + destruct (Z.leb_spec (Z.of_nat (length (table dlg))) (row + 1)); [discriminate|].
      destruct (Z.leb_spec 0 (row + 1)); [|discriminate].
      cbn. intros [= <- <-]. lia.
    + destruct (Z.leb_spec (Z.of_nat (length (table dlg))) row); [discriminate|].
      destruct (Z.leb_spec 0 row), (Z.leb_spec 0 (col + 1)); try discriminate.
      cbn. intros [= <- <-]. lia.
Qed.

Lemma focus_next_target_witness :
  let dlg := mkDialog "" [mkRow "" "" "" "" ""; mkRow "" "" "" "" ""] "" "" in
  Ui._focus_next 0 Ui.COL_UNIT dlg = Some (1, Ui.COL_NAME)
  /\ 0 <= 1 < Z.of_nat (length (table dlg))
  /\ 0 <= Ui.COL_NAME <= Ui.COL_UNIT /\ Ui.COL_NAME <> Ui.COL_PRICE_PER_UNIT.
Proof.
  intros dlg.
  assert (H : Ui._focus_next 0 Ui.COL_UNIT dlg = Some (1, Ui.COL_NAME)).
  { rewrite (proj1 (focus_next_target 0 Ui.COL_UNIT dlg));
      [reflexivity | vm_compute; split; congruence | vm_compute; congruence]. }
  split; [exact H|].
  exact (proj2 (focus_next_target 0 Ui.COL_UNIT dlg) 1 Ui.COL_NAME H).
Defined.

(** X17.  Enter in the unit spec of the last row appends an empty row,
    whose price per unit is not copied from the row above, and moves the
    focus to the name of the new row. *)
Theorem enter_in_last_unit_spec (row : nat) (dlg : Dialog) :
  S row = length (table dlg) ->
  exists dlg',
    Ui.on_enter row 3 dlg = Ok (dlg', Some (Z.of_nat (S row), Ui.COL_NAME))
    /\ name_edit dlg' = name_edit dlg
    /\ table dlg' = table dlg ++ [mkRow "" "" "" "" ""].
Proof.
  intros Hlen. unfold Ui.on_enter.
  assert (E : Ui.add_row "" "" "" "" false None dlg
              = Ok (mkDialog (name_edit dlg) (table dlg ++ [mkRow "" "" "" "" ""])
                      (debug_label dlg)
                      (Ui.ppu_sum_text (table dlg ++ [mkRow "" "" "" "" ""])))).
  { unfold Ui.add_row, Ui.prefill. by destruct (last (table dlg)). }
  destruct ((Z.of_nat 3 =? Ui.COL_UNIT)
            && (Z.of_nat row =? Z.of_nat (length (table dlg)) - 1)) eqn:Ec.
  - rewrite E. cbn [mbind result_bind].
    exists (mkDialog (name_edit dlg) (table dlg ++ [mkRow "" "" "" "" ""])
              (debug_label dlg) (Ui.ppu_sum_text (table dlg ++ [mkRow "" "" "" "" ""]))).
    split; [|split; reflexivity].
    do 2 f_equal.
    rewrite FocusFacts.focus_next_in_table.
    + cbn [table]. rewrite length_app. cbn [length].
      change (Z.of_nat 3 <? Ui.COL_UNIT) with false. cbv iota.
      destruct (Z.ltb_spec (Z.of_nat row + 1) (Z.of_nat (length (table dlg) + 1))); [|lia].
      do 2 f_equal. lia.
    + cbn [table]. rewrite length_app. cbn [length]. lia.
    + lia.
  - apply andb_false_iff in Ec as [Ec|Ec]; [discriminate Ec|].
    apply Z.eqb_neq in Ec. lia.
Qed.

Lemma enter_in_last_unit_spec_witness :
  let dlg := mkDialog "Gimlet" [mkRow "Gin" "21" "700" "60" "1.80"] "" "PPU sum: 1.80" in
  exists dlg',
    Ui.on_enter 0 3 dlg = Ok (dlg', Some (1, Ui.COL_NAME))
    /\ name_edit dlg' = name_edit dlg
    /\ table dlg' = table dlg ++ [mkRow "" "" "" "" ""].
Proof.
  intros dlg. apply (enter_in_last_unit_spec 0 dlg). reflexivity.
Defined.

Module RowFacts.

Import Dec CostDialog Ui.

(** A price per unit computed as [(P * (U / Q)).quantize(0.000001)] is a
    decimal of six places and at most 28 digits, or a quiet NaN. *)
Lemma derive_ppu_result (P Q U d : Decimal) :
  derive_ppu P Q U = Ok d ->
  (exists s c, d = Fin s c (-6) /\ ndigits c <= prec)
  \/ (exists s p, d = NaN s false p).
Proof.
  unfold derive_ppu.
  destruct (div U Q) as [ratio|]; cbn [mbind result_bind]; [|discriminate].
  destruct (mul P ratio) as [product|]; cbn [mbind result_bind]; [|discriminate].
  destruct product as [s c e|s|s [] p].
  - intros H. apply DialogFacts.quantize_shape in H as (c' & -> & Hn). left. eauto.
  - discriminate.
  - discriminate.
  - cbn. intros [= <-]. right. eauto.
Qed.

Lemma normalize_derived (P Q U d : Decimal) :
  derive_ppu P Q U = Ok d -> exists n, normalize d = Ok n.
Proof.
  intros H. destruct (derive_ppu_result P Q U d H) as [(s & c & -> & Hn)|(s & p & ->)].
  - pose proof (DigitsFacts.ndigits_pos c) as Hp. fold ndigits in Hp.
    unfold normalize. rewrite DecFacts.fix_fits.
    + cbn [mbind result_bind]. destruct (c =? 0)%N; [eauto|].
      destruct (strip_zeros _ _ _). eauto.
    + cbn [Spec.fits]. unfold adjusted, Etiny, Emax, Emin, prec in *. lia.
  - cbn. eauto.
Qed.

Lemma copied_ppu_normalizes (active : option string) (prev : Row) (d : Decimal) :
  copied_ppu active prev = Some d -> exists n, normalize d = Ok n.
Proof.
  unfold copied_ppu. cbv zeta.
  set (rp_text := match active with Some _ => _ | None => _ end).
  destruct (Str.is_empty rp_text); [discriminate|].
  destruct (DecStr.of_str rp_text) as [rp|];
    cbn [mbind result_bind try_except]; [|discriminate].
  destruct (DecStr.of_str (str_or (qty_text prev) "0")) as [qty_val|];
    cbn [mbind result_bind try_except]; [|discriminate].
  destruct (DecStr.of_str (str_or (unit_text prev) "0")) as [unit_spec_val|];
    cbn [mbind result_bind try_except]; [|discriminate].
  destruct (gt qty_val (of_int 0)) as [[]|];
    cbn [mbind result_bind try_except]; try discriminate.
  destruct (gt unit_spec_val (of_int 0)) as [[]|];
    cbn [mbind result_bind try_except]; try discriminate.
  destruct (derive_ppu rp qty_val unit_spec_val) as [ppu|] eqn:E;
    cbn [mbind result_bind try_except]; [|discriminate].
  intros [= <-]. by apply (normalize_derived rp qty_val unit_spec_val).
Qed.

Lemma set_ppu_text_same (row : Row) : set_ppu_text row (ppu_text row) = row.
Proof. by destruct row. Qed.

(** What [add_row] prepares: it does not raise, and the rows are those
    of the table, the last one with its price per unit set again at
    most. *)
Lemma prefill_rows (price : string) (copy_ppu : bool) (active : option string)
    (rows : list Row) :
  exists rows' price',
    prefill price copy_ppu active rows = Ok (rows', price')
    /\ length rows' = length rows
    /\ (forall i row, rows !! i = Some row ->
          (exists t, rows' !! i = Some (set_ppu_text row t))
          /\ (S i < length rows -> rows' !! i = Some row))%nat
    /\ (copy_ppu = false \/ Str.is_empty price = false \/ rows = [] ->
        rows' = rows /\ price' = price).
Proof.
  assert (Hsame : forall p, exists rows' price',
            (Ok (rows, p) : result (list Row * string)) = Ok (rows', price')
            /\ length rows' = length rows
            /\ (forall i row, rows !! i = Some row ->
                  (exists t, rows' !! i = Some (set_ppu_text row t))
                  /\ (S i < length rows -> rows' !! i = Some row))%nat
            /\ rows' = rows /\ price' = p).
  { intros p. exists rows, p. split; [reflexivity|]. split; [reflexivity|].
    split; [|done]. intros i row Hi. split; [|done].
    exists (ppu_text row). by rewrite set_ppu_text_same. }
  unfold prefill. destruct (last rows) as [prev|] eqn:El.
  - destruct (copy_ppu && Str.is_empty price) eqn:Ec.
    + apply andb_true_iff in Ec as [-> Hp].
      destruct (copied_ppu active prev) as [ppu|] eqn:Ep.
      * destruct (copied_ppu_normalizes _ _ _ Ep) as [n ->]. cbn [mbind result_bind].
        eexists _, _. split; [reflexivity|]. split; [by rewrite length_insert|]. split.
        -- intros i row Hi. rewrite last_lookup in El.
           destruct (decide (i = pred (length rows))) as [->|Hne].
           ++ assert (row = prev) as -> by congruence.
              split; [|lia]. eexists. apply list_lookup_insert_eq.
              by apply lookup_lt_is_Some_1.
           ++ rewrite list_lookup_insert_ne by done. split; [|done].
              exists (ppu_text row). by rewrite set_ppu_text_same.
        -- intros [H|[H|H]]; [discriminate | congruence | by rewrite H in El].
      * destruct (Hsame (if Str.is_empty (Str.strip (ppu_text prev)) then price
                         else ppu_text prev)) as (r' & p' & E & Hl & Hi & -> & ->).
        eexists _, _. split; [reflexivity|]. split; [done|]. split; [done|].
        intros [H|[H|H]]; [discriminate | congruence | by rewrite H in El].
    + destruct (Hsame price) as (r' & p' & E & Hl & Hi & -> & ->).
      eexists _, _. split; [reflexivity|]. done.
  - destruct (Hsame price) as (r' & p' & E & Hl & Hi & -> & ->).
    eexists _, _. split; [reflexivity|]. done.
Qed.

Lemma unselected_above (selected : list nat) (rows : list Row) :
  forall i, (forall x, x ∈ selected -> x < i)%nat -> unselected i selected rows = rows.
Proof.
  induction rows as [|row rows IH]; intros i H; [reflexivity|]. cbn [unselected].
  rewrite bool_decide_eq_false_2.
  - f_equal. apply IH. intros x Hx. specialize (H x Hx). lia.
  - intros Hi. specialize (H i Hi). lia.
Qed.

Lemma unselected_delete (r : nat) (l : list nat) (rows : list Row) :
  (forall x, x ∈ l -> x < r)%nat ->
  forall i, (i <= r)%nat ->
    unselected i l (delete (r - i)%nat rows) = unselected i (r :: l) rows.
Proof.
  intros Hl. induction rows as [|row rows IH]; intros i Hi; [reflexivity|].
  destruct (decide (i = r)) as [->|Hne].
  - rewrite Nat.sub_diag. cbn [delete list_delete unselected].
    rewrite bool_decide_eq_true_2 by apply list_elem_of_here.
    rewrite unselected_above by (intros x Hx; specialize (Hl x Hx); lia).
    symmetry. apply unselected_above.
    intros x [->|Hx]%elem_of_cons; [lia | specialize (Hl x Hx); lia].
  - replace (r - i)%nat with (S (r - S i)) by lia.
    cbn [delete list_delete unselected].
    fold (delete (r - S i)%nat rows). rewrite IH by lia.
    destruct (decide (i ∈ l)) as [Hin|Hin].
    + rewrite !bool_decide_eq_true_2; [reflexivity | by apply list_elem_of_further | done].
    + rewrite !bool_decide_eq_false_2; [reflexivity | | done].
      intros [->|H]%elem_of_cons; done.
Qed.

Lemma unselected_ext (l l' : list nat) (rows : list Row) :
  (forall x, x ∈ l <-> x ∈ l') -> forall i, unselected i l rows = unselected i l' rows.
Proof.
  intros H. induction rows as [|row rows IH]; intros i; [reflexivity|].
  cbn [unselected]. rewrite IH.
  destruct (decide (i ∈ l)) as [Hin|Hin].
  - rewrite !bool_decide_eq_true_2; [reflexivity | by apply H | done].
  - rewrite !bool_decide_eq_false_2; [reflexivity | by rewrite <- H | done].
Qed.

(** Removing rows from the highest number down removes the rows that
    were numbered so at the start. *)
Lemma delete_descending (l : list nat) :
  StronglySorted (flip Peano.le) l -> NoDup l ->
  forall rows : list Row, foldl (fun rows r => delete r rows) rows l = unselected 0 l rows.
Proof.
  induction 1 as [|r l Hs IH Hall]; intros Hnd rows.
  - cbn. symmetry. apply unselected_above. intros x Hx. by apply elem_of_nil in Hx.
  - apply NoDup_cons in Hnd as [Hr Hnd]. cbn [foldl]. rewrite (IH Hnd).
    rewrite <- (unselected_delete r l rows); [by rewrite Nat.sub_0_r | | lia].
    intros x Hx. rewrite Forall_forall in Hall. specialize (Hall x Hx).
    unfold flip in Hall. assert (x <> r) by (intros ->; done). lia.
Qed.

Lemma delete_selected (selected : list nat) (rows : list Row) :
  foldl (fun rows r => delete r rows) rows (descending selected) = unselected 0 selected rows.
Proof.
  unfold descending. rewrite delete_descending.
  - apply unselected_ext. intros x.
    by rewrite merge_sort_Permutation, elem_of_remove_dups.
  - apply StronglySorted_merge_sort.
    + intros x y z. unfold flip. lia.
    + intros x y. unfold flip. lia.
  - rewrite merge_sort_Permutation. apply NoDup_remove_dups.
Qed.

End RowFacts.

(** X18.  [add_row] does not raise and appends exactly one row, with the
    name, quantity and unit given and an empty row price.  The rows
    before it keep their name, row price, quantity and unit spec, and
    all but the last of them their price per unit too.  Without
    [copy_ppu], with a price given or on an empty table, no row changes
    and the new row has the price given. *)
Theorem add_row_appends (name qty unit price : string) (copy_ppu : bool)
    (active : option string) (dlg : Dialog) :
  exists rows price',
    Ui.add_row name qty unit price copy_ppu active dlg
    = Ok (mkDialog (name_edit dlg) (rows ++ [mkRow name "" qty unit price'])
            (debug_label dlg) (Ui.ppu_sum_text (rows ++ [mkRow name "" qty unit price'])))
    /\ length rows = length (table dlg)
    /\ (forall i row, table dlg !! i = Some row ->
          (exists t, rows !! i = Some (CostDialog.set_ppu_text row t))
          /\ (S i < length (table dlg) -> rows !! i = Some row))%nat
    /\ (copy_ppu = false \/ Str.is_empty price = false \/ table dlg = [] ->
        rows = table dlg /\ price' = price).
Proof.
  destruct (RowFacts.prefill_rows price copy_ppu active (table dlg))
    as (rows & price' & E & Hl & Hi & Hc).
  exists rows, price'. unfold Ui.add_row. rewrite E. done.
Qed.

(** X19.  [remove_selected_row] removes exactly the selected rows, the
    others staying in order, and then updates the price per unit of each
    row that is left. *)
Theorem remove_selected_row_unselected (selected : list nat) (dlg : Dialog) :
  table (Ui.remove_selected_row selected dlg)
  = imap CostDialog._update_price_per_unit_for_row
      (unselected 0 selected (table dlg))
  /\ name_edit (Ui.remove_selected_row selected dlg) = name_edit dlg.
Proof.
  unfold Ui.remove_selected_row, Ui._update_all_price_per_unit, Ui.set_table.
  cbn [table debug_label name_edit]. rewrite RowFacts.delete_selected.
  pose proof (SweepFacts.sweep_rows (unselected 0 selected (table dlg)) 0
                (debug_label dlg)) as Hr.
  destruct (Ui.sweep 0 _ _) as [rows debug]. cbn [fst] in Hr. by rewrite Hr.
Qed.

(** ** cost_dialog.py: [on_calculate] *)

Module CalculateFacts.

Import CostDialog Ui.

Lemma kept_inputs_refl (row : Row) : kept_inputs row row.
Proof. by repeat split. Qed.

Lemma row_price_stripped_strip (row : Row) :
  row_price_stripped row = Str.strip (row_price_text row).
Proof. unfold row_price_stripped. by destruct (row_price_text row). Qed.

Lemma kept_inputs_trans (a b c : Row) :
  kept_inputs a b -> kept_inputs b c -> kept_inputs a c.
Proof.
  intros (Hn & Hq & Hu & Hp) (Hn' & Hq' & Hu' & Hp').
  split; [congruence|]. split; [congruence|]. split; [congruence|].
  intros H. specialize (Hp H). rewrite Hp' , Hp; [reflexivity|].
  rewrite row_price_stripped_strip in *. by rewrite Hp.
Qed.

Lemma Forall2_kept_refl (rows : list Row) : Forall2 kept_inputs rows rows.
Proof. induction rows; constructor; [apply kept_inputs_refl | done]. Qed.

Lemma Forall2_kept_trans (l1 l2 l3 : list Row) :
  Forall2 kept_inputs l1 l2 -> Forall2 kept_inputs l2 l3 -> Forall2 kept_inputs l1 l3.
Proof. apply Forall2_trans. apply kept_inputs_trans. Qed.

Lemma update_kept (r : nat) (row : Row) :
  kept_inputs row (_update_price_per_unit_for_row r row).
Proof. destruct (SweepFacts.update_row_frame r row) as [t ->]. by repeat split. Qed.

Lemma imap_kept (rows : list Row) :
  forall f : nat -> Row -> Row,
    (forall i row, kept_inputs row (f i row)) -> Forall2 kept_inputs rows (imap f rows).
Proof.
  induction rows as [|row rows IH]; intros f Hf; [constructor|].
  rewrite imap_cons. constructor; [apply Hf|]. apply IH. intros i x. apply Hf.
Qed.

Lemma update_all_table (dlg : Dialog) :
  table (_update_all_price_per_unit dlg) = imap _update_price_per_unit_for_row (table dlg)
  /\ name_edit (_update_all_price_per_unit dlg) = name_edit dlg.
Proof.
  unfold _update_all_price_per_unit.
  pose proof (SweepFacts.sweep_rows (table dlg) 0 (debug_label dlg)) as Hr.
  destruct (sweep 0 (table dlg) (debug_label dlg)) as [rows debug].
  cbn [fst] in Hr. by split.
Qed.

(** Setting the row price of a row that had none, with the sweep it
    starts. *)
Lemma set_row_price_kept (r : nat) (t : string) (dlg : Dialog) (row : Row) :
  table dlg !! r = Some row ->
  Str.is_empty (row_price_stripped row) = true ->
  Forall2 kept_inputs (table dlg) (table (set_row_price r t dlg))
  /\ name_edit (set_row_price r t dlg) = name_edit dlg.
Proof.
  intros Hr He. unfold set_row_price. rewrite Hr.
  destruct (String.eqb _ _); [split; [apply Forall2_kept_refl | reflexivity]|].
  destruct (update_all_table
              (set_table dlg
                 (<[r := mkRow (name_text row) t (qty_text row) (unit_text row) (ppu_text row)]>
                    (table dlg)))) as [-> ->].
  split; [|reflexivity]. cbn [table set_table].
  eapply Forall2_kept_trans; [|apply imap_kept; apply update_kept].
  rewrite <- (list_insert_id (table dlg) r row Hr) at 1.
  apply Forall2_insert; [apply Forall2_kept_refl|].
  split; [reflexivity|]. split; [reflexivity|]. split; [reflexivity|].
  intros H. congruence.
Qed.

Lemma fill_kept (rs : list nat) :
  forall dlg,
    Forall2 kept_inputs (table dlg) (table (fill_row_prices rs dlg).1)
    /\ name_edit (fill_row_prices rs dlg).1 = name_edit dlg.
Proof.
  induction rs as [|r rs IH]; intros dlg; [split; [apply Forall2_kept_refl | reflexivity]|].
  cbn [fill_row_prices].
  destruct (table dlg !! r) as [row|] eqn:Hr; [|apply IH].
  destruct (Str.is_empty (Str.strip (name_text row))); [apply IH|].
  destruct (displayed_row_cost row) as [cost|];
    [|split; [apply Forall2_kept_refl | reflexivity]].
  destruct (Str.is_empty (row_price_stripped row)) eqn:He; [|apply IH].
  destruct (set_row_price_kept r (DecStr.to_str cost) dlg row Hr He) as [H1 H2].
  destruct (IH (set_row_price r (DecStr.to_str cost) dlg)) as [H3 H4].
  split; [by eapply Forall2_kept_trans | congruence].
Qed.

(** [str(d)] is never blank, and [strip] leaves it as it is. *)
Lemma to_str_not_blank (d : Decimal) :
  Str.is_empty (Str.strip (DecStr.to_str d)) = false.
Proof.
  rewrite ModelFacts.strip_empty.
  destruct d as [s c e|s|s sg p].
  - destruct (ParseFacts.parse_finite_str s c e) as (_ & _ & a & s' & E & Ha).
    cbn [DecStr.to_str]. rewrite E.
    assert (Hsp : Str.is_space a = false).
    { pose proof (ParseFacts.digit_clean a Ha) as H.
      apply andb_true_iff in H as [H _]. by apply negb_true_iff in H. }
    destruct s; cbn [DecStr.sign_str]; rewrite ?StrFacts.app_cons, ?StrFacts.app_nil_l;
      cbn [Spec.whitespace_only]; [reflexivity | by rewrite Hsp].
  - by destruct s.
  - by destruct s, sg.
Qed.

Lemma set_row_price_lookup (r : nat) (t : string) (dlg : Dialog) (row : Row) :
  table dlg !! r = Some row ->
  Str.is_empty (row_price_stripped row) = true ->
  Str.is_empty (Str.strip t) = false ->
  exists row', table (set_row_price r t dlg) !! r = Some row'
    /\ name_text row' = name_text row /\ row_price_text row' = t.
Proof.
  intros Hr He Ht. unfold set_row_price. rewrite Hr.
  destruct (String.eqb_spec (row_price_text row) t) as [E|_].
  - rewrite row_price_stripped_strip, E in He. congruence.
  - destruct (update_all_table
                (set_table dlg
                   (<[r := mkRow (name_text row) t (qty_text row) (unit_text row) (ppu_text row)]>
                      (table dlg)))) as [-> _].
    cbn [table set_table]. rewrite list_lookup_imap, list_lookup_insert_eq
      by (by apply lookup_lt_is_Some_1).
    cbn [fmap option_fmap option_map].
    destruct (SweepFacts.update_row_frame r
                (mkRow (name_text row) t (qty_text row) (unit_text row) (ppu_text row)))
      as [t' ->].
    eexists. split; [reflexivity|]. by split.
Qed.

Lemma priced_kept (row row' : Row) : priced row -> kept_inputs row row' -> priced row'.
Proof.
  intros [H|H] (Hn & _ & _ & Hp); [left; by rewrite Hn|].
  right. rewrite row_price_stripped_strip in *. by rewrite (Hp H).
Qed.

Lemma fill_priced (rs : list nat) :
  forall dlg dlg', fill_row_prices rs dlg = (dlg', None) ->
    forall r row', r ∈ rs -> table dlg' !! r = Some row' -> priced row'.
Proof.
  induction rs as [|r0 rs IH]; intros dlg dlg' Hfill r row' Hin Hrow'.
  { by apply elem_of_nil in Hin. }
  cbn [fill_row_prices] in Hfill.
  assert (Hlater : forall d row0,
            fill_row_prices rs d = (dlg', None) ->
            table d !! r0 = Some row0 -> priced row0 -> priced row').
  { intros d row0 Hd Hr0 Hp. apply elem_of_cons in Hin as [->|Hin]; [|by eapply IH].
    destruct (fill_kept rs d) as [Hk _]. rewrite Hd in Hk. cbn [fst] in Hk.
    destruct (Forall2_lookup_l _ _ _ _ _ Hk Hr0) as (y & Hy & Hky).
    assert (y = row') as -> by congruence. by eapply priced_kept. }
  destruct (table dlg !! r0) as [row|] eqn:Hr.
  - destruct (Str.is_empty (Str.strip (name_text row))) eqn:Hn.
    { apply (Hlater dlg row Hfill Hr). by left. }
    destruct (displayed_row_cost row) as [cost|]; [|discriminate].
    destruct (Str.is_empty (row_price_stripped row)) eqn:He.
    + destruct (set_row_price_lookup r0 (DecStr.to_str cost) dlg row Hr He
                  (to_str_not_blank cost)) as (row1 & Hr1 & _ & Hp1).
      apply (Hlater _ row1 Hfill Hr1). right.
      rewrite row_price_stripped_strip, Hp1. apply to_str_not_blank.
    + apply (Hlater dlg row Hfill Hr). by right.
  - apply elem_of_cons in Hin as [->|Hin]; [|by eapply IH].
    destruct (fill_kept rs dlg) as [Hk _]. rewrite Hfill in Hk. cbn [fst] in Hk.
    destruct (Forall2_lookup_r _ _ _ _ _ Hk Hrow') as (x & Hx & _). congruence.
Qed.

Lemma fill_noop (rs : list nat) (dlg : Dialog) :
  Forall priced (table dlg) -> (fill_row_prices rs dlg).1 = dlg.
Proof.
  intros Hp. induction rs as [|r rs IH]; [reflexivity|]. cbn [fill_row_prices].
  destruct (table dlg !! r) as [row|] eqn:Hr; [|exact IH].
  destruct (Str.is_empty (Str.strip (name_text row))) eqn:Hn; [exact IH|].
  destruct (displayed_row_cost row) as [cost|]; [|reflexivity].
  rewrite Forall_lookup in Hp. destruct (Hp r row Hr) as [H|H]; [congruence|].
  by rewrite H.
Qed.

Lemma row_ingredients_no_names (rows : list Row) :
  Forall (fun row => Str.is_empty (Str.strip (name_text row)) = true) rows ->
  row_ingredients rows = Ok [].
Proof.
  induction 1 as [|row rows Hrow _ IH]; [reflexivity|].
  cbn [row_ingredients]. by rewrite Hrow.
Qed.

Lemma on_calculate_priced (dlg dlg' : Dialog) :
  on_calculate dlg = (dlg', None) -> Forall priced (table dlg').
Proof.
  unfold on_calculate.
  destruct (get_recipe dlg) as [recipe|]; [|discriminate].
  destruct (bool_decide _); [discriminate|].
  destruct (_ ;; _ ;; _); [|discriminate].
  intros H. apply Forall_lookup. intros r row' Hr.
  apply (fill_priced _ _ _ H r row'); [|exact Hr].
  destruct (fill_kept (seq 0 (length (table dlg))) dlg) as [Hk _].
  rewrite H in Hk. cbn [fst] in Hk. apply Forall2_length in Hk.
  apply elem_of_seq. apply lookup_lt_Some in Hr. lia.
Qed.

End CalculateFacts.

(** X20.  [on_calculate] warns and changes nothing when it cannot
    calculate: with no row that has a name it asks for an ingredient;
    when [get_recipe] raises it shows that exception; with ingredients
    but a blank cocktail name it shows that the recipe name is
    required. *)
Theorem on_calculate_warnings (dlg : Dialog) :
  (Forall (fun row => Str.is_empty (Str.strip (name_text row)) = true) (table dlg) ->
   Ui.on_calculate dlg = (dlg, Some AddIngredient))
  /\ (forall e, CostDialog.get_recipe dlg = Raise e ->
        Ui.on_calculate dlg = (dlg, Some (Failed e)))
  /\ (forall recipe, CostDialog.get_recipe dlg = Ok recipe ->
        r_ingredients recipe <> [] ->
        Spec.whitespace_only (name_edit dlg) = true ->
        Ui.on_calculate dlg = (dlg, Some (Failed (ValueError "Recipe name is required")))).
Proof.
  split; [|split].
  - intros H. unfold Ui.on_calculate, CostDialog.get_recipe.
    by rewrite (CalculateFacts.row_ingredients_no_names _ H).
  - intros e H. unfold Ui.on_calculate. by rewrite H.
  - intros recipe H Hne Hw. unfold Ui.on_calculate. rewrite H.
    rewrite bool_decide_eq_false_2 by exact Hne.
    destruct (RecipeFacts.get_recipe_inv dlg recipe H) as (Hn & _ & _).
    unfold Model.validate.
    by rewrite Hn, ModelFacts.blank_whitespace_only, FormatFacts.whitespace_only_strip, Hw.
Qed.

Lemma on_calculate_warnings_witness :
  let empty := mkDialog "Gimlet" [mkRow " " "" "50" "ml" "0.02"] "" "" in
  let bad := mkDialog "Gimlet" [mkRow "Gin" "" "abc" "ml" "0.02"] "" "" in
  let unnamed := mkDialog "  " [mkRow "Gin" "" "50" "ml" "0.02"] "" "" in
  Ui.on_calculate empty = (empty, Some AddIngredient)
  /\ Ui.on_calculate bad = (bad, Some (Failed (ValueError "Invalid numeric value: abc")))
  /\ Ui.on_calculate unnamed
     = (unnamed, Some (Failed (ValueError "Recipe name is required"))).
Proof.
  intros empty bad unnamed. split; [|split].
  - apply (proj1 (on_calculate_warnings empty)).
    apply Forall_cons. split; [reflexivity | apply Forall_nil_2].
  - apply (proj1 (proj2 (on_calculate_warnings bad))). vm_compute. reflexivity.
  - apply (proj2 (proj2 (on_calculate_warnings unnamed))
             (mkRecipe "" [mkIngredient "Gin" (Fin false 50 0) "ml" (Fin false 2 (-2))] 1)).
    + vm_compute. reflexivity.
    + discriminate.
    + reflexivity.
Defined.

(** X21.  Whatever it does, [on_calculate] keeps the cocktail name and
    the rows of the table, and of each row the name, the quantity, the
    unit spec, and the row price the user gave: it writes a row price
    only where there was none. *)
Theorem on_calculate_keeps_inputs (dlg : Dialog) :
  name_edit (Ui.on_calculate dlg).1 = name_edit dlg
  /\ Forall2 kept_inputs (table dlg) (table (Ui.on_calculate dlg).1).
Proof.
  unfold Ui.on_calculate.
  destruct (CostDialog.get_recipe dlg) as [recipe|];
    [|split; [reflexivity | apply CalculateFacts.Forall2_kept_refl]].
  destruct (bool_decide _); [split; [reflexivity | apply CalculateFacts.Forall2_kept_refl]|].
  destruct (_ ;; _ ;; _);
    [|split; [reflexivity | apply CalculateFacts.Forall2_kept_refl]].
  destruct (CalculateFacts.fill_kept (seq 0 (length (table dlg))) dlg) as [H1 H2].
  by split.
Qed.



(** X23.  After an [on_calculate] that ended without a warning, another
    one changes nothing in the dialog. *)
Theorem on_calculate_again (dlg dlg' : Dialog) :
  Ui.on_calculate dlg = (dlg', None) -> (Ui.on_calculate dlg').1 = dlg'.
Proof.
  intros H. pose proof (CalculateFacts.on_calculate_priced dlg dlg' H) as Hp.
  unfold Ui.on_calculate.
  destruct (CostDialog.get_recipe dlg') as [recipe|]; [|reflexivity].
  destruct (bool_decide _); [reflexivity|].
  destruct (_ ;; _ ;; _); [|reflexivity].
  by apply CalculateFacts.fill_noop.
Qed.

Lemma on_calculate_again_witness :
  let dlg :=
    mkDialog "G&T" [mkRow "Gin" "" "50" "ml" "0.02"; mkRow "Tonic" "" "150" "ml" "0.001"]
      "" "" in
  exists dlg', Ui.on_calculate dlg = (dlg', None) /\ (Ui.on_calculate dlg').1 = dlg'.
Proof.
  intros dlg. eexists.
  assert (H : Ui.on_calculate dlg = _) by (vm_compute; reflexivity).
  split; [exact H|]. exact (on_calculate_again dlg _ H).
Defined.

(** X24.  Without a row price the update leaves the row alone: a price
    per unit typed or copied into a row that has no row price is never
    overwritten nor cleared by [_update_price_per_unit_for_row]. *)
Theorem update_without_row_price (r : nat) (row : Row) :
  Str.is_empty (Str.strip (row_price_text row)) = true ->
  CostDialog._update_price_per_unit_for_row r row = row.
Proof.
  intros H. rewrite <- CalculateFacts.row_price_stripped_strip in H.
  unfold CostDialog._update_price_per_unit_for_row, CostDialog.ppu_update,
    CostDialog.row_price_of.
  by rewrite H.
Qed.

Lemma update_without_row_price_witness :
  CostDialog._update_price_per_unit_for_row 0 (mkRow "Gin" "  " "50" "0" "0.02")
  = mkRow "Gin" "  " "50" "0" "0.02".
Proof.
  apply (update_without_row_price 0 (mkRow "Gin" "  " "50" "0" "0.02")). reflexivity.
Defined.

(** X25.  Splitting the total: for [servings >= 1] and a total of at
    most 27 digits in cents, the cost per serving is not above the total,
    and [servings] times the cost per serving differs from the total by
    at most half a cent per serving. *)
Theorem cost_per_serving_bounds (recipe : Recipe) (s : bool) (t : N) :
  1 <= r_servings recipe ->
  Dec.ndigits (Z.abs_N (r_servings recipe)) <= 999000 ->
  Calc.calculate_total_cost recipe = Ok (Fin s t (-2)) ->
  Dec.ndigits t <= 27 ->
  exists c,
    Calc.calculate_cost_per_serving recipe = Ok (Fin s c (-2))
    /\ Z.of_N c <= Z.of_N t
    /\ 2 * Z.abs (r_servings recipe * Z.of_N c - Z.of_N t) <= r_servings recipe.
Proof.
  intros Hs Hd Ht Hn.
  destruct (ServingFacts.per_serving_rounds s t (r_servings recipe) Hn Hs Hd)
    as (c & Hc & Hv & _).
  exists c. split.
  - unfold Calc.calculate_cost_per_serving.
    destruct (Z.leb_spec (r_servings recipe) 0); [lia|].
    rewrite Ht. exact Hc.
  - set (n := r_servings recipe) in *. set (T := Z.of_N t) in *.
    assert (0 <= T) by (unfold T; lia).
    pose proof (Z.div_mod (2 * T + n) (2 * n) ltac:(lia)) as Hdm.
    pose proof (Z.mod_pos_bound (2 * T + n) (2 * n) ltac:(lia)) as Hm.
    rewrite <- Hv in Hdm. split; [nia|]. lia.
Qed.

Lemma cost_per_serving_bounds_witness :
  exists c,
    Calc.calculate_cost_per_serving gin_tonic = Ok (Fin false c (-2))
    /\ Z.of_N c <= Z.of_N 115
    /\ 2 * Z.abs (r_servings gin_tonic * Z.of_N c - Z.of_N 115) <= r_servings gin_tonic.
Proof.
  apply (cost_per_serving_bounds gin_tonic false 115%N).
  - vm_compute. discriminate.
  - vm_compute. discriminate.
  - vm_compute. reflexivity.
  - vm_compute. discriminate.
Defined.

Lemma add_row_appends_witness :
  let dlg := mkDialog "Gimlet" [mkRow "Gin" "21" "700" "60" ""] "" "" in
  Ui.add_row "" "" "" "" true None dlg
  = Ok (mkDialog "Gimlet" [mkRow "Gin" "21" "700" "60" "1.80"; mkRow "" "" "" "" "1.8"]
          "" "PPU sum: 3.60")
  /\ exists rows price',
      Ui.add_row "" "" "" "" true None dlg
      = Ok (mkDialog (name_edit dlg) (rows ++ [mkRow "" "" "" "" price'])
              (debug_label dlg) (Ui.ppu_sum_text (rows ++ [mkRow "" "" "" "" price'])))
      /\ length rows = length (table dlg)
      /\ (forall i row, table dlg !! i = Some row ->
            (exists t, rows !! i = Some (CostDialog.set_ppu_text row t))
            /\ (S i < length (table dlg) -> rows !! i = Some row))%nat
      /\ (true = false \/ Str.is_empty "" = false \/ table dlg = [] ->
          rows = table dlg /\ price' = "").
Proof.
  intros dlg. split; [vm_compute; reflexivity|].
  exact (add_row_appends "" "" "" "" true None dlg).
Defined.

(** ** cost_dialog.py: the price per unit copied into a new row *)

Module CopyFacts.

Import Digits Dec DecStr Spec.

Lemma strip_zeros_value (n : nat) :
  forall (c : N) (e : Z) (c' : N) (e' : Z),
    strip_zeros n c e = (c', e') ->
    e <= e' /\ Z.of_N c = Z.of_N c' * 10 ^ (e' - e).
Proof.
  induction n as [|n IH]; intros c e c' e'.
  - intros [= <- <-]. rewrite Z.sub_diag. lia.
  - cbn [strip_zeros].
    destruct ((c mod 10 =? 0)%N && (e <? Emax)) eqn:E.
    + intros H. apply IH in H as [Hle Hv]. split; [lia|].
      apply andb_true_iff in E as [Hm _]. apply N.eqb_eq in Hm.
      replace (e' - e) with (Z.succ (e' - (e + 1))) by lia.
      rewrite Z.pow_succ_r by lia.
      assert (Hc : Z.of_N c = 10 * Z.of_N (c / 10)).
      { rewrite (N.div_mod c 10) at 1 by discriminate. rewrite Hm. lia. }
      rewrite Hc, Hv. ring.
    + intros [= <- <-]. rewrite Z.sub_diag. lia.
Qed.

(** [normalize()] of a decimal of six places keeps its value. *)
Lemma normalize_value (s : bool) (c : N) :
  ndigits c <= prec ->
  exists c' e',
    normalize (Fin s c (-6)) = Ok (Fin s c' e')
    /\ -6 <= e' /\ Z.of_N c = Z.of_N c' * 10 ^ (e' + 6).
Proof.
  intros Hn. pose proof (DigitsFacts.ndigits_pos c) as Hp. fold ndigits in Hp.
  unfold normalize. rewrite DecFacts.fix_fits
    by (cbn [fits]; unfold adjusted, Etiny, Emax, Emin, prec in *; lia).
  cbn [mbind result_bind]. destruct (N.eqb_spec c 0) as [->|Hc].
  - exists 0%N, 0. split; [reflexivity|]. split; [lia | reflexivity].
  - destruct (strip_zeros (Z.to_nat (ndigits c)) c (-6)) as [c' e'] eqn:E.
    apply strip_zeros_value in E as [Hle Hv].
    exists c', e'. split; [reflexivity|]. split; [lia|].
    by replace (e' + 6) with (e' - -6) by lia.
Qed.

Lemma take_all (s : string) : Str.take (String.length s) s = s.
Proof. induction s as [|a s IH]; [reflexivity|]. cbn [String.length Str.take]. by rewrite IH. Qed.

Lemma drop_all (s : string) : Str.drop (String.length s) s = "".
Proof. induction s as [|a s IH]; [reflexivity|]. exact IH. Qed.

(** Between six places and none, [format(d, 'f')] writes what [str]
    writes. *)
Lemma format_f_to_str (s : bool) (c : N) (e : Z) :
  -6 <= e <= 0 -> format_f (Fin s c e) = to_str (Fin s c e).
Proof.
  intros He. pose proof (DigitsFacts.to_string_spec c) as (_ & _ & Hlen & _).
  unfold format_f, to_str, finite_str.
  destruct (Z.ltb_spec 0 e); [lia|]. rewrite andb_false_r. cbv zeta.
  set (D := to_string c) in *. set (L := String.length D) in *.
  destruct (Z.leb_spec e 0); [|lia].
  destruct (Z.ltb_spec (-6) (e + Z.of_nat L)); [|lia]. cbn [andb].
  rewrite Z.eqb_refl, StrFacts.app_nil_r. f_equal.
  destruct (Z.ltb_spec (e + Z.of_nat L) 0).
  - destruct (Z.leb_spec (e + Z.of_nat L) 0); [|lia].
    destruct (Str.zeros (Z.to_nat (- (e + Z.of_nat L))) +:+ D) eqn:Ez; [|reflexivity].
    apply (f_equal String.length) in Ez. rewrite StrFacts.app_length in Ez.
    fold L in Ez. simpl in Ez. lia.
  - destruct (Z.ltb_spec (Z.of_nat L) (e + Z.of_nat L)); [lia|].
    destruct (Z.eqb_spec (e + Z.of_nat L) 0) as [E0|E0].
    + destruct (Z.leb_spec (e + Z.of_nat L) 0); [|lia].
      rewrite E0. change (Z.to_nat (- 0)) with 0%nat. change (Z.to_nat 0) with 0%nat.
      cbn [Str.zeros]. rewrite StrFacts.app_nil_l.
      unfold L in Hlen. clearbody D.
      destruct D; [simpl in Hlen; lia | reflexivity].
    + destruct (Z.leb_spec (e + Z.of_nat L) 0); [lia|].
      destruct (Z.leb_spec (Z.of_nat L) (e + Z.of_nat L)).
      * assert (e = 0) as -> by lia. rewrite Z.add_0_l, Nat2Z.id.
        unfold L. rewrite take_all, drop_all, Z.sub_diag. cbn [Str.is_empty Z.to_nat Str.zeros].
        by rewrite !StrFacts.app_nil_r.
      * destruct (Str.drop (Z.to_nat (e + Z.of_nat L)) D) eqn:Ed; [|reflexivity].
        apply (f_equal String.length) in Ed. rewrite FormatFacts.drop_length in Ed.
        fold L in Ed. simpl in Ed. lia.
Qed.

(** Above the units, [format(d, 'f')] writes the digits and the zeros. *)
Lemma format_f_zeros (s : bool) (c : N) (e : Z) :
  0 < e -> c <> 0%N ->
  format_f (Fin s c e) = sign_str s +:+ (to_string c +:+ Str.zeros (Z.to_nat e)).
Proof.
  intros He Hc. unfold format_f.
  destruct (N.eqb_spec c 0); [contradiction|]. cbn [andb]. cbv zeta.
  set (D := to_string c). set (L := String.length D).
  destruct (Z.ltb_spec (e + Z.of_nat L) 0); [lia|].
  destruct (Z.ltb_spec (Z.of_nat L) (e + Z.of_nat L)); [|lia].
  cbn [Str.is_empty]. rewrite StrFacts.app_nil_r.
  by replace (e + Z.of_nat L - Z.of_nat L) with e by lia.
Qed.

Lemma of_str_digits (s : bool) (ds : string) :
  all_digits ds = true -> ds <> "" ->
  of_str (sign_str s +:+ ds) = Ok (Fin s (of_string ds) 0).
Proof.
  intros Hd Hne. pose proof (ParseFacts.all_digits_clean ds Hd) as Hc.
  assert (Hdig : exists a s', ds = String a s' /\ is_digit a = true).
  { destruct ds as [|a s']; [contradiction|]. cbn [all_digits] in Hd.
    apply andb_true_iff in Hd as [Ha _]. eauto. }
  assert (Hp : parse_finite s ds = Some (Fin s (of_string ds) 0)).
  { unfold parse_finite. rewrite (ParseFacts.span_digits_all ds Hd).
    destruct ds as [|a s']; [contradiction|]. cbn [Str.is_empty andb parse_exp].
    cbn [String.length Z.of_nat]. by rewrite StrFacts.app_nil_r. }
  unfold of_str. destruct s; cbn [sign_str].
  - rewrite StrFacts.app_cons, StrFacts.app_nil_l.
    rewrite ParseFacts.strip_clean by (cbn [clean]; rewrite Hc; reflexivity).
    rewrite ParseFacts.remove_underscores_clean by (cbn [clean]; rewrite Hc; reflexivity).
    cbn [parse_sign]. by rewrite Hp.
  - rewrite StrFacts.app_nil_l.
    rewrite ParseFacts.strip_clean, ParseFacts.remove_underscores_clean by exact Hc.
    rewrite (ParseFacts.parse_sign_digits _ Hdig). by rewrite Hp.
Qed.

Lemma of_string_zeros_r (ds : string) (k : nat) :
  Z.of_N (of_string (ds +:+ Str.zeros k)) = Z.of_N (of_string ds) * 10 ^ Z.of_nat k.
Proof.
  unfold of_string. rewrite DigitsFacts.of_string_acc_app, DigitsFacts.of_string_acc_shift.
  rewrite StrFacts.zeros_length.
  pose proof (ParseFacts.of_string_zeros k "") as H. rewrite StrFacts.app_nil_r in H.
  unfold of_string in H. rewrite H. cbn [of_string_acc]. lia.
Qed.

(** Reading back the text [format(d, 'f')] writes for a normalised price
    per unit gives a decimal of the same value. *)
Lemma of_str_format_f (s : bool) (c : N) (e : Z) :
  -6 <= e -> (c = 0%N -> e <= 0) ->
  exists c2 e2,
    of_str (format_f (Fin s c e)) = Ok (Fin s c2 e2)
    /\ -6 <= e2 /\ Z.of_N c2 * 10 ^ (e2 + 6) = Z.of_N c * 10 ^ (e + 6).
Proof.
  intros He Hz. destruct (Z.leb_spec e 0) as [Hle|Hgt].
  - exists c, e. rewrite format_f_to_str by lia.
    by rewrite ParseFacts.of_str_to_str.
  - assert (Hc : c <> 0%N) by (intros ->; specialize (Hz eq_refl); lia).
    pose proof (DigitsFacts.to_string_spec c) as (Hall & Hval & Hlen & _).
    rewrite format_f_zeros by assumption.
    exists (of_string (to_string c +:+ Str.zeros (Z.to_nat e))), 0.
    split; [|split; [lia|]].
    + apply of_str_digits.
      * by rewrite DigitsFacts.all_digits_app, Hall, ParseFacts.all_digits_zeros.
      * destruct (to_string c); [simpl in Hlen; lia | discriminate].
    + rewrite of_string_zeros_r, Hval, Z2Nat.id by lia.
      rewrite <- Z.mul_assoc, <- Z.pow_add_r by lia. reflexivity.
Qed.

Lemma Qval_scaled (s : bool) (c c2 : N) (e2 : Z) :
  -6 <= e2 -> Z.of_N c2 * 10 ^ (e2 + 6) = Z.of_N c ->
  (Qval (Fin s c2 e2) == Qval (Fin s c (-6)))%Q.
Proof.
  intros He H. cbn [Qval].
  assert (Hs : signed s c = signed s c2 * pow10 (e2 + 6)).
  { unfold signed, pow10. destruct s; lia. }
  rewrite Hs, inject_Z_mult, ValFacts.inject_pow10 by lia.
  rewrite <- Qmult_assoc, <- ValFacts.Qpow10_add.
  by replace (e2 + 6 + -6) with e2 by lia.
Qed.

End CopyFacts.

(** X26.  The price per unit [add_row] copies is the price derived from
    the row above, to six places: when that row has a row price from
    which [(P * (U / Q)).quantize(0.000001)] gives the finite [ppu], the
    row above displays [ppu] with two decimals, and the text put in the
    new row reads back as a decimal of the value of [ppu], not of its
    two-decimal display. *)
Theorem add_row_copies_derived_price (name qty unit : string) (active : option string)
    (dlg : Dialog) (rows : list Row) (prev : Row) (s : bool) (c : N) (e : Z) :
  table dlg = rows ++ [prev] ->
  Ui.copied_ppu active prev = Some (Fin s c e) ->
  exists price' d',
    Ui.add_row name qty unit "" true active dlg
    = Ok (mkDialog (name_edit dlg)
            (rows ++ [CostDialog.set_ppu_text prev (CostDialog._format_ppu (Fin s c e));
                      mkRow name "" qty unit price'])
            (debug_label dlg)
            (Ui.ppu_sum_text
               (rows ++ [CostDialog.set_ppu_text prev (CostDialog._format_ppu (Fin s c e));
                         mkRow name "" qty unit price'])))
    /\ CostDialog._parse_decimal price' = Ok d'
    /\ (Spec.Qval d' == Spec.Qval (Fin s c e))%Q.
Proof.
  intros Ht Hc.
  assert (Hshape : e = -6 /\ Dec.ndigits c <= Dec.prec).
  { revert Hc. unfold Ui.copied_ppu. cbv zeta.
    set (rp_text := match active with Some _ => _ | None => _ end).
    destruct (Str.is_empty rp_text); [discriminate|].
    destruct (DecStr.of_str rp_text) as [rp|];
      cbn [mbind result_bind try_except]; [|discriminate].
    destruct (DecStr.of_str (CostDialog.str_or (qty_text prev) "0")) as [qty_val|];
      cbn [mbind result_bind try_except]; [|discriminate].
    destruct (DecStr.of_str (CostDialog.str_or (unit_text prev) "0")) as [unit_spec_val|];
      cbn [mbind result_bind try_except]; [|discriminate].
    destruct (Dec.gt qty_val (Dec.of_int 0)) as [[]|];
      cbn [mbind result_bind try_except]; try discriminate.
    destruct (Dec.gt unit_spec_val (Dec.of_int 0)) as [[]|];
      cbn [mbind result_bind try_except]; try discriminate.
    destruct (CostDialog.derive_ppu rp qty_val unit_spec_val) as [ppu|] eqn:E;
      cbn [mbind result_bind try_except]; [|discriminate].
    intros [= ->]. by apply (DialogFacts.derive_ppu_shape rp qty_val unit_spec_val s c e). }
  destruct Hshape as [-> Hn].
  destruct (CopyFacts.normalize_value s c Hn) as (c1 & e1 & Hnorm & He1 & Hv1).
  destruct (CopyFacts.of_str_format_f s c1 e1 He1) as (c2 & e2 & Hparse & He2 & Hv2).
  { intros ->. assert (c = 0%N) as -> by lia.
    vm_compute in Hnorm. injection Hnorm as <-. lia. }
  exists (DecStr.format_f (Fin s c1 e1)), (Fin s c2 e2). split; [|split].
  - unfold Ui.add_row, Ui.prefill. rewrite Ht, last_snoc.
    cbn [andb Str.is_empty]. rewrite Hc, Hnorm. cbn [mbind result_bind].
    rewrite length_app. cbn [length]. rewrite Nat.add_1_r. cbn [pred].
    rewrite (insert_app_r_alt rows [prev] (length rows)) by lia.
    rewrite Nat.sub_diag. cbn [insert list_insert].
    by rewrite <- !app_assoc.
  - unfold CostDialog._parse_decimal. by rewrite FormatFacts.of_str_strip, Hparse.
  - apply CopyFacts.Qval_scaled; [exact He2|]. lia.
Qed.

Lemma add_row_copies_derived_price_witness :
  let prev := mkRow "Vermouth" "18" "700" "25" "" in
  let dlg := mkDialog "Martini" [mkRow "Gin" "21" "700" "60" "1.80"; prev] "" "" in
  Ui.copied_ppu None prev = Some (Fin false 642857 (-6))
  /\ exists price' d',
      Ui.add_row "" "" "" "" true None dlg
      = Ok (mkDialog (name_edit dlg)
              ([mkRow "Gin" "21" "700" "60" "1.80"]
               ++ [CostDialog.set_ppu_text prev
                     (CostDialog._format_ppu (Fin false 642857 (-6)));
                   mkRow "" "" "" "" price'])
              (debug_label dlg)
              (Ui.ppu_sum_text
                 ([mkRow "Gin" "21" "700" "60" "1.80"]
                  ++ [CostDialog.set_ppu_text prev
                        (CostDialog._format_ppu (Fin false 642857 (-6)));
                      mkRow "" "" "" "" price'])))
      /\ CostDialog._parse_decimal price' = Ok d'
      /\ (Spec.Qval d' == Spec.Qval (Fin false 642857 (-6)))%Q.
Proof.
  intros prev dlg.
  assert (H : Ui.copied_ppu None prev = Some (Fin false 642857 (-6)))
    by (vm_compute; reflexivity).
  split; [exact H|].
  exact (add_row_copies_derived_price "" "" "" None dlg
           [mkRow "Gin" "21" "700" "60" "1.80"] prev false 642857%N (-6) eq_refl H).
Defined.
